(** * ChessburgerBot: period statistics of [getStats] and [handleStats]

    A shallow embedding of the statistics core of [src/bot.js]: the period
    window computed by [handleStats], and the three stages of [getStats]
    (month keys to fetch, archive fetching, aggregation).

    Instants are JavaScript time values: milliseconds since the Unix epoch,
    here an integer in [Z].  The [Date] primitives the source calls follow
    ECMA-262 (section 21.4.1); [TimeClip], which turns instants further
    than 8.64e15 ms from the epoch into an invalid date, has no counterpart
    in [Z] and is left out. *)

From Stdlib Require Import ZArith List Bool Lia String Ascii.
From Stdlib Require Import Permutation Sorted DecimalString DecimalZ DecimalPos.
Import ListNotations.

Local Open Scope Z_scope.

(** ** The [Date] primitives used by the source *)

Module JSDate.

Definition msPerDay : Z := 86400000.

Definition Day (t : Z) : Z := t / msPerDay.
Definition TimeWithinDay (t : Z) : Z := t mod msPerDay.

Definition InLeapYear_of (y : Z) : bool :=
  (y mod 4 =? 0) && (negb (y mod 100 =? 0) || (y mod 400 =? 0)).

Definition DaysInYear (y : Z) : Z := if InLeapYear_of y then 366 else 365.

Definition DayFromYear (y : Z) : Z :=
  365 * (y - 1970) + (y - 1969) / 4 - (y - 1901) / 100 + (y - 1601) / 400.

(** The year of a day number: the [y] with
    [DayFromYear y <= d < DayFromYear (y + 1)]; a first estimate from the
    mean length of a year is off by at most one. *)
Definition YearFromDay (d : Z) : Z :=
  let y := 1970 + (400 * d) / 146097 in
  if d <? DayFromYear y then y - 1
  else if DayFromYear (y + 1) <=? d then y + 1
  else y.

Definition YearFromTime (t : Z) : Z := YearFromDay (Day t).
Definition InLeapYear (t : Z) : bool := InLeapYear_of (YearFromTime t).
Definition DayWithinYear (t : Z) : Z := Day t - DayFromYear (YearFromTime t).

(** Day number, within its year, of the first day of month [m] (0-based). *)
Definition MonthStart (leap : bool) (m : Z) : Z :=
  let l := if leap then 1 else 0 in
  if m <=? 0 then 0
  else if m =? 1 then 31
  else if m =? 2 then 59 + l
  else if m =? 3 then 90 + l
  else if m =? 4 then 120 + l
  else if m =? 5 then 151 + l
  else if m =? 6 then 181 + l
  else if m =? 7 then 212 + l
  else if m =? 8 then 243 + l
  else if m =? 9 then 273 + l
  else if m =? 10 then 304 + l
  else if m =? 11 then 334 + l
  else 365 + l.

Definition MonthFromDay (leap : bool) (dy : Z) : Z :=
  if dy <? MonthStart leap 1 then 0
  else if dy <? MonthStart leap 2 then 1
  else if dy <? MonthStart leap 3 then 2
  else if dy <? MonthStart leap 4 then 3
  else if dy <? MonthStart leap 5 then 4
  else if dy <? MonthStart leap 6 then 5
  else if dy <? MonthStart leap 7 then 6
  else if dy <? MonthStart leap 8 then 7
  else if dy <? MonthStart leap 9 then 8
  else if dy <? MonthStart leap 10 then 9
  else if dy <? MonthStart leap 11 then 10
  else 11.

Definition MonthFromTime (t : Z) : Z :=
  MonthFromDay (InLeapYear t) (DayWithinYear t).

Definition DateFromTime (t : Z) : Z :=
  DayWithinYear t - MonthStart (InLeapYear t) (MonthFromTime t) + 1.

Definition WeekDay (t : Z) : Z := (Day t + 4) mod 7.

Definition MakeTime (hour min sec ms : Z) : Z :=
  hour * 3600000 + min * 60000 + sec * 1000 + ms.

Definition MakeDay (year month date : Z) : Z :=
  let ym := year + month / 12 in
  let mn := month mod 12 in
  DayFromYear ym + MonthStart (InLeapYear_of ym) mn + date - 1.

Definition MakeDate (day time : Z) : Z := day * msPerDay + time.

(** [Date.UTC(year, month, date, hours, minutes, seconds)]; a year from 0
    to 99 stands for 1900 + year. *)
Definition UTC (year month date hours minutes seconds : Z) : Z :=
  let yr := if (0 <=? year) && (year <=? 99) then 1900 + year else year in
  MakeDate (MakeDay yr month date) (MakeTime hours minutes seconds 0).

Definition getUTCFullYear (t : Z) : Z := YearFromTime t.
Definition getUTCMonth (t : Z) : Z := MonthFromTime t.
Definition getUTCDate (t : Z) : Z := DateFromTime t.
Definition getUTCDay (t : Z) : Z := WeekDay t.

Definition setUTCDate (t date : Z) : Z :=
  MakeDate (MakeDay (YearFromTime t) (MonthFromTime t) date) (TimeWithinDay t).

Definition setUTCMonth (t month : Z) : Z :=
  MakeDate (MakeDay (YearFromTime t) month (DateFromTime t)) (TimeWithinDay t).

End JSDate.

(** ** JavaScript strings, as far as the source uses them

    Strings are ASCII here: user names, time classes and month keys of the
    archive API are. *)

Module JSString.

Local Open Scope string_scope.

(** Number to string conversion of an integer: decimal digits, with a
    leading minus sign for a negative one. *)
Definition numToString (z : Z) : string := NilZero.string_of_int (Z.to_int z).

(** [Number(s)] for the strings that arise from splitting a month key: the
    empty string is 0, a decimal integer literal is its value, anything
    else counts as [NaN] ([None]). *)
Definition Number (s : string) : option Z :=
  match s with
  | EmptyString => Some 0%Z
  | _ => option_map Z.of_int (NilZero.int_of_string s)
  end.

(** [s.split(c)] for a one-character separator. *)
Fixpoint split (c : ascii) (s : string) : list string :=
  match s with
  | EmptyString => [EmptyString]
  | String a s' =>
      if Ascii.eqb a c then EmptyString :: split c s'
      else match split c s' with
           | [] => [String a EmptyString]
           | h :: t => String a h :: t
           end
  end.

(** [s.padStart(2, '0')]. *)
Definition padStart2 (s : string) : string :=
  match s with
  | EmptyString => "00"
  | String a EmptyString => String "0" (String a EmptyString)
  | _ => s
  end.

Definition lowerChar (c : ascii) : ascii :=
  let n := nat_of_ascii c in
  if (65 <=? n)%nat && (n <=? 90)%nat then ascii_of_nat (n + 32) else c.

Fixpoint toLowerCase (s : string) : string :=
  match s with
  | EmptyString => EmptyString
  | String a s' => String (lowerChar a) (toLowerCase s')
  end.

(** [Array.prototype.sort()] without comparator on an array of strings:
    a stable sort by code units. *)
Fixpoint insertString (s : string) (l : list string) : list string :=
  match l with
  | [] => [s]
  | h :: t => if String.leb s h then s :: l else h :: insertString s t
  end.

Definition sortStrings (l : list string) : list string :=
  fold_right insertString [] l.

(** A [Set] of strings: insertion order, no duplicates. *)
Definition Set_add (s : string) (l : list string) : list string :=
  if in_dec string_dec s l then l else l ++ [s].

Definition Set_from (l : list string) : list string :=
  fold_left (fun acc s => Set_add s acc) l [].

End JSString.

(** ** Game records of the archive API

    The fields [getStats] reads; a record also carries [pgn] and the
    result of each side, which [getStats] passes on unread. *)

Module API.

Record Player := mkPlayer { username : string; rating : Z }.

Record Game := mkGame {
  end_time : Z;            (* epoch seconds *)
  time_class : string;
  white : Player;
  black : Player
}.

End API.

Import API.

Inductive PeriodType := daily | weekly | monthly | yearly.

Inductive Mode := rapid | blitz | bullet.

Definition modes : list Mode := [rapid; blitz; bullet].

Definition modeName (m : Mode) : string :=
  match m with
  | rapid => "rapid"
  | blitz => "blitz"
  | bullet => "bullet"
  end%string.

(** The objects [{ rapid: _, blitz: _, bullet: _ }] of [getStats]. *)
Record PerMode (A : Type) := mkPerMode { at_rapid : A; at_blitz : A; at_bullet : A }.
Arguments mkPerMode {A}.
Arguments at_rapid {A}.
Arguments at_blitz {A}.
Arguments at_bullet {A}.

Definition get {A} (m : Mode) (o : PerMode A) : A :=
  match m with
  | rapid => at_rapid o
  | blitz => at_blitz o
  | bullet => at_bullet o
  end.

Definition set {A} (m : Mode) (v : A) (o : PerMode A) : PerMode A :=
  match m with
  | rapid => mkPerMode v (at_blitz o) (at_bullet o)
  | blitz => mkPerMode (at_rapid o) v (at_bullet o)
  | bullet => mkPerMode (at_rapid o) (at_blitz o) v
  end.

Record StatsResult := mkStatsResult {
  stats : PerMode nat;               (* stats[mode].count *)
  startRatings : PerMode (option Z); (* None is null *)
  endRatings : PerMode (option Z);
  gamesInPeriod : list Game
}.

(** ** [handleStats]: the window of a period type at the instant [now]

    The message listener of the earlier version of the bot computes the
    window by the same statements. *)

Module Handler.
Import JSDate.

Definition periodWindow (periodType : PeriodType) (now : Z) : Z * Z :=
  match periodType with
  | daily =>
      (UTC (getUTCFullYear now) (getUTCMonth now) (getUTCDate now) 0 0 0,
       UTC (getUTCFullYear now) (getUTCMonth now) (getUTCDate now) 23 59 59)
  | weekly =>
      let day := getUTCDay now in
      let diff := if day =? 0 then 6 else day - 1 in
      let start := setUTCDate now (getUTCDate now - diff) in
      (UTC (getUTCFullYear start) (getUTCMonth start) (getUTCDate start) 0 0 0,
       UTC (getUTCFullYear now) (getUTCMonth now) (getUTCDate now) 23 59 59)
  | monthly =>
      (UTC (getUTCFullYear now) (getUTCMonth now) 1 0 0 0,
       UTC (getUTCFullYear now) (getUTCMonth now + 1) 0 23 59 59)
  | yearly =>
      (UTC (getUTCFullYear now) 0 1 0 0 0,
       UTC (getUTCFullYear now) 11 31 23 59 59)
  end.

Definition periodStart (periodType : PeriodType) (now : Z) : Z :=
  fst (periodWindow periodType now).

Definition periodEnd (periodType : PeriodType) (now : Z) : Z :=
  snd (periodWindow periodType now).

End Handler.

(** ** Effects of [getStats]: archive requests and exceptions

    A computation threads the list of URLs requested so far and either
    returns a value or throws. *)

Inductive exn := TypeError | FetchError | SyntaxError.

Inductive outcome (A : Type) := Ret (a : A) | Throw (e : exn).
Arguments Ret {A}.
Arguments Throw {A}.

Definition M (A : Type) : Type := list string -> outcome A * list string.

Definition ret {A} (a : A) : M A := fun tr => (Ret a, tr).

Definition throw {A} (e : exn) : M A := fun tr => (Throw e, tr).

Definition bind {A B} (m : M A) (k : A -> M B) : M B :=
  fun tr =>
    match m tr with
    | (Ret a, tr') => k a tr'
    | (Throw e, tr') => (Throw e, tr')
    end.

Definition try_catch {A} (m : M A) (handler : exn -> M A) : M A :=
  fun tr =>
    match m tr with
    | (Ret a, tr') => (Ret a, tr')
    | (Throw e, tr') => handler e tr'
    end.

Notation "x <- m ;; k" := (bind m (fun x => k))
  (at level 61, m at next level, right associativity).

(** What the archive API answers to one request: [None] for a network
    error; otherwise a response with its [ok] flag, its status, and its
    body, [None] when the body is not JSON. A JSON body is well typed: it
    carries the field [games], an array of game records, or lacks it.
    These are the well-formed answers; the same code over answers of
    other shapes, on which it can throw, is embedded in [Raw] below. *)
Record Payload := mkPayload { games : option (list Game) }.

Record Response := mkResponse {
  ok : bool;
  status : Z;
  body : option Payload
}.

Definition Network : Type := string -> option Response.

Definition fetch (net : Network) (url : string) : M Response :=
  fun tr =>
    match net url with
    | Some res => (Ret res, tr ++ [url])
    | None => (Throw FetchError, tr ++ [url])
    end.

Definition json (res : Response) : M Payload :=
  match body res with
  | Some data => ret data
  | None => throw SyntaxError
  end.

(** ** [getStats] *)

Module Stats.
Import JSDate JSString.

Definition monthKey (year month : Z) : string :=
  (numToString year ++ "-" ++ numToString month)%string.

(** The [while (iter <= periodEnd)] loop of the yearly branch. Each turn
    moves [iter] forward by a month; [fuel] bounds the number of turns. *)
Fixpoint yearLoop (fuel : nat) (iter periodEnd : Z) (monthsToFetch : list string)
  : list string :=
  match fuel with
  | O => monthsToFetch
  | S fuel' =>
      if iter <=? periodEnd then
        yearLoop fuel' (setUTCMonth iter (getUTCMonth iter + 1)) periodEnd
          (Set_add (monthKey (getUTCFullYear iter) (getUTCMonth iter + 1))
                   monthsToFetch)
      else monthsToFetch
  end.

(** A month lasts at least 28 days, so this many turns exhaust the loop
    (lemma [yearLoop_enough]). *)
Definition yearFuel (iter periodEnd : Z) : nat :=
  Z.to_nat ((periodEnd - iter) / (28 * msPerDay) + 1).

(** Comparisons of the filter: [undefined] and [NaN] ([None]) compare
    false. *)
Definition js_gt (a : option Z) (b : Z) : bool :=
  match a with Some x => b <? x | None => false end.

Definition js_eq (a : option Z) (b : Z) : bool :=
  match a with Some x => x =? b | None => false end.

Definition element (parts : list string) (i : nat) : option Z :=
  match nth_error parts i with
  | Some s => Number s
  | None => None
  end.

(** The callback of the "remove future months" filter. *)
Definition notFuture (now : Z) (m : string) : bool :=
  let parts := split "-" m in
  let y := element parts 0 in
  let mon := element parts 1 in
  if js_gt y (getUTCFullYear now) then false
  else if js_eq y (getUTCFullYear now) && js_gt mon (getUTCMonth now + 1)
       then false
  else true.

Definition candidateMonths (periodStart periodEnd : Z) (periodType : PeriodType)
  : list string :=
  let startMonth := getUTCMonth periodStart + 1 in
  let startYear := getUTCFullYear periodStart in
  let endMonth := getUTCMonth periodEnd + 1 in
  let endYear := getUTCFullYear periodEnd in
  let prevDate := UTC startYear (startMonth - 2) 1 0 0 0 in
  let monthsToFetch :=
    Set_add (monthKey (getUTCFullYear prevDate) (getUTCMonth prevDate + 1)) [] in
  match periodType with
  | yearly =>
      let monthsToFetch := Set_add (monthKey (startYear - 1) 12) monthsToFetch in
      let iter := UTC startYear 0 1 0 0 0 in
      yearLoop (yearFuel iter periodEnd) iter periodEnd monthsToFetch
  | _ =>
      let monthsToFetch := Set_add (monthKey startYear startMonth) monthsToFetch in
      match periodType with
      | weekly =>
          if negb (startMonth =? endMonth)
          then Set_add (monthKey endYear endMonth) monthsToFetch
          else monthsToFetch
      | _ => monthsToFetch
      end
  end.

(** The month keys in the order they are fetched; [now] is the clock
    reading of [getStats]. *)
Definition monthsToFetch (now periodStart periodEnd : Z) (periodType : PeriodType)
  : list string :=
  let months := candidateMonths periodStart periodEnd periodType in
  let months := Set_from (filter (notFuture now) months) in
  Set_from (sortStrings months).

Definition archiveUrl (username year month : string) : string :=
  ("https://api.chess.com/pub/player/" ++ username ++ "/games/" ++ year
   ++ "/" ++ padStart2 month)%string.

Definition fetchGamesForMonth (net : Network) (username year month : string)
  : M (list Game) :=
  let url := archiveUrl username year month in
  try_catch
    (res <- fetch net url ;;
     if negb (ok res) then ret []
     else
       data <- json res ;;
       ret (match games data with Some gs => gs | None => [] end))
    (fun _ => ret []).

(** The [for (const monthStr of monthsToFetch)] loop. [month.toString()]
    throws when the key has no second part. *)
Fixpoint fetchLoop (net : Network) (username : string) (months : list string)
  (allGames : list Game) : M (list Game) :=
  match months with
  | [] => ret allGames
  | monthStr :: rest =>
      let parts := split "-" monthStr in
      match nth_error parts 1 with
      | None => throw TypeError
      | Some month =>
          games <- fetchGamesForMonth net username (nth 0 parts EmptyString) month ;;
          fetchLoop net username rest (allGames ++ games)
      end
  end.

(** The conditional that picks the subject's side, written three times in
    the source. *)
Definition ratingOf (username : string) (g : Game) : Z :=
  if String.eqb (toLowerCase (API.username (white g)))
                (toLowerCase username)
  then rating (white g) else rating (black g).

(** [allGames.sort((a, b) => a.end_time - b.end_time)]: a stable sort by
    end time. *)
Fixpoint insertGame (g : Game) (l : list Game) : list Game :=
  match l with
  | [] => [g]
  | h :: t => if end_time g <=? end_time h then g :: l else h :: insertGame g t
  end.

Definition sortGames (l : list Game) : list Game := fold_right insertGame [] l.

(** [new Date(g.end_time * 1000)] against the bounds of the period. *)
Definition inPeriod (periodStart periodEnd : Z) (g : Game) : bool :=
  (periodStart <=? end_time g * 1000) && (end_time g * 1000 <=? periodEnd).

Definition isMode (mode : Mode) (g : Game) : bool :=
  String.eqb (time_class g) (modeName mode).

Definition beforePeriod (periodStart : Z) (mode : Mode) (g : Game) : bool :=
  isMode mode g && (end_time g * 1000 <? periodStart).

(** [a.pop()]: the last element, if any. *)
Definition pop {A} (a : list A) : option A :=
  match rev a with
  | [] => None
  | x :: _ => Some x
  end.

(** First loop over the modes: the start rating from the last game before
    the period; [sorted] is [allGames] after the sort. *)
Definition startLoop (username : string) (periodStart : Z) (sorted : list Game)
  (startRatings : PerMode (option Z)) : PerMode (option Z) :=
  fold_left
    (fun startRatings mode =>
       match pop (filter (beforePeriod periodStart mode) sorted) with
       | Some lastBefore => set mode (Some (ratingOf username lastBefore)) startRatings
       | None => startRatings
       end)
    modes startRatings.

(** Second loop over the modes: counts, end ratings, start-rating
    fallback. *)
Definition countLoop (username : string) (gamesInPeriod : list Game)
  (st : PerMode nat * PerMode (option Z) * PerMode (option Z))
  : PerMode nat * PerMode (option Z) * PerMode (option Z) :=
  fold_left
    (fun st mode =>
       let '(stats, startRatings, endRatings) := st in
       let modeGames := filter (isMode mode) gamesInPeriod in
       let stats := set mode (List.length modeGames) stats in
       let endRatings :=
         match List.length modeGames with
         | O => endRatings
         | S n =>
             match nth_error modeGames n with
             | Some last => set mode (Some (ratingOf username last)) endRatings
             | None => endRatings
             end
         end in
       let startRatings :=
         match get mode startRatings with
         | None =>
             match nth_error modeGames 0 with
             | Some firstInPeriod =>
                 set mode (Some (ratingOf username firstInPeriod)) startRatings
             | None => startRatings
             end
         | Some _ => startRatings
         end in
       (stats, startRatings, endRatings))
    modes st.

(** The part of [getStats] after the fetch loop. *)
Definition aggregate (username : string) (periodStart periodEnd : Z)
  (allGames : list Game) : StatsResult :=
  let gamesInPeriod := filter (inPeriod periodStart periodEnd) allGames in
  let stats := mkPerMode 0%nat 0%nat 0%nat in
  let startRatings := mkPerMode None None None in
  let endRatings := mkPerMode None None None in
  let sorted := sortGames allGames in
  let startRatings := startLoop username periodStart sorted startRatings in
  let '(stats, startRatings, endRatings) :=
    countLoop username gamesInPeriod (stats, startRatings, endRatings) in
  mkStatsResult stats startRatings endRatings gamesInPeriod.

Definition getStats (net : Network) (now : Z) (username : string)
  (periodStart periodEnd : Z) (periodType : PeriodType) : M StatsResult :=
  let months := monthsToFetch now periodStart periodEnd periodType in
  allGames <- fetchLoop net username months [] ;;
  ret (aggregate username periodStart periodEnd allGames).

End Stats.

(** ** Notions used to state the properties *)

Module Notions.
Import JSDate JSString Stats.

(** The bucket [(year, month)], month from 1 to 12, is not later than the
    bucket containing [now]. *)
Definition notAfter (year month now : Z) : Prop :=
  year < getUTCFullYear now
  \/ (year = getUTCFullYear now /\ month <= getUTCMonth now + 1).

(** [s] is the key of a bucket. *)
Definition isKey (s : string) : Prop :=
  exists y m, 1 <= m <= 12 /\ s = monthKey y m.

(** The month before the month of [t], as a bucket. *)
Definition previousMonth (t : Z) : Z * Z :=
  if getUTCMonth t =? 0 then (getUTCFullYear t - 1, 12)
  else (getUTCFullYear t, getUTCMonth t).

Fixpoint noDash (s : string) : bool :=
  match s with
  | EmptyString => true
  | String a s' => negb (Ascii.eqb a "-") && noDash s'
  end.

(** Order of [sort()] on strings: by code units. *)
Definition str_le (a b : string) : Prop := String.leb a b = true.

(** The games one archive request contributes. *)
Definition responseGames (answer : option Response) : list Game :=
  match answer with
  | Some res =>
      if ok res then
        match body res with
        | Some data => match games data with Some gs => gs | None => [] end
        | None => []
        end
      else []
  | None => []
  end.

(** A request fails: network error, non-success status, or a body that is
    not JSON. *)
Definition failed (answer : option Response) : bool :=
  match answer with
  | Some res =>
      negb (ok res) || match body res with Some _ => false | None => true end
  | None => true
  end.

(** The URL requested for a month key, and what the request contributes. *)
Definition requestOf (username monthStr : string) : string :=
  let parts := split "-" monthStr in
  archiveUrl username (nth 0 parts EmptyString) (nth 1 parts EmptyString).

Definition contribution (net : Network) (username monthStr : string)
  : list Game :=
  responseGames (net (requestOf username monthStr)).

(** All games fetched by [getStats], in fetch order. *)
Definition fetchedGames (net : Network) (now : Z) (username : string)
  (periodStart periodEnd : Z) (periodType : PeriodType) : list Game :=
  flat_map (contribution net username)
    (monthsToFetch now periodStart periodEnd periodType).

(** The game the end rating of a mode is read from, and the one the start
    rating is read from. *)
Definition endGame (periodStart periodEnd : Z) (allGames : list Game)
  (mode : Mode) : option Game :=
  pop (filter (isMode mode) (filter (inPeriod periodStart periodEnd) allGames)).

Definition startGame (periodStart periodEnd : Z) (allGames : list Game)
  (mode : Mode) : option Game :=
  match pop (filter (beforePeriod periodStart mode) (sortGames allGames)) with
  | Some lastBefore => Some lastBefore
  | None =>
      hd_error
        (filter (isMode mode) (filter (inPeriod periodStart periodEnd) allGames))
  end.

(** The result when nothing was fetched. *)
Definition noData : StatsResult :=
  mkStatsResult (mkPerMode 0%nat 0%nat 0%nat) (mkPerMode None None None)
    (mkPerMode None None None) [].

(** Days from the Monday of the week to the day of [now]. *)
Definition weekDiff (now : Z) : Z :=
  let day := getUTCDay now in if day =? 0 then 6 else day - 1.

Definition by_end_time (a b : Game) : Prop := end_time a <= end_time b.

Definition Player_eq_dec (p q : Player) : {p = q} + {p <> q}.
Proof. decide equality; [apply Z.eq_dec | apply string_dec]. Defined.

Definition Game_eq_dec (g h : Game) : {g = h} + {g <> h}.
Proof.
  decide equality;
    [apply Player_eq_dec | apply Player_eq_dec | apply string_dec | apply Z.eq_dec].
Defined.

End Notions.

(** ** A week across a month boundary

    The reference instant is Wednesday 2 October 2024, 10:00 UTC; the week
    started on Monday 30 September. The subject played one blitz game on
    each of 30 September and 1 October; each archive lists its month. *)

Module Scenario.
Import JSDate JSString Handler Stats.
Local Open Scope string_scope.

Definition now : Z := 1727863200000.
Definition weekStart : Z := periodStart weekly now.
Definition weekEnd : Z := periodEnd weekly now.

Definition gSep : Game :=
  mkGame 1727690400 "blitz" (mkPlayer "Alice" 1500) (mkPlayer "bob" 1480).

Definition gOct : Game :=
  mkGame 1727776800 "blitz" (mkPlayer "carol" 1490) (mkPlayer "alice" 1510).

Definition archive (gs : list Game) : option Response :=
  Some (mkResponse true 200 (Some (mkPayload (Some gs)))).

Definition notFound : option Response := Some (mkResponse false 404 None).

Definition net : Network := fun url =>
  if String.eqb url "https://api.chess.com/pub/player/alice/games/2024/09"
  then archive [gSep]
  else if String.eqb url "https://api.chess.com/pub/player/alice/games/2024/10"
  then archive [gOct]
  else if String.eqb url "https://api.chess.com/pub/player/alice/games/2024/08"
  then archive []
  else notFound.

(** A record in which neither side is the subject. *)
Definition gOther : Game :=
  mkGame 1727776800 "blitz" (mkPlayer "bob" 1700) (mkPlayer "carol" 1800).

Definition netOther : Network := fun url =>
  if String.eqb url "https://api.chess.com/pub/player/alice/games/2024/10"
  then archive [gOther]
  else notFound.

(** Every request fails. *)
Definition netDown : Network := fun _ => None.

End Scenario.

(** ** Answers of any shape

    [Payload] above is the well-formed part of what the archive API may
    answer. [getStats] checks no shape: it uses the value of [games] as it
    is, and reads the sides of a record where it takes a rating. This
    module embeds the same statements over answers that need not be well
    formed: a JSON body may be [null], its member [games] may be a truthy
    value that is not iterable (a number, [true], an object), and a record
    may lack [white] or [black]. [Lift.lift] embeds the well-formed answers, and
    on them the two embeddings agree ([RawFacts.getStatsRaw_lift]).

    Left out: a string for [games], array elements that are not records,
    records without [end_time] or [time_class], sides without a name or a
    rating. With these the comparator of [sort] returns NaN, and the
    resulting order is up to the engine. *)

Module Raw.
Import JSString Stats.

(** A game record; a side is [None] when the record lacks it or holds
    [null] there. *)
Record RawGame := mkRawGame {
  end_time : Z;
  time_class : string;
  white : option Player;
  black : option Player
}.

(** A truthy value of the member [games]: an array of records, or a value
    that is not iterable. *)
Inductive GamesValue :=
| Records (l : list RawGame)
| NotIterable.

(** A JSON body: [null], or a value whose member [games] is truthy
    ([Some]) or is falsy or missing ([None]). *)
Inductive JsonValue :=
| JsonNull
| JsonData (games : option GamesValue).

(** [body] is [None] when the body is not JSON. *)
Record RawResponse := mkRawResponse {
  ok : bool;
  status : Z;
  body : option JsonValue
}.

Definition RawNetwork : Type := string -> option RawResponse.

Definition fetchRaw (net : RawNetwork) (url : string) : M RawResponse :=
  fun tr =>
    match net url with
    | Some res => (Ret res, tr ++ [url])
    | None => (Throw FetchError, tr ++ [url])
    end.

Definition jsonRaw (res : RawResponse) : M JsonValue :=
  match body res with
  | Some data => ret data
  | None => throw SyntaxError
  end.

(** [data.games]: reading a member of [null] throws. *)
Definition gamesOf (data : JsonValue) : M (option GamesValue) :=
  match data with
  | JsonNull => throw TypeError
  | JsonData games => ret games
  end.

(** [fetchGamesForMonth]: what it returns is [data.games || []], an array
    or not. *)
Definition fetchGamesForMonthRaw (net : RawNetwork)
  (username year month : string) : M GamesValue :=
  let url := archiveUrl username year month in
  try_catch
    (res <- fetchRaw net url ;;
     if negb (ok res) then ret (Records [])
     else
       data <- jsonRaw res ;;
       games <- gamesOf data ;;
       ret (match games with Some v => v | None => Records [] end))
    (fun _ => ret (Records [])).

(** The loop over the month keys; [allGames.push(...games)] throws when
    [games] is not iterable, outside any [try]. *)
Fixpoint fetchLoopRaw (net : RawNetwork) (username : string)
  (months : list string) (allGames : list RawGame) : M (list RawGame) :=
  match months with
  | [] => ret allGames
  | monthStr :: rest =>
      let parts := split "-" monthStr in
      match nth_error parts 1 with
      | None => throw TypeError
      | Some month =>
          games <- fetchGamesForMonthRaw net username (nth 0 parts EmptyString)
                     month ;;
          match games with
          | Records l => fetchLoopRaw net username rest (allGames ++ l)
          | NotIterable => throw TypeError
          end
      end
  end.

(** The part of [getStats] after the fetch loop requests nothing; it
    returns or throws. *)
Definition after {A B} (o : outcome A) (k : A -> outcome B) : outcome B :=
  match o with
  | Ret a => k a
  | Throw e => Throw e
  end.

(** The conditional that picks the subject's side: reading the name of a
    missing white side throws, and so does reading the rating of a missing
    black side, which happens only when white is not the subject. *)
Definition ratingOfRaw (username : string) (g : RawGame) : outcome Z :=
  match white g with
  | None => Throw TypeError
  | Some w =>
      if String.eqb (toLowerCase (API.username w)) (toLowerCase username)
      then Ret (rating w)
      else match black g with
           | None => Throw TypeError
           | Some b => Ret (rating b)
           end
  end.

Fixpoint insertRaw (g : RawGame) (l : list RawGame) : list RawGame :=
  match l with
  | [] => [g]
  | h :: t => if end_time g <=? end_time h then g :: l else h :: insertRaw g t
  end.

Definition sortRaw (l : list RawGame) : list RawGame :=
  fold_right insertRaw [] l.

Definition inPeriodRaw (periodStart periodEnd : Z) (g : RawGame) : bool :=
  (periodStart <=? end_time g * 1000) && (end_time g * 1000 <=? periodEnd).

Definition isModeRaw (mode : Mode) (g : RawGame) : bool :=
  String.eqb (time_class g) (modeName mode).

Definition beforePeriodRaw (periodStart : Z) (mode : Mode) (g : RawGame)
  : bool :=
  isModeRaw mode g && (end_time g * 1000 <? periodStart).

Definition startLoopRaw (username : string) (periodStart : Z)
  (sorted : list RawGame) (startRatings : PerMode (option Z))
  : outcome (PerMode (option Z)) :=
  fold_left
    (fun st mode =>
       after st (fun startRatings =>
         match pop (filter (beforePeriodRaw periodStart mode) sorted) with
         | Some lastBefore =>
             after (ratingOfRaw username lastBefore) (fun v =>
               Ret (set mode (Some v) startRatings))
         | None => Ret startRatings
         end))
    modes (Ret startRatings).

Definition countLoopRaw (username : string) (gamesInPeriod : list RawGame)
  (st : PerMode nat * PerMode (option Z) * PerMode (option Z))
  : outcome (PerMode nat * PerMode (option Z) * PerMode (option Z)) :=
  fold_left
    (fun st mode =>
       after st (fun st =>
         let '(stats, startRatings, endRatings) := st in
         let modeGames := filter (isModeRaw mode) gamesInPeriod in
         let stats := set mode (List.length modeGames) stats in
         after
           (match List.length modeGames with
            | O => Ret endRatings
            | S n =>
                match nth_error modeGames n with
                | Some last =>
                    after (ratingOfRaw username last) (fun v =>
                      Ret (set mode (Some v) endRatings))
                | None => Ret endRatings
                end
            end)
           (fun endRatings =>
              after
                (match get mode startRatings with
                 | None =>
                     match nth_error modeGames 0 with
                     | Some firstInPeriod =>
                         after (ratingOfRaw username firstInPeriod) (fun v =>
                           Ret (set mode (Some v) startRatings))
                     | None => Ret startRatings
                     end
                 | Some _ => Ret startRatings
                 end)
                (fun startRatings => Ret (stats, startRatings, endRatings)))))
    modes (Ret st).

Record RawStats := mkRawStats {
  stats : PerMode nat;
  startRatings : PerMode (option Z);
  endRatings : PerMode (option Z);
  gamesInPeriod : list RawGame
}.

Definition aggregateRaw (username : string) (periodStart periodEnd : Z)
  (allGames : list RawGame) : outcome RawStats :=
  let gamesInPeriod := filter (inPeriodRaw periodStart periodEnd) allGames in
  let stats := mkPerMode 0%nat 0%nat 0%nat in
  let startRatings := mkPerMode None None None in
  let endRatings := mkPerMode None None None in
  let sorted := sortRaw allGames in
  after (startLoopRaw username periodStart sorted startRatings)
    (fun startRatings =>
       after (countLoopRaw username gamesInPeriod
                (stats, startRatings, endRatings))
         (fun st =>
            let '(stats, startRatings, endRatings) := st in
            Ret (mkRawStats stats startRatings endRatings gamesInPeriod))).

Definition getStatsRaw (net : RawNetwork) (now : Z) (username : string)
  (periodStart periodEnd : Z) (periodType : PeriodType) : M RawStats :=
  let months := monthsToFetch now periodStart periodEnd periodType in
  allGames <- fetchLoopRaw net username months [] ;;
  fun tr => (aggregateRaw username periodStart periodEnd allGames, tr).

End Raw.

(** *** Well-formed answers among all answers *)

Module Lift.
Import Stats.

Definition embed (g : Game) : Raw.RawGame :=
  Raw.mkRawGame (end_time g) (time_class g) (Some (white g)) (Some (black g)).

Definition liftResponse (res : Response) : Raw.RawResponse :=
  Raw.mkRawResponse (ok res) (status res)
    (match body res with
     | Some data =>
         Some (Raw.JsonData (match games data with
                             | Some gs => Some (Raw.Records (map embed gs))
                             | None => None
                             end))
     | None => None
     end).

Definition lift (net : Network) : Raw.RawNetwork :=
  fun url => option_map liftResponse (net url).

Definition embedResult (r : StatsResult) : Raw.RawStats :=
  Raw.mkRawStats (stats r) (startRatings r) (endRatings r)
    (map embed (gamesInPeriod r)).

End Lift.

(** ** Notions used to state properties of answers of any shape *)

Module RawNotions.
Import JSString Stats Notions Raw.

(** A request fails: network error, non-success status, a body that is not
    JSON, or the JSON body [null]. *)
Definition failedRaw (answer : option RawResponse) : bool :=
  match answer with
  | Some res =>
      negb (Raw.ok res)
      || match Raw.body res with
         | Some (JsonData _) => false
         | _ => true
         end
  | None => true
  end.

(** A record with both sides. *)
Definition complete (g : RawGame) : bool :=
  match Raw.white g, Raw.black g with
  | Some _, Some _ => true
  | _, _ => false
  end.

(** The answer is a success whose body has no [games], or an array of
    complete records. *)
Definition wellFormed (answer : option RawResponse) : bool :=
  match answer with
  | Some res =>
      Raw.ok res
      && match Raw.body res with
         | Some (JsonData None) => true
         | Some (JsonData (Some (Records l))) => forallb complete l
         | _ => false
         end
  | None => false
  end.

(** What [fetchGamesForMonth] returns for an answer, and the records that
    the answer contributes. *)
Definition valueOf (answer : option RawResponse) : GamesValue :=
  match answer with
  | Some res =>
      if Raw.ok res then
        match Raw.body res with
        | Some (JsonData (Some v)) => v
        | _ => Records []
        end
      else Records []
  | None => Records []
  end.

Definition iterable (answer : option RawResponse) : bool :=
  match valueOf answer with
  | Records _ => true
  | NotIterable => false
  end.

Definition recordsOf (answer : option RawResponse) : list RawGame :=
  match valueOf answer with
  | Records l => l
  | NotIterable => []
  end.

(** The answer is a failure or a well-formed archive. *)
Definition shaped (answer : option RawResponse) : bool :=
  failedRaw answer || wellFormed answer.

Definition contributionRaw (net : RawNetwork) (username monthStr : string)
  : list RawGame :=
  recordsOf (net (requestOf username monthStr)).

(** The result when nothing was fetched. *)
Definition noDataRaw : RawStats :=
  mkRawStats (mkPerMode 0%nat 0%nat 0%nat) (mkPerMode None None None)
    (mkPerMode None None None) [].

End RawNotions.

(** Answers that are not well formed.

    [notIterable] answers every request with the JSON body [{"games": 5}].
    [mixed] fails for October 2024 (network error) and for August 2024
    (status 404) and serves the archive of September. [lacking] serves for
    October a blitz record without its white side. *)

Module RawScenario.
Import Raw Lift.
Local Open Scope string_scope.

Definition notIterable : RawNetwork := fun _ =>
  Some (mkRawResponse true 200 (Some (JsonData (Some NotIterable)))).

Definition mixed : RawNetwork := fun url =>
  if String.eqb url "https://api.chess.com/pub/player/alice/games/2024/09"
  then Some (mkRawResponse true 200
               (Some (JsonData (Some (Records [embed Scenario.gSep])))))
  else if String.eqb url "https://api.chess.com/pub/player/alice/games/2024/08"
  then Some (mkRawResponse false 404 None)
  else None.



End RawScenario.

(** Two blitz games on the reference day, listed by the archive of
    October in the order of their end times; September has no archive. *)

Module ChronoScenario.
Import Handler.
Local Open Scope string_scope.

Definition dayStart : Z := periodStart daily Scenario.now.
Definition dayEnd : Z := periodEnd daily Scenario.now.

Definition gMorning : Game :=
  mkGame 1727830000 "blitz" (mkPlayer "alice" 1510) (mkPlayer "dave" 1500).

Definition gLater : Game :=
  mkGame 1727860000 "blitz" (mkPlayer "erin" 1495) (mkPlayer "Alice" 1518).

Definition netChrono : Network := fun url =>
  if String.eqb url "https://api.chess.com/pub/player/alice/games/2024/10"
  then Scenario.archive [gMorning; gLater]
  else Scenario.notFound.

End ChronoScenario.

(** ** Further notions used to state properties *)

Module MoreNotions.
Import JSDate JSString Stats Notions.

Fixpoint noSlash (s : string) : bool :=
  match s with
  | EmptyString => true
  | String a s' => negb (Ascii.eqb a "/") && noSlash s'
  end.

(** [s] is the key of a bucket of a year from 0 on. *)
Definition isPlainKey (s : string) : Prop :=
  exists y m, 0 <= y /\ 1 <= m <= 12 /\ s = monthKey y m.

(** The time class of a game is one of the three modes. *)
Definition isListed (g : Game) : bool :=
  isMode rapid g || isMode blitz g || isMode bullet g.

(** The key of the month in which a game ends, and the games of a list
    that the archive of a month holds. *)
Definition keyOf (g : Game) : string :=
  monthKey (getUTCFullYear (end_time g * 1000))
    (getUTCMonth (end_time g * 1000) + 1).

Definition archived (played : list Game) (key : string) : list Game :=
  filter (fun g => String.eqb (keyOf g) key) played.

End MoreNotions.

(** ** [getLastGame]: the most recent game and its cleaned PGN *)

Module Pgn.
Local Open Scope string_scope.

(** Characters, in the ASCII range: line terminators (not matched by
    [.]), decimal digits ([\d]) and white space ([\s], also what [trim]
    removes). *)
Definition isLineTerminator (c : ascii) : bool :=
  Ascii.eqb c "010" || Ascii.eqb c "013".

Definition isDigit (c : ascii) : bool :=
  let n := nat_of_ascii c in (48 <=? n)%nat && (n <=? 57)%nat.

Definition isSpace (c : ascii) : bool :=
  let n := nat_of_ascii c in ((9 <=? n)%nat && (n <=? 13)%nat) || (n =? 32)%nat.

(** [s.replace(re, '')] for a global regular expression whose matches are
    never empty: [matchAt s] is the length of the match that starts at the
    head of [s], if there is one; the scan resumes after each match. *)
Fixpoint removeMatches (matchAt : string -> option nat) (skip : nat) (s : string)
  : string :=
  match s with
  | EmptyString => EmptyString
  | String c r =>
      match skip with
      | S k => removeMatches matchAt k r
      | O =>
          match matchAt s with
          | Some (S k) => removeMatches matchAt k r
          | _ => String c (removeMatches matchAt 0 r)
          end
      end
  end.

(** The rest of a match of [\[.*?\]\n] after its opening bracket: the
    lazy [.*?] stops at the first closing bracket that a newline follows,
    and crosses no line terminator. *)
Fixpoint headerRest (s : string) : option nat :=
  match s with
  | EmptyString => None
  | String c r =>
      match r with
      | String n _ =>
          if Ascii.eqb c "]" && Ascii.eqb n "010" then Some 2%nat
          else if isLineTerminator c then None
          else option_map S (headerRest r)
      | EmptyString => None
      end
  end.

Definition headerAt (s : string) : option nat :=
  match s with
  | String c r => if Ascii.eqb c "[" then option_map S (headerRest r) else None
  | EmptyString => None
  end.

(** The rest of a match of [\{.*?\}] after its opening brace. *)
Fixpoint commentRest (s : string) : option nat :=
  match s with
  | EmptyString => None
  | String c r =>
      if Ascii.eqb c "}" then Some 1%nat
      else if isLineTerminator c then None
      else option_map S (commentRest r)
  end.

Definition commentAt (s : string) : option nat :=
  match s with
  | String c r => if Ascii.eqb c "{" then option_map S (commentRest r) else None
  | EmptyString => None
  end.

Definition startsWithDots (s : string) : bool :=
  match s with
  | String a (String b (String c _)) =>
      Ascii.eqb a "." && Ascii.eqb b "." && Ascii.eqb c "."
  | _ => false
  end.

(** A match of [\d+\.\.\.]: the whole run of digits, then three dots. *)
Fixpoint markerAt (s : string) : option nat :=
  match s with
  | EmptyString => None
  | String c r =>
      if isDigit c then
        match markerAt r with
        | Some n => Some (S n)
        | None => if startsWithDots r then Some 4%nat else None
        end
      else None
  end.

(** [s.replace(/\s+/g, ' ')]. *)
Fixpoint collapseSpaces (inRun : bool) (s : string) : string :=
  match s with
  | EmptyString => EmptyString
  | String c r =>
      if isSpace c then
        if inRun then collapseSpaces true r
        else String " " (collapseSpaces true r)
      else String c (collapseSpaces false r)
  end.

Fixpoint trimStart (s : string) : string :=
  match s with
  | EmptyString => EmptyString
  | String c r => if isSpace c then trimStart r else s
  end.

Fixpoint trimEnd (s : string) : string :=
  match s with
  | EmptyString => EmptyString
  | String c r =>
      match trimEnd r with
      | EmptyString => if isSpace c then EmptyString else String c EmptyString
      | r' => String c r'
      end
  end.

Definition trim (s : string) : string := trimEnd (trimStart s).

(** The four replacements and the trim of [getLastGame]. *)
Definition cleanPgn (pgn : string) : string :=
  let pgn := removeMatches headerAt 0 pgn in
  let pgn := removeMatches commentAt 0 pgn in
  let pgn := removeMatches markerAt 0 pgn in
  trim (collapseSpaces false pgn).

(** White space occurs only as single spaces between other characters;
    [afterSpace] tells that the text so far is empty or ends in a
    space. *)
Fixpoint singleSpaced (afterSpace : bool) (s : string) : bool :=
  match s with
  | EmptyString => true
  | String c r =>
      if isSpace c then
        Ascii.eqb c " " && negb afterSpace
        && match r with EmptyString => false | _ => true end
        && singleSpaced true r
      else singleSpaced false r
  end.

Fixpoint noLineTerminator (s : string) : bool :=
  match s with
  | EmptyString => true
  | String c r => negb (isLineTerminator c) && noLineTerminator r
  end.

End Pgn.

Module Recent.
Import JSString Stats.
Local Open Scope string_scope.

Record Contestant := mkContestant { username : string; result : string }.

(** [pgn] is [None] when the record has none. *)
Record Played := mkPlayed {
  white : Contestant;
  black : Contestant;
  pgn : option string
}.

(** A JSON body of the archive API: the list of archive URLs of a player
    ([archives]) or the games of a month ([games]); either may be
    absent. *)
Record ArchiveBody := mkArchiveBody {
  archives : option (list string);
  games : option (list Played)
}.

Record Answer := mkAnswer {
  ok : bool;
  status : Z;
  body : option ArchiveBody
}.

Definition Web : Type := string -> option Answer.

Definition fetchFrom (net : Web) (url : string) : M Answer :=
  fun tr =>
    match net url with
    | Some res => (Ret res, (tr ++ [url])%list)
    | None => (Throw FetchError, (tr ++ [url])%list)
    end.

Definition jsonOf (res : Answer) : M ArchiveBody :=
  match body res with
  | Some data => ret data
  | None => throw SyntaxError
  end.

Record LastGame := mkLastGame { color : string; outcome : string; text : string }.

Definition archivesUrl (username : string) : string :=
  "https://api.chess.com/pub/player/" ++ username ++ "/games/archives".

(** The value returned for the last game of the latest archive. *)
Definition describe (username : string) (lastGame : Played) : LastGame :=
  let isWhite :=
    String.eqb (toLowerCase (Recent.username (white lastGame)))
               (toLowerCase username) in
  let color := if isWhite then "white" else "black" in
  let result := "draw" in
  let result :=
    if (isWhite && String.eqb (Recent.result (white lastGame)) "win")
       || (negb isWhite && String.eqb (Recent.result (black lastGame)) "win")
    then "won" else result in
  let result :=
    if (isWhite && String.eqb (Recent.result (white lastGame)) "lose")
       || (negb isWhite && String.eqb (Recent.result (black lastGame)) "lose")
    then "lost" else result in
  let pgn := match pgn lastGame with Some p => p | None => EmptyString end in
  mkLastGame color result (Pgn.cleanPgn pgn).

Definition getLastGame (net : Web) (username : string)
  : M (option LastGame) :=
  try_catch
    (res <- fetchFrom net (archivesUrl username) ;;
     if negb (ok res) then ret None
     else
       data <- jsonOf res ;;
       match archives data with
       | None => ret None
       | Some archives =>
           match pop archives with
           | None => ret None
           | Some latestArchiveUrl =>
               archiveRes <- fetchFrom net latestArchiveUrl ;;
               if negb (ok archiveRes) then ret None
               else
                 archiveData <- jsonOf archiveRes ;;
                 match games archiveData with
                 | None => ret None
                 | Some games =>
                     match pop games with
                     | None => ret None
                     | Some lastGame => ret (Some (describe username lastGame))
                     end
                 end
           end
       end)
    (fun _ => ret None).

End Recent.

(** ** The chat layer: [handleStats], [handleRecent], the command table and
    the message listener

    The state holds the two lists kept in memory, the contents last
    written to [channels.json] and [banned.json] (as the lists they
    encode), what the bot did on the chat client, and the URLs requested.
    Calls of the chat client succeed, and one message is handled at a
    time. *)

Module Chat.
Import JSDate JSString Stats.
Local Open Scope string_scope.

Inductive ChatAction :=
| Say (channel text : string)
| Join (channel : string)
| Part (channel : string).

Record BotState := mkBotState {
  joinedChannels : list string;
  bannedUsers : list string;
  channelsFile : list string;
  bannedFile : list string;
  chat : list ChatAction;
  requests : list string
}.

(** What a handler reads from its surroundings: the account of the bot
    ([process.env.TWITCH_USERNAME]), the archive API, whose answers may
    have any of the shapes of [Raw], and the clock as read by
    [handleStats] and then by [getStats]. *)
Record Env := mkEnv {
  botUsername : string;
  net : Raw.RawNetwork;
  recentNet : Recent.Web;
  handlerNow : Z;
  statsNow : Z
}.

Definition Bot (A : Type) : Type := BotState -> outcome A * BotState.

Definition pure {A} (a : A) : Bot A := fun st => (Ret a, st).

Definition raise {A} (e : exn) : Bot A := fun st => (Throw e, st).

Definition andThen {A B} (m : Bot A) (k : A -> Bot B) : Bot B :=
  fun st =>
    match m st with
    | (Ret a, st') => k a st'
    | (Throw e, st') => (Throw e, st')
    end.

Definition catch {A} (m : Bot A) (handler : exn -> Bot A) : Bot A :=
  fun st =>
    match m st with
    | (Ret a, st') => (Ret a, st')
    | (Throw e, st') => handler e st'
    end.

Notation "x <~ m ;; k" := (andThen m (fun x => k))
  (at level 61, m at next level, right associativity).
Notation "m ;;; k" := (andThen m (fun _ => k))
  (at level 61, right associativity).

(** A computation that only requests URLs, run on the request list. *)
Definition request {A} (m : M A) : Bot A :=
  fun st =>
    let (o, tr) := m (requests st) in
    (o, mkBotState (joinedChannels st) (bannedUsers st) (channelsFile st)
          (bannedFile st) (chat st) tr).

Definition act (a : ChatAction) : Bot unit :=
  fun st =>
    (Ret tt, mkBotState (joinedChannels st) (bannedUsers st) (channelsFile st)
               (bannedFile st) (chat st ++ [a])%list (requests st)).

Definition say (channel text : string) : Bot unit := act (Say channel text).

Definition setJoinedChannels (l : list string) : Bot unit :=
  fun st =>
    (Ret tt, mkBotState l (bannedUsers st) (channelsFile st) (bannedFile st)
               (chat st) (requests st)).

Definition setBannedUsers (l : list string) : Bot unit :=
  fun st =>
    (Ret tt, mkBotState (joinedChannels st) l (channelsFile st) (bannedFile st)
               (chat st) (requests st)).

Definition saveChannels : Bot unit :=
  fun st =>
    (Ret tt, mkBotState (joinedChannels st) (bannedUsers st) (joinedChannels st)
               (bannedFile st) (chat st) (requests st)).

Definition saveBanned : Bot unit :=
  fun st =>
    (Ret tt, mkBotState (joinedChannels st) (bannedUsers st) (channelsFile st)
               (bannedUsers st) (chat st) (requests st)).

Definition getJoinedChannels : Bot (list string) :=
  fun st => (Ret (joinedChannels st), st).

Definition getBannedUsers : Bot (list string) :=
  fun st => (Ret (bannedUsers st), st).

(** The state after the start of the program: each list is read from its
    file, or is empty and its file created, when there is none. *)
Definition startState (channelsOnDisk bannedOnDisk : option (list string))
  : BotState :=
  let channels := match channelsOnDisk with Some l => l | None => [] end in
  let banned := match bannedOnDisk with Some l => l | None => [] end in
  mkBotState channels banned channels banned [] [].

(** *** Formatting of the statistics line *)

Definition periodTypeName (periodType : PeriodType) : string :=
  match periodType with
  | daily => "daily"
  | weekly => "weekly"
  | monthly => "monthly"
  | yearly => "yearly"
  end.

Definition countString (n : nat) : string := numToString (Z.of_nat n).

Definition totalGamesStr (totalGames : nat) : string :=
  if (totalGames =? 1)%nat then "1 game" else countString totalGames ++ " games".

Definition modeStr (count : nat) (one many : string) : string :=
  countString count ++ " " ++ (if (count =? 1)%nat then one else many).

Definition ratingStr (count : nat) (startRating endRating : option Z) : string :=
  match startRating, endRating with
  | Some s, Some e =>
      if (0 <? count)%nat then
        ", rating: " ++ (if (0 <=? e - s)%Z then "+" else EmptyString)
        ++ numToString (e - s) ++ " (" ++ numToString s ++ " -> "
        ++ numToString e ++ ")"
      else EmptyString
  | _, _ => EmptyString
  end.

Definition periodName (periodType : PeriodType) : string :=
  match periodType with
  | yearly => "this year"
  | monthly => "this month"
  | weekly => "this week"
  | daily => "today"
  end.

Definition statsMessage (username : string) (r : Raw.RawStats)
  (periodType : PeriodType) : string :=
  let stats := Raw.stats r in
  let startRatings := Raw.startRatings r in
  let endRatings := Raw.endRatings r in
  let rating mode :=
    ratingStr (get mode stats) (get mode startRatings) (get mode endRatings) in
  username ++ " has played "
  ++ totalGamesStr (List.length (Raw.gamesInPeriod r))
  ++ " " ++ periodName periodType ++ ". "
  ++ modeStr (get rapid stats) "Rapid game" "Rapid games" ++ rating rapid
  ++ ", "
  ++ modeStr (get blitz stats) "Blitz game" "Blitz games" ++ rating blitz
  ++ ", "
  ++ modeStr (get bullet stats) "Bullet game" "Bullet games"
  ++ rating bullet.

(** [args[0]?.toLowerCase()]: [None] for [undefined]. *)
Definition firstLower (args : list string) : option string :=
  match args with
  | [] => None
  | a :: _ => Some (toLowerCase a)
  end.

(** The same value when it is truthy: a non-empty string. *)
Definition truthy (s : option string) : option string :=
  match s with
  | Some EmptyString => None
  | _ => s
  end.

Definition handleStats (env : Env) (channel : string) (args : list string)
  (periodType : PeriodType) : Bot unit :=
  match truthy (firstLower args) with
  | None =>
      say channel
        ("Please provide a username. Example: !" ++ periodTypeName periodType
         ++ " hikaru")
  | Some username =>
      let now := handlerNow env in
      let periodStart := Handler.periodStart periodType now in
      let periodEnd := Handler.periodEnd periodType now in
      catch
        (r <~ request (Raw.getStatsRaw (net env) (statsNow env) username
                         periodStart periodEnd periodType) ;;
         say channel (statsMessage username r periodType))
        (fun _ => say channel ("Error fetching stats for " ++ username))
  end.

Definition handleRecent (env : Env) (channel : string) (args : list string)
  : Bot unit :=
  match truthy (firstLower args) with
  | None => say channel "Please provide a username. Example: !recent hikaru"
  | Some username =>
      catch
        (lastGame <~ request (Recent.getLastGame (recentNet env) username) ;;
         match lastGame with
         | None => say channel ("No recent games found for " ++ username ++ ".")
         | Some lastGame =>
             say channel
               (username ++ " has played as " ++ Recent.color lastGame
                ++ " and " ++ Recent.outcome lastGame ++ " most recent game:"
                ++ String "010" (Recent.text lastGame))
         end)
        (fun _ =>
           say channel ("Error fetching last game for " ++ username ++ "."))
  end.

(** *** The command table *)

Inductive Command :=
| c_daily | c_weekly | c_monthly | c_yearly | c_recent
| c_ban | c_commands | c_unban | c_join | c_removeburger.

(** [a.includes(x)] and the removal [a.splice(a.indexOf(x), 1)]. *)
Definition includes (x : string) (a : list string) : bool :=
  existsb (String.eqb x) a.

Fixpoint removeFirst (x : string) (a : list string) : list string :=
  match a with
  | [] => []
  | h :: t => if String.eqb h x then t else h :: removeFirst x t
  end.

(** [s.replace('#', '')]: without its first [#]. *)
Fixpoint dropFirstHash (s : string) : string :=
  match s with
  | EmptyString => EmptyString
  | String c r => if Ascii.eqb c "#" then r else String c (dropFirstHash r)
  end.

Definition helpText : string :=
  "Type !join on bot's channel to invite it to your chat. "
  ++ "Type !removeburger in your chat to remove bot from your channel. "
  ++ "Use commands !daily !weekly !monthly !yearly for your recent game statistics and elo gains. "
  ++ "Type !recent to get your last game's PGN.".

Definition isOwner (env : Env) (tagsUsername : string) : bool :=
  String.eqb (toLowerCase tagsUsername) (toLowerCase (botUsername env)).

Definition ban (env : Env) (ch tagsUsername : string) (args : list string)
  : Bot unit :=
  if negb (isOwner env tagsUsername) then pure tt
  else
    match truthy (firstLower args) with
    | None => pure tt
    | Some userToBan =>
        bannedUsers <~ getBannedUsers ;;
        if includes userToBan bannedUsers then pure tt
        else
          setBannedUsers (bannedUsers ++ [userToBan])%list ;;;
          saveBanned ;;;
          say ch (userToBan ++ " has been banned.")
    end.

Definition unban (env : Env) (ch tagsUsername : string) (args : list string)
  : Bot unit :=
  if negb (isOwner env tagsUsername) then pure tt
  else
    match firstLower args with
    | None => pure tt
    | Some userToUnban =>
        bannedUsers <~ getBannedUsers ;;
        if includes userToUnban bannedUsers then
          setBannedUsers (removeFirst userToUnban bannedUsers) ;;;
          saveBanned ;;;
          say ch (userToUnban ++ " has been unbanned.")
        else pure tt
    end.

Definition join (channel tagsUsername : string) (args : list string)
  : Bot unit :=
  let targetChannel :=
    match truthy (firstLower args) with
    | Some a => a
    | None => toLowerCase tagsUsername
    end in
  if negb (String.eqb (toLowerCase tagsUsername) targetChannel) then
    say channel "You can only make the bot join your own channel."
  else
    joinedChannels <~ getJoinedChannels ;;
    if negb (existsb (fun c => String.eqb (toLowerCase c) targetChannel)
               joinedChannels)
    then
      setJoinedChannels (joinedChannels ++ [targetChannel])%list ;;;
      saveChannels ;;;
      act (Join ("#" ++ targetChannel)) ;;;
      say channel ("Bot has joined " ++ targetChannel ++ "'s channel.")
    else say channel ("Bot is already in " ++ targetChannel ++ "'s channel.").

Definition removeburger (channel tagsUsername : string) : Bot unit :=
  let chOwner := toLowerCase (dropFirstHash channel) in
  if negb (String.eqb (toLowerCase tagsUsername) chOwner) then pure tt
  else
    joinedChannels <~ getJoinedChannels ;;
    if includes chOwner joinedChannels then
      setJoinedChannels (removeFirst chOwner joinedChannels) ;;;
      saveChannels ;;;
      say channel "Bot is leaving the channel. Goodbye!" ;;;
      act (Part ("#" ++ chOwner))
    else say channel "Bot is not in this channel.".

Definition runCommand (env : Env) (c : Command) (channel tagsUsername : string)
  (args : list string) : Bot unit :=
  match c with
  | c_daily => handleStats env channel args daily
  | c_weekly => handleStats env channel args weekly
  | c_monthly => handleStats env channel args monthly
  | c_yearly => handleStats env channel args yearly
  | c_recent => handleRecent env channel args
  | c_ban => ban env channel tagsUsername args
  | c_commands => say channel helpText
  | c_unban => unban env channel tagsUsername args
  | c_join => join channel tagsUsername args
  | c_removeburger => removeburger channel tagsUsername
  end.

(** What [commands[commandName]] evaluates to: a command of the table, or,
    for the two lower-case property names that the table inherits from
    [Object.prototype], the function [Object] and the prototype object
    itself; otherwise [undefined]. *)
Inductive Lookup :=
| Own (c : Command)
| ObjectFunction
| PrototypeObject
| Undefined.

Definition lookup (commandName : string) : Lookup :=
  if String.eqb commandName "daily" then Own c_daily
  else if String.eqb commandName "weekly" then Own c_weekly
  else if String.eqb commandName "monthly" then Own c_monthly
  else if String.eqb commandName "yearly" then Own c_yearly
  else if String.eqb commandName "recent" then Own c_recent
  else if String.eqb commandName "ban" then Own c_ban
  else if String.eqb commandName "commands" then Own c_commands
  else if String.eqb commandName "unban" then Own c_unban
  else if String.eqb commandName "join" then Own c_join
  else if String.eqb commandName "removeburger" then Own c_removeburger
  else if String.eqb commandName "constructor" then ObjectFunction
  else if String.eqb commandName "__proto__" then PrototypeObject
  else Undefined.

(** *** The message listener *)

(** [s.split(/\s+/)]. *)
Fixpoint splitSpaces (inRun : bool) (s : string) : list string :=
  match s with
  | EmptyString => [EmptyString]
  | String c r =>
      if Pgn.isSpace c then
        if inRun then splitSpaces true r
        else EmptyString :: splitSpaces true r
      else
        match splitSpaces false r with
        | h :: t => String c h :: t
        | [] => [String c EmptyString]
        end
  end.

(** [s.replace(/^!/, '')]. *)
Definition dropBang (s : string) : string :=
  match s with
  | String c r => if Ascii.eqb c "!" then r else s
  | EmptyString => EmptyString
  end.

Definition commandNameOf (message : string) : string :=
  toLowerCase (dropBang (hd EmptyString (splitSpaces false (Pgn.trim message)))).

Definition argsOf (message : string) : list string :=
  tl (splitSpaces false (Pgn.trim message)).

Definition onMessage (env : Env) (channel tagsUsername message : string)
  (self : bool) : Bot unit :=
  fun st =>
    if self then (Ret tt, st)
    else if includes (toLowerCase tagsUsername) (bannedUsers st) then (Ret tt, st)
    else
      let commandName := commandNameOf message in
      let args := argsOf message in
      let failed :=
        fun _ : exn => say channel ("Error executing !" ++ commandName) in
      match lookup commandName with
      | Own c => catch (runCommand env c channel tagsUsername args) failed st
      | ObjectFunction => (Ret tt, st)
      | PrototypeObject => catch (raise TypeError) failed st
      | Undefined => (Ret tt, st)
      end.

(** The state after a sequence of messages, each with its surroundings. *)
Record Incoming := mkIncoming {
  env : Env;
  channel : string;
  sender : string;
  message : string;
  self : bool
}.

Definition deliver (st : BotState) (m : Incoming) : BotState :=
  snd (onMessage (env m) (channel m) (sender m) (message m) (self m) st).

Definition deliverAll (st : BotState) (ms : list Incoming) : BotState :=
  fold_left deliver ms st.

(** Both files hold what is in memory. *)
Definition saved (st : BotState) : Prop :=
  channelsFile st = joinedChannels st /\ bannedFile st = bannedUsers st.

End Chat.

(** ** Notions used to state properties of the chat layer *)

Module ChatNotions.
Import JSString Chat.
Local Open Scope string_scope.

(** The two lists and the two files are the same in both states. *)
Definition sameLists (st st' : BotState) : Prop :=
  joinedChannels st' = joinedChannels st
  /\ bannedUsers st' = bannedUsers st
  /\ channelsFile st' = channelsFile st
  /\ bannedFile st' = bannedFile st.

(** What a message changes in the lists, by the five ways there are. *)
Inductive Change (env : Env) (sender : string) (st st' : BotState) : Prop :=
| unchanged : sameLists st st' -> Change env sender st st'
| banned (x : string) :
    isOwner env sender = true ->
    includes (toLowerCase sender) (bannedUsers st) = false ->
    x <> EmptyString ->
    includes x (bannedUsers st) = false ->
    bannedUsers st' = (bannedUsers st ++ [x])%list ->
    bannedFile st' = bannedUsers st' ->
    joinedChannels st' = joinedChannels st ->
    channelsFile st' = channelsFile st ->
    Change env sender st st'
| unbanned (x : string) :
    isOwner env sender = true ->
    includes (toLowerCase sender) (bannedUsers st) = false ->
    includes x (bannedUsers st) = true ->
    bannedUsers st' = removeFirst x (bannedUsers st) ->
    bannedFile st' = bannedUsers st' ->
    joinedChannels st' = joinedChannels st ->
    channelsFile st' = channelsFile st ->
    Change env sender st st'
| joined :
    existsb (fun c => String.eqb (toLowerCase c) (toLowerCase sender))
      (joinedChannels st) = false ->
    joinedChannels st' = (joinedChannels st ++ [toLowerCase sender])%list ->
    channelsFile st' = joinedChannels st' ->
    bannedUsers st' = bannedUsers st ->
    bannedFile st' = bannedFile st ->
    Change env sender st st'
| removed :
    includes (toLowerCase sender) (joinedChannels st) = true ->
    joinedChannels st' = removeFirst (toLowerCase sender) (joinedChannels st) ->
    channelsFile st' = joinedChannels st' ->
    bannedUsers st' = bannedUsers st ->
    bannedFile st' = bannedFile st ->
    Change env sender st st'.

(** A word of a message: not empty, and without white space. *)
Fixpoint noSpace (s : string) : bool :=
  match s with
  | EmptyString => true
  | String c r => negb (Pgn.isSpace c) && noSpace r
  end.

Definition isWord (s : string) : Prop := s <> EmptyString /\ noSpace s = true.

(** No channel is listed twice, whatever the case of its letters, and no
    user is banned twice. *)
Definition distinct (st : BotState) : Prop :=
  NoDup (map toLowerCase (joinedChannels st)) /\ NoDup (bannedUsers st).

(** What the bot may do on the chat client for a message of [sender] in
    [channel]. *)
Definition allowed (channel sender : string) (a : ChatAction) : Prop :=
  match a with
  | Say c _ => c = channel
  | Join c => c = "#" ++ toLowerCase sender
  | Part c => c = "#" ++ toLowerCase sender
  end.

(** From [st] to [st'] the bot did at most two things on the chat client,
    all of them allowed. *)
Definition Spoken (channel sender : string) (st st' : BotState) : Prop :=
  exists new,
    chat st' = (chat st ++ new)%list
    /\ Forall (allowed channel sender) new
    /\ (List.length new <= 2)%nat.

End ChatNotions.

Module ChatScenario.
Import Chat.
Local Open Scope string_scope.

(** The bot runs as [ChessburgerBot]; the archive API answers as in
    [Scenario], and nothing is on disk at the start. *)
Definition bot : Env :=
  mkEnv "ChessburgerBot" (Lift.lift Scenario.net) (fun _ => None) Scenario.now
    Scenario.now.

Definition start : BotState := startState None None.

(** The owner has banned the account of the bot itself. *)
Definition lockedOut : BotState :=
  snd (onMessage bot "#chessburgerbot" "ChessburgerBot" "!ban chessburgerbot"
         false start).

End ChatScenario.

(** ** Notions used to state properties of [getLastGame] *)

Module RecentNotions.
Import JSString Stats Recent.
Local Open Scope string_scope.

(** The last element of a list in the body of an answer, when the request
    succeeds and the list is there and not empty. *)
Definition lastOf {A} (field : ArchiveBody -> option (list A))
  (answer : option Answer) : option A :=
  match answer with
  | Some res =>
      if ok res then
        match body res with
        | Some data =>
            match field data with
            | Some l => pop l
            | None => None
            end
        | None => None
        end
      else None
  | None => None
  end.

Definition latestArchive (net : Web) (username : string) : option string :=
  lastOf archives (net (archivesUrl username)).

Definition latestGame (net : Web) (username : string) : option Played :=
  match latestArchive net username with
  | Some url => lastOf games (net url)
  | None => None
  end.

(** The side of [username] in a game: white when the name of the white
    player is [username] up to the case of its letters, black otherwise. *)
Definition playsWhite (username : string) (g : Played) : bool :=
  String.eqb (toLowerCase (Recent.username (white g))) (toLowerCase username).

Definition sideOf (username : string) (g : Played) : Contestant :=
  if playsWhite username g then white g else black g.

(** White space occurs only as single spaces, with none at the start when
    [afterSpace] is set; the end is free. *)
Fixpoint spaced (afterSpace : bool) (s : string) : bool :=
  match s with
  | EmptyString => true
  | String c r =>
      if Pgn.isSpace c then
        Ascii.eqb c " " && negb afterSpace && spaced true r
      else spaced false r
  end.

(** A player whose latest archive ends in a game that black lost on
    time. *)
Definition lastPlayed : Played :=
  mkPlayed (mkContestant "Alice" "win") (mkContestant "Bob" "timeout")
    (Some ("[Event " ++ String "034" ("Live Chess" ++ String "034" ("]" ++ String "010"
       (String "010" ("1. e4 {[%clk 0:02:59]} 1... e5 {[%clk 0:02:58]} 2. Nf3 1-0"
          ++ String "010" EmptyString)))))).

Definition bobsArchives : Web := fun url =>
  if String.eqb url (archivesUrl "bob") then
    Some (mkAnswer true 200
            (Some (mkArchiveBody
                     (Some ["https://api.chess.com/pub/player/bob/games/2024/09";
                            "https://api.chess.com/pub/player/bob/games/2024/10"])
                     None)))
  else if String.eqb url "https://api.chess.com/pub/player/bob/games/2024/10" then
    Some (mkAnswer true 200 (Some (mkArchiveBody None (Some [lastPlayed]))))
  else None.

End RecentNotions.


(** * Properties *)

(** ** Calendar arithmetic *)

Module DateFacts.
Import JSDate.

Lemma DayFromYear_succ y : DayFromYear (y + 1) = DayFromYear y + DaysInYear y.
Proof.
  unfold DayFromYear, DaysInYear, InLeapYear_of.
  replace (y + 1 - 1969) with (y - 1969 + 1) by lia.
  replace (y + 1 - 1901) with (y - 1901 + 1) by lia.
  replace (y + 1 - 1601) with (y - 1601 + 1) by lia.
  destruct (y mod 4 =? 0) eqn:E4; destruct (y mod 100 =? 0) eqn:E100;
    destruct (y mod 400 =? 0) eqn:E400; cbn [andb orb negb];
    rewrite ?Z.eqb_eq, ?Z.eqb_neq in *;
    Z.div_mod_to_equations; lia.
Qed.

Lemma DaysInYear_cases y : DaysInYear y = 365 \/ DaysInYear y = 366.
Proof. unfold DaysInYear; destruct (InLeapYear_of y); auto. Qed.

Lemma DayFromYear_mono y1 y2 : y1 <= y2 -> DayFromYear y1 <= DayFromYear y2.
Proof. unfold DayFromYear; intros; Z.div_mod_to_equations; lia. Qed.

Lemma YearFromDay_bounds d :
  DayFromYear (YearFromDay d) <= d < DayFromYear (YearFromDay d + 1).
Proof.
  unfold YearFromDay.
  set (y := 1970 + 400 * d / 146097).
  assert (Hy : DayFromYear (y - 1) <= d < DayFromYear (y + 2)).
  { subst y; unfold DayFromYear; Z.div_mod_to_equations; lia. }
  destruct (d <? DayFromYear y) eqn:E1.
  - apply Z.ltb_lt in E1. replace (y - 1 + 1) with y by lia. lia.
  - apply Z.ltb_ge in E1.
    destruct (DayFromYear (y + 1) <=? d) eqn:E2.
    + apply Z.leb_le in E2. replace (y + 1 + 1) with (y + 2) by lia. lia.
    + apply Z.leb_gt in E2. lia.
Qed.

Lemma YearFromDay_unique d y :
  DayFromYear y <= d < DayFromYear (y + 1) -> YearFromDay d = y.
Proof.
  intros H. pose proof (YearFromDay_bounds d) as B.
  destruct (Z.lt_trichotomy (YearFromDay d) y) as [L | [E | G]]; trivial.
  - pose proof (DayFromYear_mono (YearFromDay d + 1) y ltac:(lia)). lia.
  - pose proof (DayFromYear_mono (y + 1) (YearFromDay d) ltac:(lia)). lia.
Qed.

Lemma DaysInYear_MonthStart y : DaysInYear y = MonthStart (InLeapYear_of y) 12.
Proof. unfold DaysInYear; destruct (InLeapYear_of y); reflexivity. Qed.

Lemma DayWithinYear_range t :
  0 <= DayWithinYear t < MonthStart (InLeapYear t) 12.
Proof.
  unfold DayWithinYear, InLeapYear, YearFromTime.
  pose proof (YearFromDay_bounds (Day t)) as B.
  rewrite DayFromYear_succ, DaysInYear_MonthStart in B. lia.
Qed.

Ltac month_cases :=
  repeat match goal with
    | |- context [if ?a <? ?b then _ else _] =>
        destruct (Z.ltb_spec a b); try lia
    end;
  cbn; try lia.

Lemma MonthFromDay_range leap dy : 0 <= MonthFromDay leap dy <= 11.
Proof. unfold MonthFromDay; month_cases; lia. Qed.

Lemma MonthFromDay_bounds leap dy :
  0 <= dy < MonthStart leap 12 ->
  MonthStart leap (MonthFromDay leap dy) <= dy
  < MonthStart leap (MonthFromDay leap dy + 1).
Proof.
  intros H; unfold MonthFromDay; destruct leap; cbn in *; month_cases.
Qed.

Lemma MonthFromDay_unique leap dy m :
  0 <= m <= 11 ->
  MonthStart leap m <= dy < MonthStart leap (m + 1) ->
  MonthFromDay leap dy = m.
Proof.
  intros Hm H.
  assert (C : m = 0 \/ m = 1 \/ m = 2 \/ m = 3 \/ m = 4 \/ m = 5 \/ m = 6 \/
              m = 7 \/ m = 8 \/ m = 9 \/ m = 10 \/ m = 11) by lia.
  unfold MonthFromDay; destruct leap;
    repeat (destruct C as [-> | C]; [cbn in *; month_cases |]);
    subst m; cbn in *; month_cases.
Qed.

Lemma MonthFromTime_range t : 0 <= MonthFromTime t <= 11.
Proof. apply MonthFromDay_range. Qed.

Lemma MonthLength leap m :
  0 <= m <= 11 -> 28 <= MonthStart leap (m + 1) - MonthStart leap m <= 31.
Proof.
  intros Hm.
  assert (C : m = 0 \/ m = 1 \/ m = 2 \/ m = 3 \/ m = 4 \/ m = 5 \/ m = 6 \/
              m = 7 \/ m = 8 \/ m = 9 \/ m = 10 \/ m = 11) by lia.
  destruct leap; repeat (destruct C as [-> | C]; [cbn; lia |]); subst m; cbn; lia.
Qed.

Lemma DateFromTime_range t : 1 <= DateFromTime t <= 31.
Proof.
  unfold DateFromTime, MonthFromTime.
  pose proof (MonthFromDay_bounds _ _ (DayWithinYear_range t)).
  pose proof (MonthLength (InLeapYear t) _ (MonthFromDay_range (InLeapYear t) (DayWithinYear t))).
  lia.
Qed.

(** The civil date of an instant names its day. *)
Lemma MakeDay_of_time t :
  MakeDay (YearFromTime t) (MonthFromTime t) (DateFromTime t) = Day t.
Proof.
  pose proof (MonthFromTime_range t) as Hm.
  unfold MakeDay.
  rewrite Z.div_small, Z.mod_small by lia.
  rewrite Z.add_0_r.
  unfold DateFromTime, DayWithinYear, InLeapYear. lia.
Qed.

Lemma MakeDay_date year month date :
  MakeDay year month date = MakeDay year month 1 + (date - 1).
Proof. unfold MakeDay; lia. Qed.

(** The civil date of the first day of a month, for any month index. *)
Lemma YearFromDay_MakeDay year month date :
  1 <= date <= 28 ->
  YearFromDay (MakeDay year month date) = year + month / 12.
Proof.
  intros Hd. apply YearFromDay_unique.
  rewrite DayFromYear_succ, DaysInYear_MonthStart.
  unfold MakeDay.
  set (ym := year + month / 12).
  pose proof (Z.mod_pos_bound month 12 ltac:(lia)) as Hm.
  set (mn := month mod 12) in *.
  assert (C : mn = 0 \/ mn = 1 \/ mn = 2 \/ mn = 3 \/ mn = 4 \/ mn = 5 \/ mn = 6 \/
              mn = 7 \/ mn = 8 \/ mn = 9 \/ mn = 10 \/ mn = 11) by lia.
  destruct (InLeapYear_of ym);
    repeat (destruct C as [-> | C]; [cbn; lia |]); rewrite C; cbn; lia.
Qed.

Lemma MonthFromDay_MakeDay year month date :
  1 <= date <= 28 ->
  MonthFromDay (InLeapYear_of (year + month / 12))
    (MakeDay year month date - DayFromYear (year + month / 12)) = month mod 12.
Proof.
  intros Hd.
  pose proof (Z.mod_pos_bound month 12 ltac:(lia)) as Hm.
  apply MonthFromDay_unique; [lia |].
  unfold MakeDay.
  pose proof (MonthLength (InLeapYear_of (year + month / 12)) (month mod 12) ltac:(lia)).
  lia.
Qed.

Lemma Day_MakeDate day time :
  0 <= time < msPerDay -> Day (MakeDate day time) = day.
Proof.
  intros H; unfold Day, MakeDate.
  rewrite Z.add_comm, Z.div_add by (unfold msPerDay; lia).
  rewrite Z.div_small by lia. lia.
Qed.

Lemma TimeWithinDay_range t : 0 <= TimeWithinDay t < msPerDay.
Proof. apply Z.mod_pos_bound; unfold msPerDay; lia. Qed.

Lemma YearFromTime_MakeDate year month date time :
  1 <= date <= 28 -> 0 <= time < msPerDay ->
  YearFromTime (MakeDate (MakeDay year month date) time) = year + month / 12.
Proof.
  intros Hd Ht; unfold YearFromTime.
  rewrite Day_MakeDate by assumption. now apply YearFromDay_MakeDay.
Qed.

Lemma MonthFromTime_MakeDate year month date time :
  1 <= date <= 28 -> 0 <= time < msPerDay ->
  MonthFromTime (MakeDate (MakeDay year month date) time) = month mod 12.
Proof.
  intros Hd Ht; unfold MonthFromTime, InLeapYear, DayWithinYear.
  rewrite YearFromTime_MakeDate, Day_MakeDate by assumption.
  now apply MonthFromDay_MakeDay.
Qed.

Lemma DateFromTime_MakeDate year month date time :
  1 <= date <= 28 -> 0 <= time < msPerDay ->
  DateFromTime (MakeDate (MakeDay year month date) time) = date.
Proof.
  intros Hd Ht; unfold DateFromTime.
  rewrite MonthFromTime_MakeDate by assumption.
  unfold InLeapYear, DayWithinYear.
  rewrite YearFromTime_MakeDate, Day_MakeDate by assumption.
  unfold MakeDay. lia.
Qed.

(** Moving to the next month index moves the first day forward by the
    length of a month. *)
Lemma MakeDay_next_month year month date :
  28 <= MakeDay year (month + 1) date - MakeDay year month date <= 31.
Proof.
  unfold MakeDay.
  pose proof (Z.mod_pos_bound month 12 ltac:(lia)) as Hm.
  destruct (Z.eq_dec (month mod 12) 11) as [E | N].
  - assert (E1 : (month + 1) / 12 = month / 12 + 1)
      by (Z.div_mod_to_equations; lia).
    assert (E2 : (month + 1) mod 12 = 0) by (Z.div_mod_to_equations; lia).
    rewrite E1, E2, E, Z.add_assoc, DayFromYear_succ, DaysInYear_MonthStart.
    destruct (InLeapYear_of (year + month / 12)); cbn; lia.
  - assert (E1 : (month + 1) / 12 = month / 12)
      by (Z.div_mod_to_equations; lia).
    assert (E2 : (month + 1) mod 12 = month mod 12 + 1)
      by (Z.div_mod_to_equations; lia).
    rewrite E1, E2.
    pose proof (MonthLength (InLeapYear_of (year + month / 12)) (month mod 12) ltac:(lia)).
    lia.
Qed.

Lemma YearFromTime_epoch t : 0 <= t -> 1970 <= YearFromTime t.
Proof.
  intros H. unfold YearFromTime.
  assert (0 <= Day t) by (unfold Day, msPerDay; apply Z.div_pos; lia).
  pose proof (YearFromDay_bounds (Day t)) as B.
  destruct (Z.le_gt_cases 1970 (YearFromDay (Day t))) as [L | G]; trivial.
  pose proof (DayFromYear_mono (YearFromDay (Day t) + 1) 1970 ltac:(lia)) as Hm.
  change (DayFromYear 1970) with 0 in Hm. lia.
Qed.

Lemma UTC_plain year month date hours minutes seconds :
  ~ 0 <= year <= 99 ->
  UTC year month date hours minutes seconds
  = MakeDate (MakeDay year month date) (MakeTime hours minutes seconds 0).
Proof.
  intros H; unfold UTC.
  destruct (0 <=? year) eqn:E1; destruct (year <=? 99) eqn:E2; cbn [andb];
    trivial.
  apply Z.leb_le in E1, E2. lia.
Qed.

Lemma YearFromDay_mono d1 d2 : d1 <= d2 -> YearFromDay d1 <= YearFromDay d2.
Proof.
  intros H.
  pose proof (YearFromDay_bounds d1) as B1.
  pose proof (YearFromDay_bounds d2) as B2.
  destruct (Z.le_gt_cases (YearFromDay d1) (YearFromDay d2)) as [L | G]; trivial.
  pose proof (DayFromYear_mono (YearFromDay d2 + 1) (YearFromDay d1) ltac:(lia)).
  lia.
Qed.

Lemma Day_mono t1 t2 : t1 <= t2 -> Day t1 <= Day t2.
Proof. intros H. unfold Day, msPerDay. apply Z.div_le_mono; lia. Qed.

Lemma MonthFromDay_mono leap dy1 dy2 :
  dy1 <= dy2 -> MonthFromDay leap dy1 <= MonthFromDay leap dy2.
Proof.
  intros H. unfold MonthFromDay. destruct leap; cbn.
  all: repeat match goal with
    | |- context [if ?a <? ?b then _ else _] =>
        destruct (Z.ltb_spec a b); try lia
    end.
Qed.

(** The bucket of an instant grows with the instant. *)
Lemma bucket_mono t1 t2 :
  t1 <= t2 ->
  YearFromTime t1 < YearFromTime t2
  \/ (YearFromTime t1 = YearFromTime t2 /\ MonthFromTime t1 <= MonthFromTime t2).
Proof.
  intros H. pose proof (Day_mono _ _ H) as D.
  pose proof (YearFromDay_mono _ _ D) as Y. fold (YearFromTime t1) in Y.
  fold (YearFromTime t2) in Y.
  destruct (Z.eq_dec (YearFromTime t1) (YearFromTime t2)) as [E | N]; [right | lia].
  split; trivial.
  unfold MonthFromTime, InLeapYear, DayWithinYear. rewrite E.
  apply MonthFromDay_mono. lia.
Qed.

End DateFacts.

(** ** Strings: number rendering, splitting, sets, sorting *)

Module StringFacts.
Import JSString Notions.
Local Open Scope string_scope.

Lemma noDash_uint d : noDash (NilEmpty.string_of_uint d) = true.
Proof. induction d; cbn; auto. Qed.

Lemma noDash_uint0 d : noDash (NilZero.string_of_uint d) = true.
Proof. destruct d; try reflexivity; apply (noDash_uint (_ _)). Qed.

Lemma numToString_pos p : numToString (Zpos p) = NilZero.string_of_uint (Pos.to_uint p).
Proof. reflexivity. Qed.

Lemma numToString_neg p :
  numToString (Zneg p) = String "-" (numToString (Zpos p)).
Proof. reflexivity. Qed.

Lemma noDash_numToString z : (0 <= z)%Z -> noDash (numToString z) = true.
Proof.
  destruct z as [| p | p]; intros H; try lia; [reflexivity |].
  rewrite numToString_pos. apply noDash_uint0.
Qed.

Lemma numToString_nonempty z : numToString z <> EmptyString.
Proof.
  destruct z as [| p | p]; try discriminate.
  rewrite numToString_pos. pose proof (Unsigned.to_uint_nonnil p).
  destruct (Pos.to_uint p); try discriminate; congruence.
Qed.

Lemma Number_numToString z : Number (numToString z) = Some z.
Proof.
  unfold Number. pose proof (numToString_nonempty z) as N.
  destruct (numToString z) eqn:E; [congruence |].
  rewrite <- E. unfold numToString.
  rewrite NilZero.isi.
  - cbn. now rewrite DecimalZ.of_to.
  - destruct z; cbn; try discriminate.
    intros [= H]. now apply Unsigned.to_uint_nonnil in H.
  - destruct z; cbn; try discriminate.
    intros [= H]. now apply Unsigned.to_uint_nonnil in H.
Qed.

Lemma split_noDash s : noDash s = true -> split "-" s = [s].
Proof.
  induction s as [| a s IH]; cbn; trivial.
  intros H. apply andb_true_iff in H as [Ha Hs].
  destruct (Ascii.eqb a "-"); [discriminate |].
  now rewrite IH.
Qed.

Lemma split_app s t :
  noDash s = true -> split "-" (s ++ String "-" t) = s :: split "-" t.
Proof.
  induction s as [| a s IH]; cbn; trivial.
  intros H. apply andb_true_iff in H as [Ha Hs].
  destruct (Ascii.eqb a "-"); [discriminate |].
  now rewrite IH.
Qed.

Lemma split_monthKey_nonneg y m :
  (0 <= y)%Z -> (0 <= m)%Z ->
  split "-" (Stats.monthKey y m) = [numToString y; numToString m].
Proof.
  intros Hy Hm. unfold Stats.monthKey.
  change ("-" ++ numToString m) with (String "-" (numToString m)).
  rewrite split_app by now apply noDash_numToString.
  now rewrite split_noDash by now apply noDash_numToString.
Qed.

Lemma split_monthKey_neg p m :
  (0 <= m)%Z ->
  split "-" (Stats.monthKey (Zneg p) m)
  = [EmptyString; numToString (Zpos p); numToString m].
Proof.
  intros Hm. unfold Stats.monthKey. rewrite numToString_neg.
  cbn [append split]. rewrite Ascii.eqb_refl. f_equal.
  change ("-" ++ numToString m) with (String "-" (numToString m)).
  rewrite split_app by now apply noDash_numToString.
  now rewrite split_noDash by now apply noDash_numToString.
Qed.

(** *** Sets *)

Lemma In_Set_add x s l : In x (Set_add s l) <-> x = s \/ In x l.
Proof.
  unfold Set_add. destruct (in_dec string_dec s l) as [i | n].
  - split; [auto | intros [-> | H]; auto].
  - rewrite in_app_iff; cbn. intuition.
Qed.

Lemma NoDup_Set_add s l : NoDup l -> NoDup (Set_add s l).
Proof.
  intros H. unfold Set_add. destruct (in_dec string_dec s l) as [i | n]; trivial.
  apply NoDup_app; trivial.
  - repeat constructor; intros [].
  - intros x Hx [<- | []]. contradiction.
Qed.

Lemma Set_add_fresh s l : ~ In s l -> Set_add s l = (l ++ [s])%list.
Proof. intros n. unfold Set_add. now destruct (in_dec string_dec s l). Qed.

Lemma Set_from_aux l : forall acc,
  NoDup (acc ++ l)%list ->
  fold_left (fun acc s => Set_add s acc) l acc = (acc ++ l)%list.
Proof.
  induction l as [| s l IH]; intros acc H; cbn.
  - now rewrite app_nil_r.
  - rewrite Set_add_fresh.
    + rewrite IH; rewrite <- app_assoc; trivial.
    + apply NoDup_remove_2 in H. rewrite in_app_iff in H. tauto.
Qed.

Lemma Set_from_NoDup l : NoDup l -> Set_from l = l.
Proof. intros H. unfold Set_from. now rewrite Set_from_aux. Qed.

(** *** Sorting of strings *)

Lemma insertString_perm s l : Permutation (s :: l) (insertString s l).
Proof.
  induction l as [| h t IH]; cbn; trivial.
  destruct (String.leb s h); trivial.
  rewrite perm_swap. now constructor.
Qed.

Lemma sortStrings_perm l : Permutation l (sortStrings l).
Proof.
  induction l as [| h t IH]; cbn; trivial.
  rewrite <- insertString_perm. now constructor.
Qed.

Lemma insertString_sorted s l : Sorted str_le l -> Sorted str_le (insertString s l).
Proof.
  induction l as [| h t IH]; intros H; cbn.
  - repeat constructor.
  - destruct (String.leb s h) eqn:E.
    + constructor; trivial. now constructor.
    + apply Sorted_inv in H as [Ht Hh]. constructor; auto.
      assert (Hsh : str_le h s).
      { destruct (String.leb_total s h) as [L | L]; [congruence | exact L]. }
      destruct t as [| h' t']; cbn.
      * now constructor.
      * destruct (String.leb s h'); constructor; trivial.
        now apply HdRel_inv in Hh.
Qed.

Lemma sortStrings_sorted l : Sorted str_le (sortStrings l).
Proof.
  induction l as [| h t IH]; cbn; [constructor |].
  now apply insertString_sorted.
Qed.

End StringFacts.

(** ** The month keys of [getStats] *)

Module ResolverFacts.
Import JSDate JSString Stats Notions DateFacts StringFacts.

Lemma notFuture_nonneg now y m :
  0 <= y -> 0 <= m ->
  notFuture now (monthKey y m)
  = negb (getUTCFullYear now <? y)
    && negb ((y =? getUTCFullYear now) && (getUTCMonth now + 1 <? m)).
Proof.
  intros Hy Hm. unfold notFuture.
  rewrite split_monthKey_nonneg by assumption.
  unfold element; cbn [nth_error]. rewrite !Number_numToString.
  cbn [js_gt js_eq].
  destruct (getUTCFullYear now <? y); cbn [negb andb]; trivial.
Qed.

Lemma notFuture_neg now p m :
  0 <= m ->
  notFuture now (monthKey (Zneg p) m)
  = negb (getUTCFullYear now <? 0)
    && negb ((0 =? getUTCFullYear now) && (getUTCMonth now + 1 <? Zpos p)).
Proof.
  intros Hm. unfold notFuture.
  rewrite split_monthKey_neg by assumption.
  unfold element; cbn [nth_error]. rewrite Number_numToString.
  cbn [Number js_gt js_eq].
  destruct (getUTCFullYear now <? 0); cbn [negb andb]; trivial.
Qed.

Lemma notFuture_notAfter now y m :
  1 <= m <= 12 -> notFuture now (monthKey y m) = true -> notAfter y m now.
Proof.
  intros Hm H. unfold notAfter.
  pose proof (MonthFromTime_range now) as R.
  change (MonthFromTime now) with (getUTCMonth now) in R.
  destruct y as [| p | p].
  - rewrite notFuture_nonneg in H by lia.
    apply andb_true_iff in H as [H1 H2].
    rewrite negb_true_iff in H1, H2. apply Z.ltb_ge in H1.
    apply andb_false_iff in H2 as [H2 | H2];
      [apply Z.eqb_neq in H2 | apply Z.ltb_ge in H2]; lia.
  - rewrite notFuture_nonneg in H by lia.
    apply andb_true_iff in H as [H1 H2].
    rewrite negb_true_iff in H1, H2. apply Z.ltb_ge in H1.
    apply andb_false_iff in H2 as [H2 | H2];
      [apply Z.eqb_neq in H2 | apply Z.ltb_ge in H2]; lia.
  - rewrite notFuture_neg in H by lia.
    apply andb_true_iff in H as [H1 _].
    rewrite negb_true_iff in H1. apply Z.ltb_ge in H1. lia.
Qed.

Lemma notAfter_notFuture now y m :
  0 <= y -> 1 <= m <= 12 -> notAfter y m now ->
  notFuture now (monthKey y m) = true.
Proof.
  intros Hy Hm H. rewrite notFuture_nonneg by lia.
  apply andb_true_iff; rewrite !negb_true_iff; split.
  - apply Z.ltb_ge. destruct H; lia.
  - destruct H as [H | [H1 H2]].
    + apply andb_false_iff; left; apply Z.eqb_neq; lia.
    + apply andb_false_iff; right; apply Z.ltb_ge; lia.
Qed.

Lemma isKey_time t : isKey (monthKey (getUTCFullYear t) (getUTCMonth t + 1)).
Proof.
  exists (getUTCFullYear t), (getUTCMonth t + 1); split; trivial.
  pose proof (MonthFromTime_range t). unfold getUTCMonth. lia.
Qed.

Lemma yearLoop_keys fuel : forall iter periodEnd acc,
  Forall isKey acc -> Forall isKey (yearLoop fuel iter periodEnd acc).
Proof.
  induction fuel as [| fuel IH]; intros iter periodEnd acc H; cbn; trivial.
  destruct (iter <=? periodEnd); trivial.
  apply IH. rewrite Forall_forall in *. intros x Hx.
  apply In_Set_add in Hx as [-> | Hx]; auto using isKey_time.
Qed.

Lemma yearLoop_NoDup fuel : forall iter periodEnd acc,
  NoDup acc -> NoDup (yearLoop fuel iter periodEnd acc).
Proof.
  induction fuel as [| fuel IH]; intros iter periodEnd acc H; cbn; trivial.
  destruct (iter <=? periodEnd); trivial.
  now apply IH, NoDup_Set_add.
Qed.

Lemma yearLoop_incl fuel : forall iter periodEnd acc x,
  In x acc -> In x (yearLoop fuel iter periodEnd acc).
Proof.
  induction fuel as [| fuel IH]; intros iter periodEnd acc x H; cbn; trivial.
  destruct (iter <=? periodEnd); trivial.
  apply IH, In_Set_add. now right.
Qed.

(** One turn of the loop moves [iter] forward by at least 28 days. *)
Lemma setUTCMonth_next t :
  t + 28 * msPerDay <= setUTCMonth t (getUTCMonth t + 1).
Proof.
  unfold setUTCMonth, getUTCMonth, MakeDate.
  pose proof (MakeDay_next_month (YearFromTime t) (MonthFromTime t) (DateFromTime t)) as H.
  rewrite MakeDay_of_time in H.
  assert (E : t = Day t * msPerDay + TimeWithinDay t).
  { unfold Day, TimeWithinDay. rewrite Z.mul_comm.
    apply Z.div_mod. unfold msPerDay; lia. }
  rewrite E at 1. unfold msPerDay in *. lia.
Qed.

(** [yearFuel] turns are enough: more fuel does not change the result. *)
Lemma yearLoop_enough fuel : forall iter periodEnd acc extra,
  (periodEnd - iter) / (28 * msPerDay) + 1 <= Z.of_nat fuel ->
  yearLoop (fuel + extra) iter periodEnd acc = yearLoop fuel iter periodEnd acc.
Proof.
  induction fuel as [| fuel IH]; intros iter periodEnd acc extra H.
  - assert (periodEnd < iter).
    { unfold msPerDay in H. cbn in H. Z.div_mod_to_equations. lia. }
    destruct extra; cbn; trivial.
    destruct (Z.leb_spec iter periodEnd); trivial. lia.
  - cbn. destruct (Z.leb_spec iter periodEnd); trivial.
    apply IH.
    pose proof (setUTCMonth_next iter) as N.
    unfold msPerDay in *. cbn in *. Z.div_mod_to_equations. lia.
Qed.

Lemma yearLoop_fuel iter periodEnd acc extra :
  yearLoop (yearFuel iter periodEnd + extra) iter periodEnd acc
  = yearLoop (yearFuel iter periodEnd) iter periodEnd acc.
Proof.
  apply yearLoop_enough. unfold yearFuel.
  destruct (Z.le_gt_cases 0 ((periodEnd - iter) / (28 * msPerDay) + 1)).
  - rewrite Z2Nat.id; lia.
  - lia.
Qed.

Lemma candidateMonths_keys periodStart periodEnd periodType :
  Forall isKey (candidateMonths periodStart periodEnd periodType).
Proof.
  unfold candidateMonths.
  assert (K12 : forall y, isKey (monthKey y 12))
    by (intros y; exists y, 12; split; [lia | trivial]).
  destruct periodType;
    try (destruct (negb _));
    try apply yearLoop_keys;
    rewrite Forall_forall; intros x Hx;
    repeat (apply In_Set_add in Hx as [-> | Hx]; auto using isKey_time);
    destruct Hx.
Qed.

Lemma candidateMonths_NoDup periodStart periodEnd periodType :
  NoDup (candidateMonths periodStart periodEnd periodType).
Proof.
  unfold candidateMonths.
  destruct periodType;
    try (destruct (negb _));
    try apply yearLoop_NoDup;
    repeat apply NoDup_Set_add; constructor.
Qed.

Lemma candidateMonths_prev periodStart periodEnd periodType :
  In (monthKey
        (getUTCFullYear
           (UTC (getUTCFullYear periodStart) (getUTCMonth periodStart + 1 - 2)
              1 0 0 0))
        (getUTCMonth
           (UTC (getUTCFullYear periodStart) (getUTCMonth periodStart + 1 - 2)
              1 0 0 0) + 1))
     (candidateMonths periodStart periodEnd periodType).
Proof.
  unfold candidateMonths.
  destruct periodType;
    try (destruct (negb _));
    try apply yearLoop_incl;
    repeat (apply In_Set_add; first [left; reflexivity | right]).
Qed.

Lemma monthsToFetch_eq now periodStart periodEnd periodType :
  monthsToFetch now periodStart periodEnd periodType
  = sortStrings
      (filter (notFuture now)
         (candidateMonths periodStart periodEnd periodType)).
Proof.
  unfold monthsToFetch.
  assert (N : NoDup (filter (notFuture now)
                       (candidateMonths periodStart periodEnd periodType)))
    by apply NoDup_filter, candidateMonths_NoDup.
  rewrite (Set_from_NoDup _ N).
  apply Set_from_NoDup.
  eapply Permutation_NoDup; [apply sortStrings_perm | exact N].
Qed.

Lemma In_monthsToFetch now periodStart periodEnd periodType s :
  In s (monthsToFetch now periodStart periodEnd periodType)
  <-> In s (candidateMonths periodStart periodEnd periodType)
      /\ notFuture now s = true.
Proof.
  rewrite monthsToFetch_eq, <- filter_In.
  split; apply Permutation_in;
    [symmetry |]; apply sortStrings_perm.
Qed.

Lemma monthsToFetch_NoDup now periodStart periodEnd periodType :
  NoDup (monthsToFetch now periodStart periodEnd periodType).
Proof.
  rewrite monthsToFetch_eq.
  eapply Permutation_NoDup; [apply sortStrings_perm |].
  apply NoDup_filter, candidateMonths_NoDup.
Qed.

(** In the flow of [handleStats] the period starts no later than the clock
    reading of [getStats]; the month before it is then never a future
    month. *)
Lemma previousMonth_notAfter periodStart now :
  periodStart <= now ->
  notAfter (fst (previousMonth periodStart)) (snd (previousMonth periodStart)) now.
Proof.
  intros H. pose proof (bucket_mono _ _ H) as B.
  pose proof (MonthFromTime_range periodStart) as M.
  unfold notAfter, previousMonth. unfold getUTCFullYear, getUTCMonth.
  destruct (Z.eqb_spec (MonthFromTime periodStart) 0); cbn [fst snd]; lia.
Qed.

End ResolverFacts.

(** ** Fetching the archives *)

Module FetchFacts.
Import JSString Stats Notions StringFacts ResolverFacts.

Lemma failed_responseGames answer : failed answer = true -> responseGames answer = [].
Proof.
  destruct answer as [res |]; cbn; trivial.
  destruct (ok res); cbn; trivial.
  destruct (body res); [discriminate | trivial].
Qed.

Lemma fetchGamesForMonth_result net username year month tr :
  fetchGamesForMonth net username year month tr
  = (Ret (responseGames (net (archiveUrl username year month))),
     tr ++ [archiveUrl username year month]).
Proof.
  unfold fetchGamesForMonth, try_catch, bind, fetch, responseGames.
  destruct (net (archiveUrl username year month)) as [res |]; cbn; trivial.
  destruct (ok res); cbn; trivial.
  unfold json. destruct (body res) as [data |]; reflexivity.
Qed.

Lemma isKey_second s :
  isKey s -> nth_error (split "-" s) 1 = Some (nth 1 (split "-" s) EmptyString).
Proof.
  intros (y & m & Hm & ->).
  destruct y as [| p | p].
  - now rewrite split_monthKey_nonneg by lia.
  - now rewrite split_monthKey_nonneg by lia.
  - now rewrite split_monthKey_neg by lia.
Qed.

Lemma fetchLoop_result net username months : forall allGames tr,
  Forall isKey months ->
  fetchLoop net username months allGames tr
  = (Ret (allGames ++ flat_map (contribution net username) months),
     tr ++ map (requestOf username) months).
Proof.
  induction months as [| monthStr rest IH]; intros allGames tr H;
    cbn [fetchLoop flat_map map].
  - unfold ret. now rewrite !app_nil_r.
  - apply Forall_cons_iff in H as [Hk Hrest].
    rewrite (isKey_second _ Hk). unfold bind.
    rewrite fetchGamesForMonth_result, (IH _ _ Hrest).
    unfold contribution, requestOf. now rewrite <- !app_assoc.
Qed.

Lemma monthsToFetch_keys now periodStart periodEnd periodType :
  Forall isKey (monthsToFetch now periodStart periodEnd periodType).
Proof.
  rewrite Forall_forall; intros s Hs.
  apply In_monthsToFetch in Hs as [Hs _].
  pose proof (candidateMonths_keys periodStart periodEnd periodType) as K.
  rewrite Forall_forall in K. auto.
Qed.

(** [getStats] always returns, after one request per month key. *)
Lemma getStats_result net now username periodStart periodEnd periodType tr :
  getStats net now username periodStart periodEnd periodType tr
  = (Ret (aggregate username periodStart periodEnd
            (fetchedGames net now username periodStart periodEnd periodType)),
     tr ++ map (requestOf username)
             (monthsToFetch now periodStart periodEnd periodType)).
Proof.
  unfold getStats, bind.
  rewrite fetchLoop_result by apply monthsToFetch_keys.
  reflexivity.
Qed.

End FetchFacts.

(** ** Aggregation *)

Module AggregateFacts.
Import JSString Stats Notions.

Lemma pop_nth {A} (l : list A) n :
  List.length l = S n -> nth_error l n = pop l.
Proof.
  intros H. unfold pop.
  destruct l as [| a l] using rev_ind; [discriminate |].
  rewrite length_app in H; cbn in H.
  rewrite rev_app_distr; cbn.
  rewrite nth_error_app2 by lia.
  replace (n - List.length l)%nat with 0%nat by lia. reflexivity.
Qed.

Lemma pop_nil {A} (l : list A) : pop l = None <-> l = [].
Proof.
  unfold pop. split.
  - destruct (rev l) eqn:E; [| discriminate].
    intros _. apply (f_equal (@rev A)) in E. now rewrite rev_involutive in E.
  - now intros ->.
Qed.

Lemma nth_error_0 {A} (l : list A) : nth_error l 0 = hd_error l.
Proof. now destruct l. Qed.

Lemma aggregate_games username periodStart periodEnd allGames :
  gamesInPeriod (aggregate username periodStart periodEnd allGames)
  = filter (inPeriod periodStart periodEnd) allGames.
Proof. reflexivity. Qed.

Lemma aggregate_count username periodStart periodEnd allGames mode :
  get mode (stats (aggregate username periodStart periodEnd allGames))
  = List.length
      (filter (isMode mode) (filter (inPeriod periodStart periodEnd) allGames)).
Proof. destruct mode; reflexivity. Qed.

Lemma aggregate_end username periodStart periodEnd allGames mode :
  get mode (endRatings (aggregate username periodStart periodEnd allGames))
  = option_map (ratingOf username) (endGame periodStart periodEnd allGames mode).
Proof.
  unfold endGame.
  set (inp := filter (inPeriod periodStart periodEnd) allGames).
  assert (E : forall m (o : PerMode (option Z)),
    match List.length (filter (isMode m) inp) with
    | O => o
    | S n => match nth_error (filter (isMode m) inp) n with
             | Some last => set m (Some (ratingOf username last)) o
             | None => o
             end
    end = match pop (filter (isMode m) inp) with
          | Some last => set m (Some (ratingOf username last)) o
          | None => o
          end).
  { intros m o. destruct (List.length (filter (isMode m) inp)) eqn:L.
    - apply length_zero_iff_nil in L. now rewrite L.
    - now rewrite (pop_nth _ _ L). }
  unfold aggregate, countLoop. fold inp. cbn [fold_left modes].
  rewrite !E.
  destruct mode; cbn;
    destruct (pop (filter (isMode rapid) inp));
    destruct (pop (filter (isMode blitz) inp));
    destruct (pop (filter (isMode bullet) inp)); reflexivity.
Qed.

Lemma aggregate_start username periodStart periodEnd allGames mode :
  get mode (startRatings (aggregate username periodStart periodEnd allGames))
  = option_map (ratingOf username) (startGame periodStart periodEnd allGames mode).
Proof.
  unfold startGame.
  set (inp := filter (inPeriod periodStart periodEnd) allGames).
  set (srt := sortGames allGames).
  unfold aggregate, countLoop, startLoop. fold inp. fold srt.
  cbn [fold_left modes]. rewrite !nth_error_0.
  destruct mode; cbn;
    destruct (pop (filter (beforePeriod periodStart rapid) srt));
    destruct (pop (filter (beforePeriod periodStart blitz) srt));
    destruct (pop (filter (beforePeriod periodStart bullet) srt));
    cbn;
    destruct (hd_error (filter (isMode rapid) inp));
    destruct (hd_error (filter (isMode blitz) inp));
    destruct (hd_error (filter (isMode bullet) inp)); reflexivity.
Qed.

(** *** The sort by end time and the last game before the period *)

Lemma insertGame_perm g l : Permutation (g :: l) (insertGame g l).
Proof.
  induction l as [| h t IH]; cbn; trivial.
  destruct (end_time g <=? end_time h); trivial.
  rewrite perm_swap. now constructor.
Qed.

Lemma sortGames_perm l : Permutation l (sortGames l).
Proof.
  induction l as [| h t IH]; cbn; trivial.
  rewrite <- insertGame_perm. now constructor.
Qed.

Lemma insertGame_sorted g l :
  StronglySorted by_end_time l -> StronglySorted by_end_time (insertGame g l).
Proof.
  induction l as [| h t IH]; intros H; cbn.
  - repeat constructor.
  - apply StronglySorted_inv in H as [Ht Hh].
    destruct (Z.leb_spec (end_time g) (end_time h)) as [L | G].
    + constructor; [now constructor |].
      constructor; trivial.
      rewrite Forall_forall in *. intros x Hx. specialize (Hh x Hx).
      unfold by_end_time in *. lia.
    + constructor; auto.
      rewrite Forall_forall in *. intros x Hx.
      apply (Permutation_in _ (Permutation_sym (insertGame_perm g t))) in Hx.
      destruct Hx as [<- | Hx]; [unfold by_end_time; lia | auto].
Qed.

Lemma sortGames_sorted l : StronglySorted by_end_time (sortGames l).
Proof.
  induction l as [| h t IH]; cbn; [constructor |].
  now apply insertGame_sorted.
Qed.

Lemma filter_sorted (f : Game -> bool) l :
  StronglySorted by_end_time l -> StronglySorted by_end_time (filter f l).
Proof.
  induction 1 as [| a l Hs IH Ha]; cbn; [constructor |].
  destruct (f a); trivial. constructor; trivial.
  rewrite Forall_forall in *. intros x Hx. apply filter_In in Hx as [Hx _]. auto.
Qed.

Lemma pop_sorted_max l g :
  StronglySorted by_end_time l -> pop l = Some g ->
  In g l /\ forall g', In g' l -> end_time g' <= end_time g.
Proof.
  unfold pop. intros S E.
  destruct l as [| a l] using rev_ind; [discriminate |].
  rewrite rev_app_distr in E; cbn in E. injection E as ->.
  split; [apply in_app_iff; right; now left |].
  intros g' Hg'. apply in_app_iff in Hg' as [Hg' | [<- | []]]; [| lia].
  clear IHl. induction l as [| b l IH]; [destruct Hg' |].
  cbn in S. apply StronglySorted_inv in S as [S Hb].
  destruct Hg' as [<- | Hg'].
  - rewrite Forall_forall in Hb. apply Hb, in_app_iff. right. now left.
  - auto.
Qed.

(** The start rating read from a game before the period is read from the
    latest game of the mode that ends before [periodStart]. *)
Lemma lastBefore_latest periodStart mode allGames g :
  pop (filter (beforePeriod periodStart mode) (sortGames allGames)) = Some g ->
  In g allGames /\ beforePeriod periodStart mode g = true
  /\ forall g', In g' allGames -> beforePeriod periodStart mode g' = true ->
                end_time g' <= end_time g.
Proof.
  intros E.
  apply pop_sorted_max in E as [Hin Hmax];
    [| apply filter_sorted, sortGames_sorted].
  apply filter_In in Hin as [Hin Hb].
  split; [| split]; trivial.
  - eapply Permutation_in; [symmetry; apply sortGames_perm | exact Hin].
  - intros g' Hg' Hb'. apply Hmax, filter_In. split; trivial.
    eapply Permutation_in; [apply sortGames_perm | exact Hg'].
Qed.

Lemma lastBefore_none periodStart mode allGames :
  pop (filter (beforePeriod periodStart mode) (sortGames allGames)) = None
  <-> forall g, In g allGames -> beforePeriod periodStart mode g = false.
Proof.
  rewrite pop_nil. split.
  - intros E g Hg. destruct (beforePeriod periodStart mode g) eqn:B; trivial.
    assert (In g (filter (beforePeriod periodStart mode) (sortGames allGames))).
    { apply filter_In; split; trivial.
      eapply Permutation_in; [apply sortGames_perm | exact Hg]. }
    rewrite E in H. destruct H.
  - intros H.
    destruct (filter (beforePeriod periodStart mode) (sortGames allGames))
      as [| a l] eqn:E; trivial.
    assert (Ha : In a (filter (beforePeriod periodStart mode) (sortGames allGames)))
      by (rewrite E; now left).
    apply filter_In in Ha as [Ha Hb].
    apply (Permutation_in _ (Permutation_sym (sortGames_perm allGames))) in Ha.
    rewrite (H a Ha) in Hb. discriminate.
Qed.

End AggregateFacts.

(** ** The period window *)

Module HandlerFacts.
Import JSDate Handler Notions DateFacts.

Lemma YearFromDay_ge y d : DayFromYear y <= d -> y <= YearFromDay d.
Proof.
  intros H. pose proof (YearFromDay_bounds d) as B.
  destruct (Z.le_gt_cases y (YearFromDay d)) as [L | G]; trivial.
  pose proof (DayFromYear_mono (YearFromDay d + 1) y ltac:(lia)). lia.
Qed.

Lemma Day_nonneg t : 0 <= t -> 0 <= Day t.
Proof. intros H. unfold Day, msPerDay. apply Z.div_pos; lia. Qed.

(** [Date.UTC] of the civil date of [t], at a time of day. *)
Lemma UTC_of_time t hours minutes seconds :
  -365 <= Day t ->
  UTC (getUTCFullYear t) (getUTCMonth t) (getUTCDate t) hours minutes seconds
  = MakeDate (Day t) (MakeTime hours minutes seconds 0).
Proof.
  intros H. unfold getUTCFullYear, getUTCMonth, getUTCDate.
  assert (1969 <= YearFromTime t) by (apply YearFromDay_ge; exact H).
  rewrite UTC_plain by lia. now rewrite MakeDay_of_time.
Qed.

Lemma setUTCDate_day t date :
  setUTCDate t date = MakeDate (Day t + (date - DateFromTime t)) (TimeWithinDay t).
Proof.
  unfold setUTCDate.
  rewrite MakeDay_date, <- (MakeDay_of_time t).
  rewrite (MakeDay_date _ _ (DateFromTime t)). f_equal. lia.
Qed.

Lemma weekDiff_range now : 0 <= weekDiff now <= 6.
Proof.
  unfold weekDiff, getUTCDay, WeekDay.
  pose proof (Z.mod_pos_bound (Day now + 4) 7 ltac:(lia)).
  destruct (Z.eqb_spec ((Day now + 4) mod 7) 0); lia.
Qed.

Lemma weekDiff_monday now : (Day now - weekDiff now + 4) mod 7 = 1.
Proof.
  unfold weekDiff, getUTCDay, WeekDay.
  destruct (Z.eqb_spec ((Day now + 4) mod 7) 0);
    Z.div_mod_to_equations; lia.
Qed.

Lemma weekly_start now :
  0 <= now -> periodStart weekly now = MakeDate (Day now - weekDiff now) 0.
Proof.
  intros H. unfold periodStart, periodWindow; cbn [fst].
  fold (weekDiff now).
  pose proof (weekDiff_range now) as R. pose proof (Day_nonneg now H) as D.
  rewrite setUTCDate_day.
  set (start := MakeDate _ (TimeWithinDay now)).
  assert (E : Day start = Day now - weekDiff now).
  { subst start. rewrite Day_MakeDate by apply TimeWithinDay_range.
    unfold getUTCDate. lia. }
  rewrite UTC_of_time by lia. now rewrite E.
Qed.

Lemma day_end now hours minutes seconds :
  0 <= now ->
  UTC (getUTCFullYear now) (getUTCMonth now) (getUTCDate now) hours minutes seconds
  = MakeDate (Day now) (MakeTime hours minutes seconds 0).
Proof. intros H. apply UTC_of_time. pose proof (Day_nonneg now H). lia. Qed.

Lemma window_daily now : 0 <= now -> periodStart daily now <= periodEnd daily now.
Proof.
  intros H. unfold periodStart, periodEnd, periodWindow; cbn [fst snd].
  rewrite !day_end by assumption. unfold MakeDate, MakeTime. lia.
Qed.

Lemma window_weekly now : 0 <= now -> periodStart weekly now <= periodEnd weekly now.
Proof.
  intros H. rewrite weekly_start by assumption.
  unfold periodEnd, periodWindow; cbn [snd].
  rewrite day_end by assumption.
  pose proof (weekDiff_range now). unfold MakeDate, MakeTime, msPerDay. lia.
Qed.

Lemma window_monthly now :
  0 <= now -> periodStart monthly now <= periodEnd monthly now.
Proof.
  intros H. unfold periodStart, periodEnd, periodWindow; cbn [fst snd].
  unfold getUTCFullYear, getUTCMonth.
  pose proof (YearFromTime_epoch now H).
  rewrite !UTC_plain by lia.
  pose proof (MakeDay_next_month (YearFromTime now) (MonthFromTime now) 1) as N.
  rewrite (MakeDay_date _ (MonthFromTime now + 1) 0).
  unfold MakeDate, MakeTime, msPerDay. lia.
Qed.

Lemma window_yearly now : 0 <= now -> periodStart yearly now <= periodEnd yearly now.
Proof.
  intros H. unfold periodStart, periodEnd, periodWindow; cbn [fst snd].
  unfold getUTCFullYear.
  pose proof (YearFromTime_epoch now H).
  rewrite !UTC_plain by lia.
  unfold MakeDate, MakeTime, MakeDay, msPerDay.
  change (0 / 12) with 0. change (11 / 12) with 0.
  change (0 mod 12) with 0. change (11 mod 12) with 11.
  destruct (InLeapYear_of (YearFromTime now + 0)); cbn [MonthStart Z.leb Z.eqb Z.compare]; cbn; lia.
Qed.

End HandlerFacts.

(** ** Answers of any shape *)

Module RawFacts.
Import JSString Stats Notions Raw Lift RawNotions.
Import ResolverFacts FetchFacts AggregateFacts.

Lemma fetchGamesForMonthRaw_result net username year month tr :
  fetchGamesForMonthRaw net username year month tr
  = (Ret (valueOf (net (archiveUrl username year month))),
     tr ++ [archiveUrl username year month]).
Proof.
  unfold fetchGamesForMonthRaw, try_catch, bind, fetchRaw, valueOf.
  destruct (net (archiveUrl username year month)) as [res |]; cbn; trivial.
  destruct (Raw.ok res); cbn; trivial.
  unfold jsonRaw. destruct (Raw.body res) as [[| [v |]] |]; reflexivity.
Qed.

Lemma fetchLoopRaw_result net username months : forall allGames tr,
  Forall isKey months ->
  Forall (fun k => iterable (net (requestOf username k)) = true) months ->
  fetchLoopRaw net username months allGames tr
  = (Ret (allGames ++ flat_map (contributionRaw net username) months),
     tr ++ map (requestOf username) months).
Proof.
  induction months as [| monthStr rest IH]; intros allGames tr K I;
    cbn [fetchLoopRaw flat_map map].
  - unfold ret. now rewrite !app_nil_r.
  - apply Forall_cons_iff in K as [Hk Krest].
    apply Forall_cons_iff in I as [Hi Irest].
    rewrite (isKey_second _ Hk). unfold bind.
    rewrite fetchGamesForMonthRaw_result.
    unfold iterable, requestOf in Hi.
    unfold contributionRaw at 1, recordsOf, requestOf at 1.
    destruct (valueOf _) as [l |]; [| discriminate].
    rewrite (IH _ _ Krest Irest). unfold requestOf at 2.
    now rewrite <- !app_assoc.
Qed.


Lemma getStatsRaw_result net now username periodStart periodEnd periodType tr :
  Forall (fun k => iterable (net (requestOf username k)) = true)
    (monthsToFetch now periodStart periodEnd periodType) ->
  getStatsRaw net now username periodStart periodEnd periodType tr
  = (aggregateRaw username periodStart periodEnd
       (flat_map (contributionRaw net username)
          (monthsToFetch now periodStart periodEnd periodType)),
     tr ++ map (requestOf username)
             (monthsToFetch now periodStart periodEnd periodType)).
Proof.
  intros I. unfold getStatsRaw, bind.
  rewrite fetchLoopRaw_result; [reflexivity | apply monthsToFetch_keys | exact I].
Qed.

(** *** Well-formed records *)

Lemma filter_map_comm {A B} (f : B -> bool) (g : A -> bool) (h : A -> B) l :
  (forall x, f (h x) = g x) -> filter f (map h l) = map h (filter g l).
Proof.
  intros E. induction l as [| a l IH]; cbn; trivial.
  rewrite E, IH. now destruct (g a).
Qed.

Lemma pop_map {A B} (h : A -> B) (l : list A) :
  pop (map h l) = option_map h (pop l).
Proof. unfold pop. rewrite <- map_rev. now destruct (rev l). Qed.

Lemma insertRaw_embed g l :
  insertRaw (embed g) (map embed l) = map embed (insertGame g l).
Proof.
  induction l as [| h t IH]; cbn; trivial.
  destruct (API.end_time g <=? API.end_time h); cbn; [reflexivity | now rewrite <- IH].
Qed.

Lemma sortRaw_embed l : sortRaw (map embed l) = map embed (sortGames l).
Proof.
  induction l as [| g l IH]; cbn; trivial.
  unfold sortRaw in IH. rewrite IH. apply insertRaw_embed.
Qed.

Lemma ratingOfRaw_embed username g :
  ratingOfRaw username (embed g) = Ret (ratingOf username g).
Proof.
  unfold ratingOfRaw, ratingOf. cbn.
  now destruct (String.eqb _ _).
Qed.

Lemma startLoopRaw_embed username periodStart sorted startRatings :
  startLoopRaw username periodStart (map embed sorted) startRatings
  = Ret (startLoop username periodStart sorted startRatings).
Proof.
  unfold startLoopRaw, startLoop. cbn [fold_left modes].
  rewrite !(filter_map_comm _ (beforePeriod periodStart _) embed)
    by reflexivity.
  rewrite !pop_map.
  destruct (pop (filter (beforePeriod periodStart rapid) sorted));
    destruct (pop (filter (beforePeriod periodStart blitz) sorted));
    destruct (pop (filter (beforePeriod periodStart bullet) sorted));
    cbn [option_map after]; rewrite ?ratingOfRaw_embed; reflexivity.
Qed.

Lemma fold_left_ret {A S} (f : outcome S -> A -> outcome S) (g : S -> A -> S)
  (l : list A) :
  (forall s a, f (Ret s) a = Ret (g s a)) ->
  forall s, fold_left f l (Ret s) = Ret (fold_left g l s).
Proof.
  intros H. induction l as [| a l IH]; intros s; cbn [fold_left]; trivial.
  rewrite H. apply IH.
Qed.

Lemma countLoopRaw_embed username gamesInPeriod st :
  countLoopRaw username (map embed gamesInPeriod) st
  = Ret (countLoop username gamesInPeriod st).
Proof.
  unfold countLoopRaw, countLoop. apply fold_left_ret. clear st.
  intros st mode.
  destruct st as [[stats startRatings] endRatings].
  cbn [after]. cbv zeta.
  rewrite (filter_map_comm _ (isMode mode) embed) by reflexivity.
  rewrite length_map.
  set (modeGames := filter (isMode mode) gamesInPeriod).
  destruct (List.length modeGames) as [| n]; rewrite ?nth_error_map;
    [| destruct (nth_error modeGames n) as [last |]];
    cbn [option_map after]; rewrite ?ratingOfRaw_embed; cbn [after];
    (destruct (get mode startRatings);
     [reflexivity
     | destruct (nth_error modeGames 0) as [firstInPeriod |];
       cbn [option_map after]; rewrite ?ratingOfRaw_embed; reflexivity]).
Qed.

Lemma aggregateRaw_embed username periodStart periodEnd allGames :
  aggregateRaw username periodStart periodEnd (map embed allGames)
  = Ret (embedResult (aggregate username periodStart periodEnd allGames)).
Proof.
  unfold aggregateRaw, aggregate. cbv zeta.
  rewrite sortRaw_embed, startLoopRaw_embed. cbn [after].
  rewrite (filter_map_comm _ (inPeriod periodStart periodEnd) embed) by reflexivity.
  rewrite countLoopRaw_embed. cbn [after].
  now destruct (countLoop _ _ _) as [[stats startRatings] endRatings].
Qed.

Lemma valueOf_lift (answer : option Response) :
  valueOf (option_map liftResponse answer)
  = Records (map embed (responseGames answer)).
Proof.
  destruct answer as [[[|] s [[[gs |]] |]] |]; reflexivity.
Qed.

Lemma contributionRaw_lift net username monthStr :
  contributionRaw (lift net) username monthStr
  = map embed (contribution net username monthStr).
Proof.
  unfold contributionRaw, recordsOf, lift, contribution.
  now rewrite valueOf_lift.
Qed.

Lemma iterable_lift net url : iterable (lift net url) = true.
Proof. unfold iterable, lift. now rewrite valueOf_lift. Qed.

Lemma flat_map_embed {A} (f : A -> list Game) (l : list A) :
  flat_map (fun a => map embed (f a)) l = map embed (flat_map f l).
Proof.
  induction l as [| a l IH]; cbn; trivial. now rewrite IH, map_app.
Qed.

(** On well-formed answers [getStatsRaw] is [getStats]. *)
Lemma getStatsRaw_lift net now username periodStart periodEnd periodType tr :
  getStatsRaw (lift net) now username periodStart periodEnd periodType tr
  = (Ret (embedResult
            (aggregate username periodStart periodEnd
               (fetchedGames net now username periodStart periodEnd
                  periodType))),
     tr ++ map (requestOf username)
             (monthsToFetch now periodStart periodEnd periodType)).
Proof.
  rewrite getStatsRaw_result
    by (apply Forall_forall; intros k _; apply iterable_lift).
  rewrite (flat_map_ext _ _ (contributionRaw_lift net username)).
  rewrite flat_map_embed, aggregateRaw_embed. reflexivity.
Qed.

(** *** Failures and well-formed archives *)

Lemma complete_embed g :
  complete g = true -> exists g', g = embed g'.
Proof.
  destruct g as [e c [w |] [b |]]; try discriminate.
  intros _. now exists (mkGame e c w b).
Qed.

Lemma complete_all l :
  forallb complete l = true -> exists l', l = map embed l'.
Proof.
  induction l as [| g l IH]; cbn; intros H; [now exists [] |].
  apply andb_true_iff in H as [Hg Hl].
  destruct (complete_embed g Hg) as [g' ->].
  destruct (IH Hl) as [l' ->]. now exists (g' :: l').
Qed.

Lemma failedRaw_valueOf answer :
  failedRaw answer = true -> valueOf answer = Records [].
Proof.
  destruct answer as [[[|] s [[| v] |]] |]; cbn; trivial; discriminate.
Qed.

Lemma shaped_valueOf answer :
  shaped answer = true -> exists l', valueOf answer = Records (map embed l').
Proof.
  unfold shaped. intros H. apply orb_true_iff in H as [F | W].
  - exists []. now apply failedRaw_valueOf.
  - destruct answer as [[[|] s [[| [[l |] |]] |]] |];
      try discriminate; cbn in *.
    + apply complete_all in W as [l' ->]. now exists l'.
    + now exists [].
Qed.

Lemma shaped_records net username months :
  Forall (fun k => shaped (net (requestOf username k)) = true) months ->
  Forall (fun k => iterable (net (requestOf username k)) = true) months
  /\ exists l', flat_map (contributionRaw net username) months = map embed l'.
Proof.
  induction 1 as [| k ks Hk _ [I [l' E]]].
  - split; [constructor | now exists []].
  - destruct (shaped_valueOf _ Hk) as [lk V]. split.
    + constructor; [| exact I]. unfold iterable. now rewrite V.
    + exists (lk ++ l'). cbn [flat_map].
      unfold contributionRaw at 1, recordsOf. now rewrite V, E, map_app.
Qed.

(** With failures and well-formed archives only, [getStatsRaw] returns,
    after one request per month key. *)
Lemma getStatsRaw_shaped net now username periodStart periodEnd periodType tr :
  Forall (fun k => shaped (net (requestOf username k)) = true)
    (monthsToFetch now periodStart periodEnd periodType) ->
  exists r,
    getStatsRaw net now username periodStart periodEnd periodType tr
    = (Ret r,
       tr ++ map (requestOf username)
               (monthsToFetch now periodStart periodEnd periodType))
    /\ aggregateRaw username periodStart periodEnd
         (flat_map (contributionRaw net username)
            (monthsToFetch now periodStart periodEnd periodType))
       = Ret r.
Proof.
  intros S. destruct (shaped_records _ _ _ S) as [I [l' E]].
  rewrite (getStatsRaw_result _ _ _ _ _ _ _ I), E, aggregateRaw_embed.
  eexists. split; reflexivity.
Qed.

Lemma contributionRaw_failed net username months :
  Forall (fun k => failedRaw (net (requestOf username k)) = true) months ->
  Forall (fun k => iterable (net (requestOf username k)) = true) months
  /\ flat_map (contributionRaw net username) months = [].
Proof.
  induction 1 as [| k ks Hk _ [I E]].
  - split; [constructor | reflexivity].
  - pose proof (failedRaw_valueOf _ Hk) as V. split.
    + constructor; [| exact I]. unfold iterable. now rewrite V.
    + cbn [flat_map]. unfold contributionRaw at 1, recordsOf.
      now rewrite V, E.
Qed.

End RawFacts.


(** ** Statements about [handleStats] and [getStats] *)

Import JSDate JSString Stats Notions.
Import DateFacts StringFacts ResolverFacts FetchFacts AggregateFacts HandlerFacts.
Import RawNotions RawFacts.

Lemma count_occ_filter {A} (dec : forall x y : A, {x = y} + {x <> y})
  (f : A -> bool) (l : list A) (x : A) :
  count_occ dec (filter f l) x = if f x then count_occ dec l x else 0%nat.
Proof.
  induction l as [| a l IH]; cbn.
  - now destruct (f x).
  - destruct (f a) eqn:Fa; cbn; destruct (dec a x) as [-> | N]; rewrite IH.
    + now rewrite Fa.
    + reflexivity.
    + now rewrite Fa.
    + reflexivity.
Qed.

Lemma compare_app (p a b : string) :
  String.compare (p ++ a) (p ++ b) = String.compare a b.
Proof.
  induction p as [| c p IH]; cbn; trivial.
  assert (E : Ascii.compare c c = Eq) by apply N.compare_refl.
  now rewrite E.
Qed.

(** C1. In the week across the month boundary, the blitz end rating that
    [getStats] reports is 1500, the subject's rating in the game of
    30 September: the archive of October is fetched before the one of
    September and the in-period games are never sorted. The in-period blitz
    game that is last by end time is the one of 1 October, rating 1510. *)
Theorem end_rating_follows_fetch_order :
  exists r tr,
    getStats Scenario.net Scenario.now "alice" Scenario.weekStart
      Scenario.weekEnd weekly [] = (Ret r, tr)
    /\ get blitz (endRatings r) = Some 1500
    /\ pop (sortGames (filter (isMode blitz) (gamesInPeriod r)))
       = Some Scenario.gOct
    /\ ratingOf "alice" Scenario.gOct = 1510.
Proof.
  rewrite getStats_result. eexists _, _. split; [reflexivity |].
  vm_compute. repeat split; reflexivity.
Qed.

(** C3. In the same week no blitz game precedes the period, so the start
    rating is the fallback; [getStats] reports 1510, the subject's rating
    in the game of 1 October, which comes first in fetch order. The first
    in-period blitz game by end time is the one of 30 September, rating
    1500. *)
Theorem start_fallback_follows_fetch_order :
  exists r tr,
    getStats Scenario.net Scenario.now "alice" Scenario.weekStart
      Scenario.weekEnd weekly [] = (Ret r, tr)
    /\ filter (beforePeriod Scenario.weekStart blitz)
         (fetchedGames Scenario.net Scenario.now "alice" Scenario.weekStart
            Scenario.weekEnd weekly) = []
    /\ get blitz (startRatings r) = Some 1510
    /\ hd_error (sortGames (filter (isMode blitz) (gamesInPeriod r)))
       = Some Scenario.gSep
    /\ ratingOf "alice" Scenario.gSep = 1500.
Proof.
  rewrite getStats_result. eexists _, _. split; [reflexivity |].
  vm_compute. repeat split; reflexivity.
Qed.

(** C2, as stated, fails: for a record in which neither side is the
    subject, [getStats] returns normally and reports the rating of black. *)
Lemma neither_side_counterexample :
  toLowerCase (API.username (white Scenario.gOther)) <> toLowerCase "alice"
  /\ toLowerCase (API.username (black Scenario.gOther)) <> toLowerCase "alice"
  /\ exists r tr,
       getStats Scenario.netOther Scenario.now "alice" Scenario.weekStart
         Scenario.weekEnd weekly [] = (Ret r, tr)
       /\ endGame Scenario.weekStart Scenario.weekEnd
            (fetchedGames Scenario.netOther Scenario.now "alice"
               Scenario.weekStart Scenario.weekEnd weekly) blitz
          = Some Scenario.gOther
       /\ get blitz (endRatings r) = Some (rating (black Scenario.gOther)).
Proof.
  split; [vm_compute; discriminate |].
  split; [vm_compute; discriminate |].
  rewrite getStats_result. eexists _, _. split; [reflexivity |].
  vm_compute. split; reflexivity.
Qed.

(** C2, amended. [getStats] raises no failure: it returns a result after
    requesting every month key. When the white username of the game a
    rating is read from differs from the requested one (compared in lower
    case), the rating reported is the one of black, whether black matches
    or not. *)
Theorem white_mismatch_takes_black (net : Network) (now : Z) (username : string)
  (periodStart periodEnd : Z) (periodType : PeriodType) (tr : list string)
  (mode : Mode) (g : Game) :
  toLowerCase (API.username (white g)) <> toLowerCase username ->
  exists r,
    getStats net now username periodStart periodEnd periodType tr
    = (Ret r, tr ++ map (requestOf username)
                      (monthsToFetch now periodStart periodEnd periodType))
    /\ (endGame periodStart periodEnd
          (fetchedGames net now username periodStart periodEnd periodType) mode
        = Some g ->
        get mode (endRatings r) = Some (rating (black g)))
    /\ (startGame periodStart periodEnd
          (fetchedGames net now username periodStart periodEnd periodType) mode
        = Some g ->
        get mode (startRatings r) = Some (rating (black g))).
Proof.
  intros H. rewrite getStats_result. eexists. split; [reflexivity |].
  assert (R : ratingOf username g = rating (black g)).
  { unfold ratingOf. apply String.eqb_neq in H. now rewrite H. }
  split; intros E.
  - now rewrite aggregate_end, E; cbn; rewrite R.
  - now rewrite aggregate_start, E; cbn; rewrite R.
Qed.

Lemma white_mismatch_takes_black_witness :
  exists r,
    getStats Scenario.netOther Scenario.now "alice" Scenario.weekStart
      Scenario.weekEnd weekly []
    = (Ret r, [] ++ map (requestOf "alice")
                      (monthsToFetch Scenario.now Scenario.weekStart
                         Scenario.weekEnd weekly))
    /\ get blitz (endRatings r) = Some 1800
    /\ get blitz (startRatings r) = Some 1800.
Proof.
  destruct (white_mismatch_takes_black Scenario.netOther Scenario.now "alice"
              Scenario.weekStart Scenario.weekEnd weekly [] blitz Scenario.gOther)
    as (r & E & He & Hs).
  - vm_compute; discriminate.
  - exists r. split; [exact E |].
    split; [apply He | apply Hs]; vm_compute; reflexivity.
Defined.

(** C4, as stated, fails: when an archive answers with the JSON body
    [{"games": 5}], [fetchGamesForMonth] returns that value and not an
    empty list, and [getStats] throws after this one request, with two
    more months left to fetch. *)
Lemma malformed_payload_escapes :
  monthsToFetch Scenario.now Scenario.weekStart Scenario.weekEnd weekly
  = ["2024-10"; "2024-8"; "2024-9"]%string
  /\ failedRaw (RawScenario.notIterable
                  "https://api.chess.com/pub/player/alice/games/2024/10"%string)
     = false
  /\ Raw.fetchGamesForMonthRaw RawScenario.notIterable "alice" "2024" "10" []
     = (Ret Raw.NotIterable,
        ["https://api.chess.com/pub/player/alice/games/2024/10"%string])
  /\ Raw.getStatsRaw RawScenario.notIterable Scenario.now "alice"
       Scenario.weekStart Scenario.weekEnd weekly []
     = (Throw TypeError,
        ["https://api.chess.com/pub/player/alice/games/2024/10"%string]).
Proof. repeat split; vm_compute; reflexivity. Qed.

(** C4, amended. A request that fails by a network error, a non-success
    status or a body that is not JSON (or is [null]) makes
    [fetchGamesForMonth] return the empty list. When every answer to a
    month request is such a failure or a well-formed archive, [getStats]
    throws nothing, requests every month key, and aggregates the records
    contributed, none for a request that fails. When every request fails
    the result has all counts zero and all ratings null. *)
Theorem failed_fetch_is_absorbed (net : Raw.RawNetwork) (now : Z)
  (username : string) (periodStart periodEnd : Z) (periodType : PeriodType)
  (tr : list string) :
  let months := monthsToFetch now periodStart periodEnd periodType in
  (forall year month tr0,
     failedRaw (net (archiveUrl username year month)) = true ->
     Raw.fetchGamesForMonthRaw net username year month tr0
     = (Ret (Raw.Records []), tr0 ++ [archiveUrl username year month]))
  /\ (Forall (fun k => shaped (net (requestOf username k)) = true) months ->
      exists r,
        Raw.getStatsRaw net now username periodStart periodEnd periodType tr
        = (Ret r, tr ++ map (requestOf username) months)
        /\ Raw.aggregateRaw username periodStart periodEnd
             (flat_map (contributionRaw net username) months)
           = Ret r
        /\ forall k,
             failedRaw (net (requestOf username k)) = true ->
             contributionRaw net username k = [])
  /\ (Forall (fun k => failedRaw (net (requestOf username k)) = true) months ->
      Raw.getStatsRaw net now username periodStart periodEnd periodType tr
      = (Ret noDataRaw, tr ++ map (requestOf username) months)).
Proof.
  intros months. split; [| split].
  - intros year month tr0 F.
    now rewrite fetchGamesForMonthRaw_result, failedRaw_valueOf.
  - intros S.
    destruct (getStatsRaw_shaped net now username periodStart periodEnd
                periodType tr S) as [r [E A]].
    exists r. split; [exact E |]. split; [exact A |].
    intros k F. unfold contributionRaw, recordsOf.
    now rewrite failedRaw_valueOf.
  - intros F. destruct (contributionRaw_failed _ _ _ F) as [I E].
    rewrite (getStatsRaw_result _ _ _ _ _ _ _ I). fold months.
    now rewrite E.
Qed.

Lemma failed_fetch_is_absorbed_witness :
  failedRaw (RawScenario.mixed
               "https://api.chess.com/pub/player/alice/games/2024/10"%string)
  = true
  /\ failedRaw (RawScenario.mixed
                  "https://api.chess.com/pub/player/alice/games/2024/08"%string)
     = true
  /\ exists r,
       Raw.getStatsRaw RawScenario.mixed Scenario.now "alice"
         Scenario.weekStart Scenario.weekEnd weekly []
       = (Ret r,
          [] ++ map (requestOf "alice")
                  (monthsToFetch Scenario.now Scenario.weekStart
                     Scenario.weekEnd weekly))
       /\ Raw.aggregateRaw "alice" Scenario.weekStart Scenario.weekEnd
            (flat_map (contributionRaw RawScenario.mixed "alice")
               (monthsToFetch Scenario.now Scenario.weekStart
                  Scenario.weekEnd weekly))
          = Ret r
       /\ get blitz (Raw.stats r) = 1%nat.
Proof.
  split; [reflexivity |]. split; [reflexivity |].
  destruct (failed_fetch_is_absorbed RawScenario.mixed Scenario.now "alice"
              Scenario.weekStart Scenario.weekEnd weekly [])
    as (_ & S & _).
  destruct S as (r & E & A & _); [vm_compute; repeat constructor |].
  exists r. split; [exact E |]. split; [exact A |].
  apply (f_equal (fun o => match o with
                           | Ret x => get blitz (Raw.stats x)
                           | Throw _ => 0%nat
                           end)) in A.
  rewrite <- A. vm_compute. reflexivity.
Defined.

Lemma previous_key periodStart :
  0 <= periodStart ->
  monthKey
    (getUTCFullYear
       (UTC (getUTCFullYear periodStart) (getUTCMonth periodStart + 1 - 2) 1 0 0 0))
    (getUTCMonth
       (UTC (getUTCFullYear periodStart) (getUTCMonth periodStart + 1 - 2) 1 0 0 0)
     + 1)
  = monthKey (fst (previousMonth periodStart)) (snd (previousMonth periodStart)).
Proof.
  intros H.
  unfold previousMonth. unfold getUTCFullYear, getUTCMonth.
  pose proof (YearFromTime_epoch periodStart H) as Y.
  pose proof (MonthFromTime_range periodStart) as M.
  rewrite UTC_plain by lia.
  rewrite YearFromTime_MakeDate, MonthFromTime_MakeDate
    by (unfold MakeTime, msPerDay; lia).
  destruct (Z.eqb_spec (MonthFromTime periodStart) 0) as [E | N]; cbn [fst snd].
  - rewrite E. f_equal.
  - f_equal.
    + rewrite Z.div_small by lia. lia.
    + rewrite Z.mod_small by lia. lia.
Qed.

(** C5. For a period start at or after the epoch and not after the clock
    read by [getStats], as [handleStats] passes it, the month keys to
    fetch contain the key of the month before the month of [periodStart]
    exactly once, for every period type: December of the year before for
    a period start in January, the month before in the same year
    otherwise. *)
Theorem previous_month_once (now periodStart periodEnd : Z)
  (periodType : PeriodType) :
  0 <= periodStart <= now ->
  let year := fst (previousMonth periodStart) in
  let month := snd (previousMonth periodStart) in
  count_occ string_dec (monthsToFetch now periodStart periodEnd periodType)
    (monthKey year month) = 1%nat
  /\ (getUTCMonth periodStart = 0 ->
      year = getUTCFullYear periodStart - 1 /\ month = 12)
  /\ (getUTCMonth periodStart <> 0 ->
      year = getUTCFullYear periodStart /\ month = getUTCMonth periodStart).
Proof.
  intros [H L] year month.
  assert (C : In (monthKey year month)
                (candidateMonths periodStart periodEnd periodType)).
  { subst year month. rewrite <- (previous_key periodStart H).
    apply candidateMonths_prev. }
  assert (R : 0 <= year /\ 1 <= month <= 12).
  { pose proof (YearFromTime_epoch periodStart H) as Y.
    pose proof (MonthFromTime_range periodStart) as M.
    subst year month. unfold previousMonth. unfold getUTCFullYear, getUTCMonth.
    destruct (Z.eqb_spec (MonthFromTime periodStart) 0); cbn [fst snd]; lia. }
  split; [| split].
  - apply NoDup_count_occ'; [apply monthsToFetch_NoDup |].
    apply In_monthsToFetch. split; [exact C |].
    apply notAfter_notFuture; [tauto | tauto |].
    exact (previousMonth_notAfter periodStart now L).
  - intros E. subst year month. unfold previousMonth. rewrite E.
    split; reflexivity.
  - intros N. subst year month. unfold previousMonth.
    destruct (Z.eqb_spec (getUTCMonth periodStart) 0) as [E | _];
      [now elim N | split; reflexivity].
Qed.

Lemma previous_month_once_witness :
  Handler.periodStart yearly Scenario.now = 1704067200000
  /\ count_occ string_dec
       (monthsToFetch Scenario.now (Handler.periodStart yearly Scenario.now)
          (Handler.periodEnd yearly Scenario.now) yearly)
       (monthKey 2023 12) = 1%nat.
Proof.
  split; [vm_compute; reflexivity |].
  destruct (previous_month_once Scenario.now
              (Handler.periodStart yearly Scenario.now)
              (Handler.periodEnd yearly Scenario.now) yearly)
    as [A _]; [split; vm_compute; discriminate |].
  exact A.
Defined.

(** C6. The games in period that [getStats] returns are the fetched games
    whose end time lies in the closed interval from [periodStart] to
    [periodEnd], in fetch order and with their multiplicity, and the count
    of each mode is the number of games of that mode among them. *)
Theorem gamesInPeriod_exact (net : Network) (now : Z) (username : string)
  (periodStart periodEnd : Z) (periodType : PeriodType) (tr : list string) :
  exists r tr',
    getStats net now username periodStart periodEnd periodType tr = (Ret r, tr')
    /\ gamesInPeriod r
       = filter (fun g => (periodStart <=? end_time g * 1000)
                          && (end_time g * 1000 <=? periodEnd))
           (fetchedGames net now username periodStart periodEnd periodType)
    /\ (forall g,
          count_occ Game_eq_dec (gamesInPeriod r) g
          = if (periodStart <=? end_time g * 1000)
               && (end_time g * 1000 <=? periodEnd)
            then count_occ Game_eq_dec
                   (fetchedGames net now username periodStart periodEnd periodType) g
            else 0%nat)
    /\ (forall mode,
          get mode (stats r)
          = List.length
              (filter (fun g => String.eqb (time_class g) (modeName mode))
                 (gamesInPeriod r))).
Proof.
  rewrite getStats_result. eexists _, _. split; [reflexivity |].
  rewrite aggregate_games. split; [reflexivity |]. split.
  - intros g. apply (count_occ_filter Game_eq_dec (inPeriod periodStart periodEnd)).
  - intros mode. apply aggregate_count.
Qed.

(** C7. Every month key to fetch is the key of a bucket, and a bucket
    whose key is fetched is not later than the bucket containing [now]. *)
Theorem no_bucket_after_now (now periodStart periodEnd : Z)
  (periodType : PeriodType) (s : string) :
  In s (monthsToFetch now periodStart periodEnd periodType) ->
  isKey s
  /\ (forall year month,
        1 <= month <= 12 -> s = monthKey year month -> notAfter year month now).
Proof.
  intros H. split.
  - pose proof (monthsToFetch_keys now periodStart periodEnd periodType) as K.
    rewrite Forall_forall in K. auto.
  - intros year month Hm ->.
    apply In_monthsToFetch in H as [_ H].
    now apply notFuture_notAfter.
Qed.

Lemma no_bucket_after_now_witness :
  isKey "2024-10"
  /\ (forall year month,
        1 <= month <= 12 -> "2024-10"%string = monthKey year month ->
        notAfter year month Scenario.now).
Proof.
  apply (no_bucket_after_now Scenario.now Scenario.weekStart Scenario.weekEnd
           weekly "2024-10").
  vm_compute. left. reflexivity.
Defined.

(** C8. For a reference instant at or after the epoch (a clock reading),
    the window of every period type has [periodStart <= periodEnd]; the
    weekly window starts at 00:00:00 UTC of the most recent Monday, the
    reference day itself when it is a Monday, and ends at 23:59:59 UTC of
    the reference day. *)
Theorem window_ordered_weekly_monday (periodType : PeriodType) (now : Z) :
  0 <= now ->
  Handler.periodStart periodType now <= Handler.periodEnd periodType now
  /\ (exists k, 0 <= k <= 6
        /\ Handler.periodStart weekly now = (Day now - k) * msPerDay
        /\ getUTCDay (Handler.periodStart weekly now) = 1)
  /\ (getUTCDay now = 1 -> Handler.periodStart weekly now = Day now * msPerDay)
  /\ Handler.periodEnd weekly now
     = Day now * msPerDay + (23 * 3600 + 59 * 60 + 59) * 1000.
Proof.
  intros H. split; [| split; [| split]].
  - destruct periodType;
      [apply window_daily | apply window_weekly
      | apply window_monthly | apply window_yearly]; exact H.
  - exists (weekDiff now). split; [apply weekDiff_range |].
    rewrite weekly_start by exact H. split.
    + unfold MakeDate. lia.
    + unfold getUTCDay, WeekDay.
      rewrite Day_MakeDate by (unfold msPerDay; lia).
      apply weekDiff_monday.
  - intros Mon. rewrite weekly_start by exact H.
    unfold weekDiff. rewrite Mon. unfold MakeDate. cbn [Z.eqb]. lia.
  - unfold Handler.periodEnd, Handler.periodWindow; cbn [snd].
    rewrite day_end by exact H. unfold MakeDate, MakeTime. lia.
Qed.

Lemma window_ordered_weekly_monday_witness :
  Handler.periodStart weekly 1728993600000
  <= Handler.periodEnd weekly 1728993600000
  /\ (exists k, 0 <= k <= 6
        /\ Handler.periodStart weekly 1728993600000
           = (Day 1728993600000 - k) * msPerDay
        /\ getUTCDay (Handler.periodStart weekly 1728993600000) = 1)
  /\ (getUTCDay 1728993600000 = 1 ->
      Handler.periodStart weekly 1728993600000 = Day 1728993600000 * msPerDay)
  /\ Handler.periodEnd weekly 1728993600000
     = Day 1728993600000 * msPerDay + (23 * 3600 + 59 * 60 + 59) * 1000.
Proof. apply (window_ordered_weekly_monday weekly 1728993600000). lia. Defined.

(** C9. For every mode, the end rating is non-null exactly when the count
    is positive, and a positive count makes the start rating non-null
    too. *)
Theorem ratings_present_when_played (net : Network) (now : Z)
  (username : string) (periodStart periodEnd : Z) (periodType : PeriodType)
  (tr : list string) (mode : Mode) :
  exists r tr',
    getStats net now username periodStart periodEnd periodType tr = (Ret r, tr')
    /\ (get mode (endRatings r) <> None <-> (0 < get mode (stats r))%nat)
    /\ ((0 < get mode (stats r))%nat -> get mode (startRatings r) <> None).
Proof.
  rewrite getStats_result. eexists _, _. split; [reflexivity |].
  rewrite aggregate_end, aggregate_start, aggregate_count.
  unfold endGame, startGame.
  set (modeGames := filter (isMode mode) (filter (inPeriod periodStart periodEnd) _)).
  split; [split |].
  - intros H. destruct modeGames; [now elim H | cbn; lia].
  - intros H. destruct (pop modeGames) eqn:E; [discriminate |].
    apply pop_nil in E. rewrite E in H. cbn in H. lia.
  - intros H. destruct (pop (filter _ (sortGames _))); [discriminate |].
    destruct modeGames; [cbn in H; lia | discriminate].
Qed.

Lemma ratings_present_when_played_witness :
  exists r tr',
    getStats Scenario.net Scenario.now "alice" Scenario.weekStart
      Scenario.weekEnd weekly [] = (Ret r, tr')
    /\ get blitz (endRatings r) <> None
    /\ get blitz (startRatings r) <> None.
Proof.
  destruct (ratings_present_when_played Scenario.net Scenario.now "alice"
              Scenario.weekStart Scenario.weekEnd weekly [] blitz)
    as (r & tr' & E & He & Hs).
  exists r, tr'. split; [exact E |].
  assert (P : (0 < get blitz (stats r))%nat).
  { rewrite getStats_result in E.
    pose proof (f_equal (fun p => match fst p with
                                  | Ret a => a
                                  | Throw _ => noData
                                  end) E) as R.
    cbv beta iota delta [fst] in R. rewrite <- R. vm_compute. lia. }
  split; [apply He | apply Hs]; exact P.
Defined.

(** C10. The games in period keep the order in which the buckets were
    fetched (the period filter runs on the concatenation, before any sort
    by end time); the month keys are fetched in the order of their
    strings, in which, within a year, months 10 to 12 come before months 2
    to 9; and in the week across the month boundary the games in period
    are not in order of end time. *)
Theorem gamesInPeriod_in_fetch_order (net : Network) (now : Z)
  (username : string) (periodStart periodEnd : Z) (periodType : PeriodType)
  (tr : list string) :
  (exists r tr',
     getStats net now username periodStart periodEnd periodType tr = (Ret r, tr')
     /\ gamesInPeriod r
        = filter (inPeriod periodStart periodEnd)
            (flat_map (contribution net username)
               (monthsToFetch now periodStart periodEnd periodType))
     /\ tr' = tr ++ map (requestOf username)
                      (monthsToFetch now periodStart periodEnd periodType))
  /\ Sorted str_le (monthsToFetch now periodStart periodEnd periodType)
  /\ NoDup (monthsToFetch now periodStart periodEnd periodType)
  /\ (forall year late early,
        10 <= late <= 12 -> 2 <= early <= 9 ->
        String.ltb (monthKey year late) (monthKey year early) = true)
  /\ (exists r tr',
        getStats Scenario.net Scenario.now "alice" Scenario.weekStart
          Scenario.weekEnd weekly [] = (Ret r, tr')
        /\ gamesInPeriod r = [Scenario.gOct; Scenario.gSep]
        /\ ~ Sorted by_end_time (gamesInPeriod r)).
Proof.
  split; [| split; [| split; [| split]]].
  - rewrite getStats_result. eexists _, _. split; [reflexivity |].
    split; reflexivity.
  - rewrite monthsToFetch_eq. apply sortStrings_sorted.
  - apply monthsToFetch_NoDup.
  - intros year late early Hl He. unfold monthKey, String.ltb.
    rewrite compare_app.
    assert (L : late = 10 \/ late = 11 \/ late = 12) by lia.
    assert (E : early = 2 \/ early = 3 \/ early = 4 \/ early = 5 \/ early = 6
                \/ early = 7 \/ early = 8 \/ early = 9) by lia.
    destruct L as [-> | [-> | ->]];
      repeat (destruct E as [-> | E]; [reflexivity |]); subst early; reflexivity.
  - rewrite getStats_result. eexists _, _. split; [reflexivity |].
    split; [vm_compute; reflexivity |].
    intros S.
    replace (gamesInPeriod _) with [Scenario.gOct; Scenario.gSep] in S
      by (vm_compute; reflexivity).
    apply Sorted_inv in S as [_ S]. apply HdRel_inv in S.
    unfold by_end_time in S. cbn in S. lia.
Qed.

Lemma gamesInPeriod_in_fetch_order_witness :
  String.ltb (monthKey 2024 10) (monthKey 2024 9) = true.
Proof.
  apply (gamesInPeriod_in_fetch_order Scenario.net Scenario.now "alice"
           Scenario.weekStart Scenario.weekEnd weekly []); lia.
Defined.


(** * Further properties *)

Module WindowFacts.
Import JSDate Stats Notions DateFacts HandlerFacts.

Lemma MakeDay_first y m :
  0 <= m <= 11 -> MakeDay y m 1 = DayFromYear y + MonthStart (InLeapYear_of y) m.
Proof.
  intros H. unfold MakeDay.
  rewrite Z.div_small, Z.mod_small by lia. rewrite Z.add_0_r. lia.
Qed.

Lemma MakeDay_first_next y m :
  0 <= m <= 11 ->
  MakeDay y (m + 1) 1 = DayFromYear y + MonthStart (InLeapYear_of y) (m + 1).
Proof.
  intros H. destruct (Z.eq_dec m 11) as [-> | N].
  - change (11 + 1) with 12. unfold MakeDay.
    change (12 / 12) with 1. change (12 mod 12) with 0.
    rewrite DayFromYear_succ, DaysInYear_MonthStart.
    change (MonthStart (InLeapYear_of (y + 1)) 0) with 0. lia.
  - apply MakeDay_first. lia.
Qed.

(** The days of month [m] of year [y] are those from its first day up to
    the first day of the next month. *)
Lemma day_in_month d y m :
  0 <= m <= 11 ->
  (MakeDay y m 1 <= d < MakeDay y (m + 1) 1
   <-> YearFromDay d = y
       /\ MonthFromDay (InLeapYear_of y) (d - DayFromYear y) = m).
Proof.
  intros Hm. rewrite MakeDay_first, MakeDay_first_next by assumption.
  pose proof (MonthLength (InLeapYear_of y) m Hm) as L.
  split.
  - intros H.
    assert (B : 0 <= MonthStart (InLeapYear_of y) m
                /\ MonthStart (InLeapYear_of y) (m + 1)
                   <= MonthStart (InLeapYear_of y) 12).
    { assert (C : m = 0 \/ m = 1 \/ m = 2 \/ m = 3 \/ m = 4 \/ m = 5 \/ m = 6
                  \/ m = 7 \/ m = 8 \/ m = 9 \/ m = 10 \/ m = 11) by lia.
      destruct (InLeapYear_of y);
        repeat (destruct C as [-> | C]; [cbn; lia |]); subst m; cbn; lia. }
    split.
    + apply YearFromDay_unique.
      rewrite DayFromYear_succ, DaysInYear_MonthStart. lia.
    + apply MonthFromDay_unique; [assumption | lia].
  - intros [<- E].
    pose proof (YearFromDay_bounds d) as B.
    rewrite DayFromYear_succ, DaysInYear_MonthStart in B.
    pose proof (MonthFromDay_bounds (InLeapYear_of (YearFromDay d))
                  (d - DayFromYear (YearFromDay d)) ltac:(lia)) as MB.
    rewrite E in MB. lia.
Qed.

Lemma time_in_month t y m :
  0 <= m <= 11 ->
  (MakeDay y m 1 <= Day t < MakeDay y (m + 1) 1
   <-> YearFromTime t = y /\ MonthFromTime t = m).
Proof.
  intros Hm. rewrite (day_in_month (Day t) y m Hm).
  unfold YearFromTime, MonthFromTime, InLeapYear, DayWithinYear, YearFromTime.
  split; intros [<- E]; split; trivial.
Qed.

Lemma time_in_year t y :
  DayFromYear y <= Day t < DayFromYear (y + 1) <-> YearFromTime t = y.
Proof.
  split.
  - apply YearFromDay_unique.
  - intros <-. apply YearFromDay_bounds.
Qed.

Lemma monthly_window now :
  0 <= now ->
  Handler.periodStart monthly now
  = MakeDay (YearFromTime now) (MonthFromTime now) 1 * msPerDay
  /\ Handler.periodEnd monthly now
     = (MakeDay (YearFromTime now) (MonthFromTime now + 1) 1 - 1) * msPerDay
       + 86399000.
Proof.
  intros H. unfold Handler.periodStart, Handler.periodEnd, Handler.periodWindow;
    cbn [fst snd].
  unfold getUTCFullYear, getUTCMonth.
  pose proof (YearFromTime_epoch now H).
  rewrite !UTC_plain by lia.
  rewrite (MakeDay_date _ (MonthFromTime now + 1) 0).
  unfold MakeDate, MakeTime. split; lia.
Qed.

Lemma yearly_window now :
  0 <= now ->
  Handler.periodStart yearly now = DayFromYear (YearFromTime now) * msPerDay
  /\ Handler.periodEnd yearly now
     = (DayFromYear (YearFromTime now + 1) - 1) * msPerDay + 86399000.
Proof.
  intros H. unfold Handler.periodStart, Handler.periodEnd, Handler.periodWindow;
    cbn [fst snd].
  unfold getUTCFullYear.
  pose proof (YearFromTime_epoch now H).
  rewrite !UTC_plain by lia.
  rewrite (MakeDay_date _ 11 31).
  rewrite (MakeDay_first _ 0), (MakeDay_first _ 11) by lia.
  rewrite DayFromYear_succ, DaysInYear_MonthStart.
  unfold MakeDate, MakeTime.
  destruct (InLeapYear_of (YearFromTime now)); cbn; split; lia.
Qed.

Lemma daily_window now :
  0 <= now ->
  Handler.periodStart daily now = Day now * msPerDay
  /\ Handler.periodEnd daily now = Day now * msPerDay + 86399000.
Proof.
  intros H. unfold Handler.periodStart, Handler.periodEnd, Handler.periodWindow;
    cbn [fst snd].
  rewrite !day_end by assumption. unfold MakeDate, MakeTime. split; lia.
Qed.

Lemma weekly_window now :
  0 <= now ->
  Handler.periodStart weekly now = (Day now - weekDiff now) * msPerDay
  /\ Handler.periodEnd weekly now = Day now * msPerDay + 86399000.
Proof.
  intros H. split.
  - rewrite weekly_start by assumption. unfold MakeDate. lia.
  - unfold Handler.periodEnd, Handler.periodWindow; cbn [snd].
    rewrite day_end by assumption. unfold MakeDate, MakeTime. lia.
Qed.

(** An instant on a whole second lies between midnight of day [a] and
    23:59:59 of day [b] exactly when its day does. *)
(** The window that [handleStats] computes never starts after the
    clock. *)
Lemma periodStart_le_now periodType now :
  0 <= now -> Handler.periodStart periodType now <= now.
Proof.
  intros H.
  assert (D : Day now * msPerDay <= now).
  { unfold Day, msPerDay. Z.div_mod_to_equations. lia. }
  destruct periodType.
  - destruct (daily_window now H) as [-> _]. exact D.
  - destruct (weekly_window now H) as [-> _].
    pose proof (weekDiff_range now). unfold msPerDay in *. lia.
  - destruct (monthly_window now H) as [-> _].
    pose proof (proj2 (time_in_month now _ _ (MonthFromTime_range now))
                  (conj eq_refl eq_refl)) as [L _].
    unfold msPerDay in *. lia.
  - destruct (yearly_window now H) as [-> _].
    pose proof (proj2 (time_in_year now _) eq_refl) as [L _].
    unfold msPerDay in *. lia.
Qed.

Lemma seconds_between_days a b e :
  (a * msPerDay <= e * 1000 <= b * msPerDay + 86399000)
  <-> a <= Day (e * 1000) <= b.
Proof. unfold Day, msPerDay. split; intros H; Z.div_mod_to_equations; lia. Qed.

End WindowFacts.

Import JSDate JSString Stats Notions.
Import DateFacts HandlerFacts WindowFacts.

Lemma inPeriod_iff periodStart periodEnd g :
  inPeriod periodStart periodEnd g = true
  <-> periodStart <= end_time g * 1000 <= periodEnd.
Proof.
  unfold inPeriod. rewrite andb_true_iff, !Z.leb_le. tauto.
Qed.

(** X1. A game is counted in the period exactly when its end time falls,
    in UTC, on the day of the reference instant (daily), from the Monday
    of its week to its day (weekly), in its month (monthly), or in its
    year (yearly). *)
Theorem window_membership (periodType : PeriodType) (now : Z) (g : Game) :
  0 <= now ->
  let t := end_time g * 1000 in
  inPeriod (Handler.periodStart periodType now)
    (Handler.periodEnd periodType now) g = true
  <-> match periodType with
      | daily => Day t = Day now
      | weekly => Day now - weekDiff now <= Day t <= Day now
      | monthly =>
          getUTCFullYear t = getUTCFullYear now /\ getUTCMonth t = getUTCMonth now
      | yearly => getUTCFullYear t = getUTCFullYear now
      end.
Proof.
  intros H t. rewrite inPeriod_iff. fold t.
  destruct periodType.
  - destruct (daily_window now H) as [-> ->]. subst t.
    rewrite seconds_between_days. lia.
  - destruct (weekly_window now H) as [-> ->]. subst t.
    now rewrite seconds_between_days.
  - destruct (monthly_window now H) as [-> ->]. subst t.
    rewrite seconds_between_days.
    unfold getUTCFullYear, getUTCMonth.
    rewrite <- (time_in_month _ _ _ (MonthFromTime_range now)). lia.
  - destruct (yearly_window now H) as [-> ->]. subst t.
    rewrite seconds_between_days.
    unfold getUTCFullYear. rewrite <- time_in_year. lia.
Qed.

Lemma window_membership_witness :
  inPeriod (Handler.periodStart weekly Scenario.now)
    (Handler.periodEnd weekly Scenario.now) Scenario.gOct = true
  <-> Day Scenario.now - weekDiff Scenario.now
      <= Day (end_time Scenario.gOct * 1000) <= Day Scenario.now.
Proof.
  apply (window_membership weekly Scenario.now Scenario.gOct).
  unfold Scenario.now. lia.
Defined.

Module CoverFacts.
Import JSDate JSString Stats Notions.
Import DateFacts StringFacts ResolverFacts HandlerFacts WindowFacts.

(** The first day of the month with linear index [l] (twelve times the
    year plus the month) is [MakeDay 0 l 1]. *)
Lemma MakeDay_linear y m :
  0 <= m <= 11 -> MakeDay 0 (y * 12 + m) 1 = MakeDay y m 1.
Proof.
  intros H. unfold MakeDay.
  assert (E1 : (y * 12 + m) / 12 = y) by (Z.div_mod_to_equations; lia).
  assert (E2 : (y * 12 + m) mod 12 = m) by (Z.div_mod_to_equations; lia).
  rewrite E1, E2, Z.div_small, Z.mod_small by lia.
  now rewrite Z.add_0_r.
Qed.

Lemma linear_bounds t :
  MakeDay 0 (YearFromTime t * 12 + MonthFromTime t) 1 <= Day t
  < MakeDay 0 (YearFromTime t * 12 + MonthFromTime t + 1) 1.
Proof.
  pose proof (MonthFromTime_range t) as R.
  pose proof (proj2 (time_in_month t _ _ R) (conj eq_refl eq_refl)) as B.
  rewrite MakeDay_linear by assumption.
  replace (MakeDay 0 (YearFromTime t * 12 + MonthFromTime t + 1) 1)
    with (MakeDay (YearFromTime t) (MonthFromTime t + 1) 1); [exact B |].
  unfold MakeDay.
  assert (E1 : (YearFromTime t * 12 + MonthFromTime t + 1) / 12
               = YearFromTime t + (MonthFromTime t + 1) / 12)
    by (Z.div_mod_to_equations; lia).
  assert (E2 : (YearFromTime t * 12 + MonthFromTime t + 1) mod 12
               = (MonthFromTime t + 1) mod 12)
    by (Z.div_mod_to_equations; lia).
  now rewrite E1, E2.
Qed.

Lemma first_day_step l k :
  0 <= k -> MakeDay 0 l 1 + 28 * k <= MakeDay 0 (l + k) 1.
Proof.
  intros H. revert k H. apply natlike_ind.
  - replace (l + 0) with l by lia. lia.
  - intros k Hk IH.
    pose proof (MakeDay_next_month 0 (l + k) 1) as N.
    replace (l + Z.succ k) with (l + k + 1) by lia. lia.
Qed.

Lemma first_day_lt l1 l2 :
  MakeDay 0 l1 1 < MakeDay 0 (l2 + 1) 1 -> l1 <= l2.
Proof.
  intros H. destruct (Z.le_gt_cases l1 l2) as [L | G]; trivial.
  pose proof (first_day_step (l2 + 1) (l1 - (l2 + 1)) ltac:(lia)) as S.
  replace (l2 + 1 + (l1 - (l2 + 1))) with l1 in S by lia. lia.
Qed.

(** An instant whose day lies between the days of two instants less than
    four weeks apart falls in the month of one of them. *)
Lemma bucket_between t a b :
  Day a <= Day t <= Day b -> Day b - Day a < 28 ->
  (YearFromTime t = YearFromTime a /\ MonthFromTime t = MonthFromTime a)
  \/ (YearFromTime t = YearFromTime b /\ MonthFromTime t = MonthFromTime b
      /\ MonthFromTime a <> MonthFromTime b).
Proof.
  intros H Hs.
  pose proof (linear_bounds t) as Bt. pose proof (linear_bounds a) as Ba.
  pose proof (linear_bounds b) as Bb.
  pose proof (MonthFromTime_range t) as Rt.
  pose proof (MonthFromTime_range a) as Ra.
  pose proof (MonthFromTime_range b) as Rb.
  set (lt := YearFromTime t * 12 + MonthFromTime t) in *.
  set (la := YearFromTime a * 12 + MonthFromTime a) in *.
  set (lb := YearFromTime b * 12 + MonthFromTime b) in *.
  assert (L1 : la <= lt) by (apply first_day_lt; lia).
  assert (L2 : lt <= lb) by (apply first_day_lt; lia).
  assert (L3 : lb <= la + 1).
  { destruct (Z.le_gt_cases lb (la + 1)) as [L | G]; trivial.
    pose proof (first_day_step (la + 1) (lb - (la + 1)) ltac:(lia)) as S.
    replace (la + 1 + (lb - (la + 1))) with lb in S by lia. lia. }
  subst lt la lb.
  destruct (Z.eq_dec (YearFromTime t * 12 + MonthFromTime t)
              (YearFromTime a * 12 + MonthFromTime a)) as [E | N].
  - left. lia.
  - right. lia.
Qed.

Lemma Day_of_midnight d : Day (d * msPerDay) = d.
Proof. unfold Day, msPerDay. now rewrite Z.div_mul. Qed.

Lemma Day_of_evening d : Day (d * msPerDay + 86399000) = d.
Proof. unfold Day, msPerDay. Z.div_mod_to_equations. lia. Qed.

(** One turn of the yearly loop, from the first instant of a month. *)
Lemma first_instant_fields y k :
  getUTCFullYear (MakeDate (MakeDay y k 1) 0) = y + k / 12
  /\ getUTCMonth (MakeDate (MakeDay y k 1) 0) = k mod 12
  /\ setUTCMonth (MakeDate (MakeDay y k 1) 0)
       (getUTCMonth (MakeDate (MakeDay y k 1) 0) + 1)
     = MakeDate (MakeDay y (k + 1) 1) 0.
Proof.
  assert (T : 0 <= 0 < msPerDay) by (unfold msPerDay; lia).
  assert (D : 1 <= 1 <= 28) by lia.
  pose proof (YearFromTime_MakeDate y k 1 0 D T) as Ey.
  pose proof (MonthFromTime_MakeDate y k 1 0 D T) as Em.
  pose proof (DateFromTime_MakeDate y k 1 0 D T) as Ed.
  unfold getUTCFullYear, getUTCMonth, setUTCMonth.
  rewrite Ey, Em, Ed.
  split; [reflexivity | split; [reflexivity |]].
  assert (Tw : TimeWithinDay (MakeDate (MakeDay y k 1) 0) = 0).
  { unfold TimeWithinDay, MakeDate. rewrite Z.add_0_r. apply Z_mod_mult. }
  rewrite Tw. f_equal. unfold MakeDay.
  assert (E1 : y + k / 12 + (k mod 12 + 1) / 12 = y + (k + 1) / 12)
    by (Z.div_mod_to_equations; lia).
  assert (E2 : (k mod 12 + 1) mod 12 = (k + 1) mod 12)
    by (Z.div_mod_to_equations; lia).
  now rewrite E1, E2.
Qed.

Lemma first_instant_mono y k j :
  k <= j -> MakeDate (MakeDay y k 1) 0 <= MakeDate (MakeDay y j 1) 0.
Proof.
  intros H. unfold MakeDate, msPerDay.
  assert (MakeDay y k 1 <= MakeDay y j 1); [| lia].
  replace j with (k + (j - k)) by lia.
  assert (G : forall n, 0 <= n -> MakeDay y k 1 <= MakeDay y (k + n) 1).
  { apply natlike_ind; [replace (k + 0) with k by lia; lia |].
    intros n Hn IH. pose proof (MakeDay_next_month y (k + n) 1).
    replace (k + Z.succ n) with (k + n + 1) by lia. lia. }
  apply G. lia.
Qed.

Lemma yearLoop_reaches y periodEnd fuel : forall k j acc,
  k <= j -> MakeDate (MakeDay y j 1) 0 <= periodEnd ->
  (Z.to_nat (j - k) < fuel)%nat ->
  In (monthKey (y + j / 12) (j mod 12 + 1))
     (yearLoop fuel (MakeDate (MakeDay y k 1) 0) periodEnd acc).
Proof.
  induction fuel as [| fuel IH]; intros k j acc Hkj Hj Hf; [lia |].
  cbn [yearLoop].
  pose proof (first_instant_mono y k j Hkj) as Mo.
  destruct (Z.leb_spec (MakeDate (MakeDay y k 1) 0) periodEnd) as [L | G];
    [| lia].
  destruct (first_instant_fields y k) as (Ey & Em & Es).
  rewrite Es, Ey, Em.
  destruct (Z.eq_dec k j) as [-> | N].
  - apply yearLoop_incl, In_Set_add. now left.
  - apply IH; lia.
Qed.

Lemma yearFuel_reaches y periodEnd j :
  0 <= j -> MakeDate (MakeDay y j 1) 0 <= periodEnd ->
  (Z.to_nat (j - 0) < yearFuel (MakeDate (MakeDay y 0 1) 0) periodEnd)%nat.
Proof.
  intros Hj H. unfold yearFuel.
  assert (S : forall n, 0 <= n -> MakeDay y 0 1 + 28 * n <= MakeDay y n 1).
  { apply natlike_ind; [lia |].
    intros n Hn IH. pose proof (MakeDay_next_month y n 1).
    replace (Z.succ n) with (n + 1) by lia. lia. }
  specialize (S j Hj).
  assert (j <= (periodEnd - MakeDate (MakeDay y 0 1) 0) / (28 * msPerDay)).
  { apply Z.div_le_lower_bound; [unfold msPerDay; lia |].
    unfold MakeDate, msPerDay in *. lia. }
  lia.
Qed.

Lemma candidateMonths_start periodStart periodEnd periodType :
  periodType <> yearly ->
  In (monthKey (getUTCFullYear periodStart) (getUTCMonth periodStart + 1))
     (candidateMonths periodStart periodEnd periodType).
Proof.
  intros N. destruct periodType; [| | | now elim N]; unfold candidateMonths.
  - apply In_Set_add. now left.
  - destruct (negb _).
    + apply In_Set_add. right. apply In_Set_add. now left.
    + apply In_Set_add. now left.
  - apply In_Set_add. now left.
Qed.

Lemma candidateMonths_end periodStart periodEnd :
  getUTCMonth periodStart <> getUTCMonth periodEnd ->
  In (monthKey (getUTCFullYear periodEnd) (getUTCMonth periodEnd + 1))
     (candidateMonths periodStart periodEnd weekly).
Proof.
  intros N. unfold candidateMonths.
  destruct (Z.eqb_spec (getUTCMonth periodStart + 1) (getUTCMonth periodEnd + 1));
    [lia |].
  cbn [negb]. apply In_Set_add. now left.
Qed.

Lemma candidateMonths_year periodStart periodEnd j :
  0 <= periodStart -> 0 <= j ->
  MakeDate (MakeDay (getUTCFullYear periodStart) j 1) 0 <= periodEnd ->
  In (monthKey (getUTCFullYear periodStart + j / 12) (j mod 12 + 1))
     (candidateMonths periodStart periodEnd yearly).
Proof.
  intros H Hj Hp. unfold candidateMonths.
  pose proof (YearFromTime_epoch periodStart H) as Y.
  change (YearFromTime periodStart) with (getUTCFullYear periodStart) in Y.
  pose proof (UTC_plain (getUTCFullYear periodStart) 0 1 0 0 0 ltac:(lia)) as E.
  change (MakeTime 0 0 0 0) with 0 in E. rewrite E.
  apply yearLoop_reaches; [assumption | assumption |].
  now apply yearFuel_reaches.
Qed.

Lemma fields_of_day a b :
  Day a = Day b ->
  YearFromTime a = YearFromTime b /\ MonthFromTime a = MonthFromTime b.
Proof.
  intros E.
  unfold MonthFromTime, InLeapYear, DayWithinYear, YearFromTime.
  now rewrite E.
Qed.

Lemma getUTCFullYear_eq t : getUTCFullYear t = YearFromTime t.
Proof. reflexivity. Qed.

Lemma getUTCMonth_eq t : getUTCMonth t = MonthFromTime t.
Proof. reflexivity. Qed.

Lemma utc_of_day a b :
  Day a = Day b ->
  getUTCFullYear a = getUTCFullYear b /\ getUTCMonth a = getUTCMonth b.
Proof. exact (fields_of_day a b). Qed.

Lemma utc_between t a b :
  Day a <= Day t <= Day b -> Day b - Day a < 28 ->
  (getUTCFullYear t = getUTCFullYear a /\ getUTCMonth t = getUTCMonth a)
  \/ (getUTCFullYear t = getUTCFullYear b /\ getUTCMonth t = getUTCMonth b
      /\ getUTCMonth a <> getUTCMonth b).
Proof. exact (bucket_between t a b). Qed.

Lemma utc_in_month t y m :
  0 <= m <= 11 ->
  (MakeDay y m 1 <= Day t < MakeDay y (m + 1) 1
   <-> getUTCFullYear t = y /\ getUTCMonth t = m).
Proof. exact (time_in_month t y m). Qed.

Lemma utc_in_year t y :
  DayFromYear y <= Day t < DayFromYear (y + 1) <-> getUTCFullYear t = y.
Proof. exact (time_in_year t y). Qed.

Lemma utc_year_ge y t : DayFromYear y <= Day t -> y <= getUTCFullYear t.
Proof. exact (YearFromDay_ge y (Day t)). Qed.

Lemma utc_month_range t : 0 <= getUTCMonth t <= 11.
Proof. exact (MonthFromTime_range t). Qed.

Lemma utc_epoch t : 0 <= t -> 1970 <= getUTCFullYear t.
Proof. exact (YearFromTime_epoch t). Qed.

Lemma notAfter_mono t now :
  t <= now -> notAfter (getUTCFullYear t) (getUTCMonth t + 1) now.
Proof.
  intros H. unfold notAfter, getUTCFullYear, getUTCMonth.
  destruct (bucket_mono t now H) as [L | [E L]]; [left | right]; lia.
Qed.

Lemma cover_daily now t :
  0 <= now ->
  Handler.periodStart daily now <= t <= Handler.periodEnd daily now ->
  In (monthKey (getUTCFullYear t) (getUTCMonth t + 1))
     (candidateMonths (Handler.periodStart daily now)
        (Handler.periodEnd daily now) daily)
  /\ 1969 <= getUTCFullYear t.
Proof.
  intros H Ht. pose proof (Day_nonneg now H) as Dn.
  destruct (daily_window now H) as [Es Ee].
  assert (Dt : Day t = Day now).
  { rewrite Es, Ee in Ht. unfold Day, msPerDay in *.
    Z.div_mod_to_equations. lia. }
  assert (Ds : Day (Handler.periodStart daily now) = Day now)
    by (rewrite Es; apply Day_of_midnight).
  destruct (utc_of_day t (Handler.periodStart daily now)) as [Ey Em];
    [now rewrite Dt, Ds |].
  split.
  - rewrite Ey, Em.
    exact (candidateMonths_start (Handler.periodStart daily now)
             (Handler.periodEnd daily now) daily ltac:(discriminate)).
  - apply utc_year_ge. change (DayFromYear 1969) with (-365). lia.
Qed.

Lemma cover_weekly now t :
  0 <= now ->
  Handler.periodStart weekly now <= t <= Handler.periodEnd weekly now ->
  In (monthKey (getUTCFullYear t) (getUTCMonth t + 1))
     (candidateMonths (Handler.periodStart weekly now)
        (Handler.periodEnd weekly now) weekly)
  /\ 1969 <= getUTCFullYear t.
Proof.
  intros H Ht. pose proof (Day_nonneg now H) as Dn.
  pose proof (weekDiff_range now) as Wr.
  destruct (weekly_window now H) as [Es Ee].
  assert (Ds : Day (Handler.periodStart weekly now) = Day now - weekDiff now)
    by (rewrite Es; apply Day_of_midnight).
  assert (De : Day (Handler.periodEnd weekly now) = Day now)
    by (rewrite Ee; apply Day_of_evening).
  assert (Dt : Day now - weekDiff now <= Day t <= Day now).
  { rewrite Es, Ee in Ht. unfold Day, msPerDay in *.
    Z.div_mod_to_equations. lia. }
  split.
  - destruct (utc_between t (Handler.periodStart weekly now)
                (Handler.periodEnd weekly now)) as [[Ey Em] | (Ey & Em & N)];
      [lia | lia | |]; rewrite Ey, Em.
    + exact (candidateMonths_start (Handler.periodStart weekly now)
               (Handler.periodEnd weekly now) weekly ltac:(discriminate)).
    + exact (candidateMonths_end (Handler.periodStart weekly now)
               (Handler.periodEnd weekly now) N).
  - apply utc_year_ge. change (DayFromYear 1969) with (-365). lia.
Qed.

Lemma cover_monthly now t :
  0 <= now ->
  Handler.periodStart monthly now <= t <= Handler.periodEnd monthly now ->
  In (monthKey (getUTCFullYear t) (getUTCMonth t + 1))
     (candidateMonths (Handler.periodStart monthly now)
        (Handler.periodEnd monthly now) monthly)
  /\ 1969 <= getUTCFullYear t.
Proof.
  intros H Ht. pose proof (YearFromTime_epoch now H) as Yn.
  pose proof (MonthFromTime_range now) as Mn.
  destruct (monthly_window now H) as [Es Ee].
  assert (Dt : MakeDay (YearFromTime now) (MonthFromTime now) 1 <= Day t
               < MakeDay (YearFromTime now) (MonthFromTime now + 1) 1).
  { rewrite Es, Ee in Ht. unfold Day, msPerDay in *.
    Z.div_mod_to_equations. lia. }
  apply (utc_in_month _ _ _ Mn) in Dt as [Et Em].
  assert (Ds : MakeDay (YearFromTime now) (MonthFromTime now) 1
               <= Day (Handler.periodStart monthly now)
               < MakeDay (YearFromTime now) (MonthFromTime now + 1) 1).
  { rewrite Es, Day_of_midnight.
    pose proof (MakeDay_next_month (YearFromTime now) (MonthFromTime now) 1).
    lia. }
  apply (utc_in_month _ _ _ Mn) in Ds as [Esy Esm].
  split; [| lia].
  rewrite Et, Em, <- Esy, <- Esm.
  exact (candidateMonths_start (Handler.periodStart monthly now)
           (Handler.periodEnd monthly now) monthly ltac:(discriminate)).
Qed.

Lemma cover_yearly now t :
  0 <= now ->
  Handler.periodStart yearly now <= t <= Handler.periodEnd yearly now ->
  In (monthKey (getUTCFullYear t) (getUTCMonth t + 1))
     (candidateMonths (Handler.periodStart yearly now)
        (Handler.periodEnd yearly now) yearly)
  /\ 1969 <= getUTCFullYear t.
Proof.
  intros H Ht. pose proof (YearFromTime_epoch now H) as Yn.
  pose proof (utc_month_range t) as Mt.
  destruct (yearly_window now H) as [Es Ee].
  assert (Dt : DayFromYear (YearFromTime now) <= Day t
               < DayFromYear (YearFromTime now + 1)).
  { rewrite Es, Ee in Ht. unfold Day, msPerDay in *.
    Z.div_mod_to_equations. lia. }
  pose proof (proj1 (utc_in_year _ _) Dt) as Et.
  assert (Ds : getUTCFullYear (Handler.periodStart yearly now) = YearFromTime now).
  { apply utc_in_year. rewrite Es, Day_of_midnight.
    rewrite DayFromYear_succ. destruct (DaysInYear_cases (YearFromTime now)); lia. }
  split; [| rewrite Et; lia].
  assert (P0 : 0 <= Handler.periodStart yearly now).
  { rewrite Es. pose proof (DayFromYear_mono 1970 (YearFromTime now) Yn) as Mo.
    change (DayFromYear 1970) with 0 in Mo. unfold msPerDay. lia. }
  assert (Le : MakeDate
                 (MakeDay (getUTCFullYear (Handler.periodStart yearly now))
                    (getUTCMonth t) 1) 0
               <= Handler.periodEnd yearly now).
  { pose proof (proj2 (utc_in_month t _ _ Mt) (conj eq_refl eq_refl)) as Bt.
    rewrite Ds, Ee, <- Et. rewrite <- Et in Dt.
    unfold MakeDate, msPerDay. lia. }
  pose proof (candidateMonths_year (Handler.periodStart yearly now)
                (Handler.periodEnd yearly now) (getUTCMonth t) P0
                ltac:(lia) Le) as K.
  rewrite Ds, <- Et, Z.div_small, Z.mod_small, Z.add_0_r in K by lia.
  exact K.
Qed.

Lemma cover_period (periodType : PeriodType) (now now' t : Z) :
  0 <= now ->
  Handler.periodStart periodType now <= t <= Handler.periodEnd periodType now ->
  t <= now' ->
  In (monthKey (getUTCFullYear t) (getUTCMonth t + 1))
     (monthsToFetch now' (Handler.periodStart periodType now)
        (Handler.periodEnd periodType now) periodType).
Proof.
  intros H Ht Hn.
  pose proof (utc_month_range t) as Mt.
  assert (C : In (monthKey (getUTCFullYear t) (getUTCMonth t + 1))
                (candidateMonths (Handler.periodStart periodType now)
                   (Handler.periodEnd periodType now) periodType)
              /\ 1969 <= getUTCFullYear t).
  { destruct periodType;
      [exact (cover_daily now t H Ht) | exact (cover_weekly now t H Ht)
      | exact (cover_monthly now t H Ht) | exact (cover_yearly now t H Ht)]. }
  destruct C as [C Yt].
  apply In_monthsToFetch. split; [exact C |].
  apply notAfter_notFuture; [lia | lia |].
  exact (notAfter_mono t now' Hn).
Qed.

End CoverFacts.


Import JSDate JSString Stats Notions.
Import DateFacts StringFacts ResolverFacts HandlerFacts WindowFacts CoverFacts.

(** X2. The month of every instant of the period that is not after the
    clock read by [getStats] is among the months fetched: no game of the
    period is missed for want of its archive. *)
Theorem months_cover_period (periodType : PeriodType) (now now' t : Z) :
  0 <= now ->
  Handler.periodStart periodType now <= t <= Handler.periodEnd periodType now ->
  t <= now' ->
  In (monthKey (getUTCFullYear t) (getUTCMonth t + 1))
     (monthsToFetch now' (Handler.periodStart periodType now)
        (Handler.periodEnd periodType now) periodType).
Proof. apply cover_period. Qed.

Lemma months_cover_period_witness :
  In (monthKey (getUTCFullYear 1727690400000) (getUTCMonth 1727690400000 + 1))
     (monthsToFetch Scenario.now (Handler.periodStart weekly Scenario.now)
        (Handler.periodEnd weekly Scenario.now) weekly).
Proof.
  apply (months_cover_period weekly Scenario.now Scenario.now 1727690400000).
  - vm_compute. discriminate.
  - split; vm_compute; discriminate.
  - vm_compute. discriminate.
Defined.

(** ** The archive URLs *)

Module UrlFacts.
Import JSDate JSString Stats Notions MoreNotions.
Import DateFacts StringFacts ResolverFacts FetchFacts HandlerFacts CoverFacts.
Local Open Scope string_scope.

Lemma requestOf_key username y m :
  (0 <= y)%Z -> (0 <= m)%Z ->
  requestOf username (monthKey y m)
  = archiveUrl username (numToString y) (numToString m).
Proof.
  intros Hy Hm. unfold requestOf.
  now rewrite split_monthKey_nonneg by assumption.
Qed.

Lemma padStart2_month m :
  (1 <= m <= 12)%Z ->
  String.length (padStart2 (numToString m)) = 2%nat
  /\ Number (padStart2 (numToString m)) = Some m.
Proof.
  intros H.
  assert (C : (m = 1 \/ m = 2 \/ m = 3 \/ m = 4 \/ m = 5 \/ m = 6 \/ m = 7
               \/ m = 8 \/ m = 9 \/ m = 10 \/ m = 11 \/ m = 12)%Z) by lia.
  repeat (destruct C as [-> | C]; [split; reflexivity |]).
  subst m. split; reflexivity.
Qed.

Lemma noSlash_uint d : noSlash (NilEmpty.string_of_uint d) = true.
Proof. induction d; cbn; auto. Qed.

Lemma noSlash_numToString z : (0 <= z)%Z -> noSlash (numToString z) = true.
Proof.
  destruct z as [| p | p]; intros H; try lia; [reflexivity |].
  rewrite numToString_pos. unfold NilZero.string_of_uint.
  destruct (Pos.to_uint p) eqn:E; try reflexivity;
    rewrite <- E; apply noSlash_uint.
Qed.

Lemma split_at_slash a a' b b' :
  noSlash a = true -> noSlash a' = true ->
  (a ++ String "/" b) = (a' ++ String "/" b') -> a = a' /\ b = b'.
Proof.
  revert a'. induction a as [| c a IH]; intros [| c' a'] Ha Ha' E; cbn in *.
  - injection E as E. now split.
  - injection E as E1 E2. subst c'. discriminate.
  - injection E as E1 E2. subst c. discriminate.
  - injection E as E1 E2. subst c'.
    apply andb_true_iff in Ha as [_ Ha]. apply andb_true_iff in Ha' as [_ Ha'].
    destruct (IH a' Ha Ha' E2) as [-> ->]. now split.
Qed.

Lemma append_inj_l (p a b : string) : (p ++ a) = (p ++ b) -> a = b.
Proof.
  induction p as [| c p IH]; cbn; trivial.
  intros E. injection E as E. auto.
Qed.

Lemma numToString_inj a b : numToString a = numToString b -> a = b.
Proof.
  intros E. apply (f_equal Number) in E.
  rewrite !Number_numToString in E. now injection E.
Qed.

Lemma requestOf_inj username y m y' m' :
  (0 <= y)%Z -> (1 <= m <= 12)%Z -> (0 <= y')%Z -> (1 <= m' <= 12)%Z ->
  requestOf username (monthKey y m) = requestOf username (monthKey y' m') ->
  monthKey y m = monthKey y' m'.
Proof.
  intros Hy Hm Hy' Hm' E.
  rewrite !requestOf_key in E by lia. unfold archiveUrl in E.
  apply append_inj_l, append_inj_l in E.
  change ("/games/" ++ numToString y ++ "/" ++ padStart2 (numToString m))
    with ("/games/" ++ (numToString y ++ String "/" (padStart2 (numToString m))))
    in E.
  change ("/games/" ++ numToString y' ++ "/" ++ padStart2 (numToString m'))
    with ("/games/" ++ (numToString y' ++ String "/" (padStart2 (numToString m'))))
    in E.
  apply append_inj_l in E.
  apply split_at_slash in E as [Ey Em]; try now apply noSlash_numToString.
  apply numToString_inj in Ey. subst y'.
  destruct (padStart2_month m Hm) as [_ N].
  destruct (padStart2_month m' Hm') as [_ N'].
  rewrite Em in N. rewrite N' in N. now injection N as ->.
Qed.

(** With period bounds at or after the epoch, the year of every key is
    at least 1969. *)
Lemma isPlainKey_time t :
  (-365 <= Day t)%Z ->
  isPlainKey (monthKey (getUTCFullYear t) (getUTCMonth t + 1)).
Proof.
  intros H. exists (getUTCFullYear t), (getUTCMonth t + 1)%Z.
  pose proof (utc_month_range t). pose proof (utc_year_ge 1969 t H).
  repeat split; lia.
Qed.

Lemma yearLoop_plain fuel : forall iter periodEnd acc,
  (0 <= iter)%Z -> Forall isPlainKey acc ->
  Forall isPlainKey (yearLoop fuel iter periodEnd acc).
Proof.
  induction fuel as [| fuel IH]; intros iter periodEnd acc Hi H; cbn; trivial.
  destruct (iter <=? periodEnd)%Z; trivial.
  apply IH.
  - pose proof (setUTCMonth_next iter). unfold msPerDay in *. lia.
  - rewrite Forall_forall in *. intros x Hx.
    apply In_Set_add in Hx as [-> | Hx]; auto.
    apply isPlainKey_time. pose proof (Day_nonneg iter Hi). lia.
Qed.

Lemma candidateMonths_plain periodStart periodEnd periodType :
  (0 <= periodStart)%Z -> (0 <= periodEnd)%Z ->
  Forall isPlainKey (candidateMonths periodStart periodEnd periodType).
Proof.
  intros Hs He.
  pose proof (Day_nonneg periodStart Hs) as Ds.
  pose proof (Day_nonneg periodEnd He) as De.
  pose proof (utc_epoch periodStart Hs) as Ys.
  pose proof (utc_month_range periodStart) as Ms.
  assert (Kp : isPlainKey
                 (monthKey
                    (getUTCFullYear
                       (UTC (getUTCFullYear periodStart)
                          (getUTCMonth periodStart + 1 - 2) 1 0 0 0))
                    (getUTCMonth
                       (UTC (getUTCFullYear periodStart)
                          (getUTCMonth periodStart + 1 - 2) 1 0 0 0) + 1))).
  { rewrite (previous_key periodStart Hs).
    exists (fst (previousMonth periodStart)), (snd (previousMonth periodStart)).
    unfold previousMonth.
    destruct (Z.eqb_spec (getUTCMonth periodStart) 0); cbn [fst snd];
      repeat split; lia. }
  assert (Ks : isPlainKey (monthKey (getUTCFullYear periodStart)
                             (getUTCMonth periodStart + 1)))
    by (apply isPlainKey_time; lia).
  assert (Ke : isPlainKey (monthKey (getUTCFullYear periodEnd)
                             (getUTCMonth periodEnd + 1)))
    by (apply isPlainKey_time; lia).
  assert (Kd : isPlainKey (monthKey (getUTCFullYear periodStart - 1) 12))
    by (exists (getUTCFullYear periodStart - 1)%Z, 12%Z; repeat split; lia).
  assert (A : forall k acc, isPlainKey k -> Forall isPlainKey acc ->
                            Forall isPlainKey (Set_add k acc)).
  { intros k acc Hk Ha. rewrite Forall_forall in *. intros x Hx.
    apply In_Set_add in Hx as [-> | Hx]; auto. }
  destruct periodType; unfold candidateMonths.
  - apply A; [exact Ks |]. apply A; [exact Kp | constructor].
  - destruct (negb _).
    + apply A; [exact Ke |]. apply A; [exact Ks |].
      apply A; [exact Kp | constructor].
    + apply A; [exact Ks |]. apply A; [exact Kp | constructor].
  - apply A; [exact Ks |]. apply A; [exact Kp | constructor].
  - apply yearLoop_plain.
    + rewrite UTC_plain by lia. unfold MakeDate.
      change (MakeTime 0 0 0 0) with 0%Z.
      rewrite (WindowFacts.MakeDay_first _ 0) by lia.
      change (MonthStart (InLeapYear_of (getUTCFullYear periodStart)) 0) with 0%Z.
      pose proof (DayFromYear_mono 1970 (getUTCFullYear periodStart) Ys) as Mo.
      change (DayFromYear 1970) with 0%Z in Mo. unfold msPerDay. lia.
    + apply A; [exact Kd |]. apply A; [exact Kp | constructor].
Qed.

Lemma monthsToFetch_plain now periodStart periodEnd periodType :
  (0 <= periodStart)%Z -> (0 <= periodEnd)%Z ->
  Forall isPlainKey (monthsToFetch now periodStart periodEnd periodType).
Proof.
  intros Hs He. rewrite Forall_forall; intros s Hs'.
  apply In_monthsToFetch in Hs' as [Hc _].
  pose proof (candidateMonths_plain periodStart periodEnd periodType Hs He) as K.
  rewrite Forall_forall in K. auto.
Qed.

Lemma NoDup_map_on {A B} (f : A -> B) (l : list A) :
  (forall x y, In x l -> In y l -> f x = f y -> x = y) ->
  NoDup l -> NoDup (map f l).
Proof.
  intros Inj N. induction N as [| a l Ha N IH]; cbn; constructor.
  - intros I. apply in_map_iff in I as (x & E & Hx).
    rewrite (Inj x a) in Hx; [contradiction | now right | now left | exact E].
  - apply IH. intros x y Hx Hy. apply Inj; now right.
Qed.

End UrlFacts.

Import JSDate JSString Stats Notions MoreNotions.
Import DateFacts StringFacts ResolverFacts FetchFacts HandlerFacts UrlFacts.

(** X3. Every archive requested for a period that starts and ends at or
    after the epoch has the address of the player's games of a year and
    a month, the month written with two digits. *)
Theorem archive_url_two_digit_month (now : Z) (username : string)
  (periodStart periodEnd : Z) (periodType : PeriodType) (s : string) :
  0 <= periodStart -> 0 <= periodEnd ->
  In s (monthsToFetch now periodStart periodEnd periodType) ->
  exists year month mm,
    0 <= year /\ 1 <= month <= 12 /\ s = monthKey year month
    /\ requestOf username s
       = ("https://api.chess.com/pub/player/" ++ username ++ "/games/"
          ++ numToString year ++ "/" ++ mm)%string
    /\ String.length mm = 2%nat
    /\ Number mm = Some month.
Proof.
  intros Hs He I.
  pose proof (monthsToFetch_plain now periodStart periodEnd periodType Hs He) as P.
  rewrite Forall_forall in P. destruct (P s I) as (y & m & Hy & Hm & ->).
  exists y, m, (padStart2 (numToString m)).
  destruct (padStart2_month m Hm) as [L N].
  repeat split; trivial; try lia.
  rewrite requestOf_key by lia. reflexivity.
Qed.

Lemma archive_url_two_digit_month_witness :
  exists year month mm,
    0 <= year /\ 1 <= month <= 12 /\ "2024-9"%string = monthKey year month
    /\ requestOf "alice" "2024-9"
       = ("https://api.chess.com/pub/player/" ++ "alice" ++ "/games/"
          ++ numToString year ++ "/" ++ mm)%string
    /\ String.length mm = 2%nat
    /\ Number mm = Some month.
Proof.
  apply (archive_url_two_digit_month Scenario.now "alice" Scenario.weekStart
           Scenario.weekEnd weekly "2024-9").
  - vm_compute. discriminate.
  - vm_compute. discriminate.
  - vm_compute. right. right. left. reflexivity.
Defined.

(** X4. [getStats] requests no archive twice. *)
Theorem no_archive_requested_twice (net : Network) (now : Z) (username : string)
  (periodStart periodEnd : Z) (periodType : PeriodType) :
  0 <= periodStart -> 0 <= periodEnd ->
  exists r tr,
    getStats net now username periodStart periodEnd periodType [] = (Ret r, tr)
    /\ NoDup tr.
Proof.
  intros Hs He. rewrite getStats_result. eexists _, _. split; [reflexivity |].
  cbn [app]. apply NoDup_map_on; [| apply monthsToFetch_NoDup].
  pose proof (monthsToFetch_plain now periodStart periodEnd periodType Hs He) as P.
  rewrite Forall_forall in P.
  intros x y Hx Hy E.
  destruct (P x Hx) as (yx & mx & Hyx & Hmx & ->).
  destruct (P y Hy) as (yy & my & Hyy & Hmy & ->).
  now apply (requestOf_inj username).
Qed.

Lemma no_archive_requested_twice_witness :
  exists r tr,
    getStats Scenario.net Scenario.now "alice" Scenario.weekStart
      Scenario.weekEnd weekly [] = (Ret r, tr)
    /\ NoDup tr.
Proof.
  apply (no_archive_requested_twice Scenario.net Scenario.now "alice"
           Scenario.weekStart Scenario.weekEnd weekly);
    vm_compute; discriminate.
Defined.

(** ** More on aggregation *)

Module RatingFacts.
Import JSString Stats Notions MoreNotions AggregateFacts.

Lemma hd_sorted_min l g :
  StronglySorted by_end_time l -> hd_error l = Some g ->
  In g l /\ forall g', In g' l -> end_time g <= end_time g'.
Proof.
  intros S E. destruct l as [| a l]; [discriminate |].
  injection E as ->. split; [now left |].
  apply StronglySorted_inv in S as [_ F]. rewrite Forall_forall in F.
  intros g' [<- | H]; [lia | apply F, H].
Qed.

Lemma modeNames_distinct g :
  (if isMode rapid g then 1 else 0) + (if isMode blitz g then 1 else 0)
  + (if isMode bullet g then 1 else 0) + (if isListed g then 0 else 1) = 1.
Proof.
  unfold isListed, isMode.
  destruct (String.eqb_spec (time_class g) (modeName rapid)) as [E | N];
    [rewrite E; reflexivity |].
  destruct (String.eqb_spec (time_class g) (modeName blitz)) as [E | N'];
    [rewrite E; reflexivity |].
  destruct (String.eqb_spec (time_class g) (modeName bullet)) as [E | N''];
    reflexivity.
Qed.

Lemma count_split (l : list Game) :
  (List.length (filter (isMode rapid) l)
   + List.length (filter (isMode blitz) l)
   + List.length (filter (isMode bullet) l)
   + List.length (filter (fun g => negb (isListed g)) l))%nat
  = List.length l.
Proof.
  induction l as [| g l IH]; [reflexivity |].
  pose proof (modeNames_distinct g) as D. cbn [filter].
  destruct (isMode rapid g), (isMode blitz g), (isMode bullet g),
    (isListed g); cbn [negb List.length] in *; lia.
Qed.

Lemma filter_nil_iff {A} (f : A -> bool) l :
  filter f l = [] <-> forall x, In x l -> f x = false.
Proof.
  induction l as [| a l IH]; cbn.
  - split; [intros _ x [] | reflexivity].
  - destruct (f a) eqn:E.
    + split; [discriminate |]. intros H. specialize (H a (or_introl eq_refl)).
      congruence.
    + rewrite IH. split.
      * intros H x [<- | Hx]; auto.
      * intros H x Hx. apply H. now right.
Qed.

End RatingFacts.

Import JSDate JSString Stats Notions MoreNotions.
Import FetchFacts AggregateFacts RatingFacts.

(** X5. When a fetched game of a mode ends before the period, the start
    rating of the mode is read from such a game, and no other such game
    ends later. *)
Theorem start_rating_from_latest_earlier_game (net : Network) (now : Z)
  (username : string) (periodStart periodEnd : Z) (periodType : PeriodType)
  (tr : list string) (mode : Mode) (g0 : Game) :
  In g0 (fetchedGames net now username periodStart periodEnd periodType) ->
  beforePeriod periodStart mode g0 = true ->
  exists r tr' g,
    getStats net now username periodStart periodEnd periodType tr = (Ret r, tr')
    /\ In g (fetchedGames net now username periodStart periodEnd periodType)
    /\ time_class g = modeName mode
    /\ end_time g * 1000 < periodStart
    /\ (forall g',
          In g' (fetchedGames net now username periodStart periodEnd periodType) ->
          time_class g' = modeName mode -> end_time g' * 1000 < periodStart ->
          end_time g' <= end_time g)
    /\ get mode (startRatings r) = Some (ratingOf username g).
Proof.
  intros I B. rewrite getStats_result.
  set (all := fetchedGames net now username periodStart periodEnd periodType) in *.
  destruct (pop (filter (beforePeriod periodStart mode) (sortGames all)))
    as [g |] eqn:E.
  - destruct (lastBefore_latest _ _ _ _ E) as (Hin & Hb & Hmax).
    eexists _, _, g. split; [reflexivity |].
    unfold beforePeriod, isMode in Hb.
    apply andb_true_iff in Hb as [Hc Ht].
    apply String.eqb_eq in Hc. apply Z.ltb_lt in Ht.
    repeat split; trivial.
    + intros g' Hg' Hc' Ht'. apply Hmax; trivial.
      unfold beforePeriod, isMode. apply andb_true_iff. split.
      * now apply String.eqb_eq.
      * now apply Z.ltb_lt.
    + rewrite aggregate_start. unfold startGame. now rewrite E.
  - rewrite lastBefore_none in E. rewrite (E g0 I) in B. discriminate.
Qed.

Lemma start_rating_from_latest_earlier_game_witness :
  exists r tr' g,
    getStats Scenario.net Scenario.now "alice" 1727740800000 1727913599000
      daily [] = (Ret r, tr')
    /\ In g (fetchedGames Scenario.net Scenario.now "alice" 1727740800000
               1727913599000 daily)
    /\ time_class g = modeName blitz
    /\ end_time g * 1000 < 1727740800000
    /\ (forall g',
          In g' (fetchedGames Scenario.net Scenario.now "alice" 1727740800000
                   1727913599000 daily) ->
          time_class g' = modeName blitz -> end_time g' * 1000 < 1727740800000 ->
          end_time g' <= end_time g)
    /\ get blitz (startRatings r) = Some (ratingOf "alice" g).
Proof.
  apply (start_rating_from_latest_earlier_game Scenario.net Scenario.now "alice"
           1727740800000 1727913599000 daily [] blitz Scenario.gSep).
  - vm_compute. right. left. reflexivity.
  - vm_compute. reflexivity.
Defined.

(** X6. When the games are fetched in the order of their end times, the
    end rating of a mode played in the period is read from its latest
    game of the period, and its start rating, without an earlier game of
    the mode, from its earliest game of the period. *)
Theorem chronological_fetch_gives_first_and_last (net : Network) (now : Z)
  (username : string) (periodStart periodEnd : Z) (periodType : PeriodType)
  (tr : list string) (mode : Mode) :
  StronglySorted by_end_time
    (fetchedGames net now username periodStart periodEnd periodType) ->
  (0 < List.length
         (filter (isMode mode)
            (filter (inPeriod periodStart periodEnd)
               (fetchedGames net now username periodStart periodEnd periodType))))%nat ->
  exists r tr' first last,
    getStats net now username periodStart periodEnd periodType tr = (Ret r, tr')
    /\ In first (gamesInPeriod r) /\ time_class first = modeName mode
    /\ In last (gamesInPeriod r) /\ time_class last = modeName mode
    /\ (forall g, In g (gamesInPeriod r) -> time_class g = modeName mode ->
                  end_time first <= end_time g <= end_time last)
    /\ get mode (endRatings r) = Some (ratingOf username last)
    /\ ((forall g,
           In g (fetchedGames net now username periodStart periodEnd periodType) ->
           beforePeriod periodStart mode g = false) ->
        get mode (startRatings r) = Some (ratingOf username first)).
Proof.
  intros S C. rewrite getStats_result.
  set (all := fetchedGames net now username periodStart periodEnd periodType) in *.
  set (modeGames := filter (isMode mode) (filter (inPeriod periodStart periodEnd) all))
    in *.
  assert (Sm : StronglySorted by_end_time modeGames)
    by (subst modeGames; do 2 apply filter_sorted; exact S).
  destruct (hd_error modeGames) as [first |] eqn:Ef;
    [| destruct modeGames; [cbn in C; lia | discriminate]].
  destruct (pop modeGames) as [last |] eqn:El;
    [| apply pop_nil in El; rewrite El in C; cbn in C; lia].
  destruct (hd_sorted_min _ _ Sm Ef) as [If Hf].
  destruct (pop_sorted_max _ _ Sm El) as [Il Hl].
  assert (Mem : forall g, In g modeGames
                          <-> In g (filter (inPeriod periodStart periodEnd) all)
                              /\ time_class g = modeName mode).
  { intros g. subst modeGames. rewrite filter_In. unfold isMode.
    now rewrite String.eqb_eq. }
  eexists _, _, first, last. split; [reflexivity |].
  rewrite aggregate_games.
  apply Mem in If as [If1 If2]. apply Mem in Il as [Il1 Il2].
  repeat split; trivial.
  - apply Hf, Mem. now split.
  - apply Hl, Mem. now split.
  - rewrite aggregate_end. unfold endGame. fold modeGames. now rewrite El.
  - intros NB. rewrite aggregate_start. unfold startGame.
    apply lastBefore_none in NB. rewrite NB. fold modeGames. now rewrite Ef.
Qed.

Lemma chronological_fetch_gives_first_and_last_witness :
  fetchedGames ChronoScenario.netChrono Scenario.now "alice" ChronoScenario.dayStart
    ChronoScenario.dayEnd daily
  = [ChronoScenario.gMorning; ChronoScenario.gLater]
  /\ end_time ChronoScenario.gMorning < end_time ChronoScenario.gLater
  /\ exists r tr' first last,
       getStats ChronoScenario.netChrono Scenario.now "alice" ChronoScenario.dayStart
         ChronoScenario.dayEnd daily [] = (Ret r, tr')
       /\ In first (gamesInPeriod r) /\ time_class first = modeName blitz
       /\ In last (gamesInPeriod r) /\ time_class last = modeName blitz
       /\ (forall g, In g (gamesInPeriod r) -> time_class g = modeName blitz ->
                     end_time first <= end_time g <= end_time last)
       /\ get blitz (endRatings r) = Some (ratingOf "alice" last)
       /\ ((forall g,
              In g (fetchedGames ChronoScenario.netChrono Scenario.now "alice"
                      ChronoScenario.dayStart ChronoScenario.dayEnd daily) ->
              beforePeriod ChronoScenario.dayStart blitz g = false) ->
           get blitz (startRatings r) = Some (ratingOf "alice" first)).
Proof.
  split; [vm_compute; reflexivity |]. split; [vm_compute; reflexivity |].
  apply (chronological_fetch_gives_first_and_last ChronoScenario.netChrono
           Scenario.now "alice" ChronoScenario.dayStart ChronoScenario.dayEnd
           daily [] blitz).
  - vm_compute. repeat constructor; discriminate.
  - vm_compute. lia.
Defined.

(** X7. The total of games of the period also counts the games that are
    neither rapid nor blitz nor bullet: it is the sum of the three counts
    and of the number of those games. *)
Theorem total_includes_other_time_classes (net : Network) (now : Z)
  (username : string) (periodStart periodEnd : Z) (periodType : PeriodType)
  (tr : list string) :
  exists r tr',
    getStats net now username periodStart periodEnd periodType tr = (Ret r, tr')
    /\ (get rapid (stats r) + get blitz (stats r) + get bullet (stats r)
        + List.length
            (filter (fun g => negb (isMode rapid g || isMode blitz g
                                    || isMode bullet g))
               (gamesInPeriod r)))%nat
       = List.length (gamesInPeriod r).
Proof.
  rewrite getStats_result. eexists _, _. split; [reflexivity |].
  rewrite !aggregate_count, aggregate_games. apply count_split.
Qed.

(** X8. A mode with one game in the period and none before it has the
    same start and end rating, so that its change of rating is zero. *)
Theorem single_game_without_history_has_zero_delta (net : Network) (now : Z)
  (username : string) (periodStart periodEnd : Z) (periodType : PeriodType)
  (tr : list string) (mode : Mode) :
  (forall g,
     In g (fetchedGames net now username periodStart periodEnd periodType) ->
     beforePeriod periodStart mode g = false) ->
  List.length
    (filter (isMode mode)
       (filter (inPeriod periodStart periodEnd)
          (fetchedGames net now username periodStart periodEnd periodType)))
  = 1%nat ->
  exists r tr' v,
    getStats net now username periodStart periodEnd periodType tr = (Ret r, tr')
    /\ get mode (stats r) = 1%nat
    /\ get mode (startRatings r) = Some v
    /\ get mode (endRatings r) = Some v.
Proof.
  intros NB L. rewrite getStats_result.
  set (all := fetchedGames net now username periodStart periodEnd periodType) in *.
  destruct (filter (isMode mode) (filter (inPeriod periodStart periodEnd) all))
    as [| g [| g' l]] eqn:E; try discriminate.
  eexists _, _, (ratingOf username g). split; [reflexivity |].
  rewrite aggregate_count, aggregate_start, aggregate_end.
  unfold startGame, endGame. apply lastBefore_none in NB.
  rewrite NB, E. repeat split.
Qed.

Lemma single_game_without_history_has_zero_delta_witness :
  exists r tr' v,
    getStats Scenario.netOther Scenario.now "alice" Scenario.weekStart
      Scenario.weekEnd weekly [] = (Ret r, tr')
    /\ get blitz (stats r) = 1%nat
    /\ get blitz (startRatings r) = Some v
    /\ get blitz (endRatings r) = Some v.
Proof.
  apply (single_game_without_history_has_zero_delta Scenario.netOther
           Scenario.now "alice" Scenario.weekStart Scenario.weekEnd weekly []
           blitz).
  - intros g I. vm_compute in I. destruct I as [<- | []]. vm_compute. reflexivity.
  - vm_compute. reflexivity.
Defined.

(** ** Complete archives give the right counts *)

Module CompleteFacts.
Import JSDate JSString Stats Notions MoreNotions.
Import ResolverFacts FetchFacts AggregateFacts WindowFacts CoverFacts.

Lemma flat_map_agree {A B} (f g : A -> list B) (l : list A) :
  Forall (fun a => f a = g a) l -> flat_map f l = flat_map g l.
Proof.
  induction 1 as [|a l E _ IH]; [reflexivity|].
  cbn. now rewrite E, IH.
Qed.

Lemma count_archived (played : list Game) (keys : list string) (g : Game) :
  count_occ Game_eq_dec (flat_map (archived played) keys) g
  = (count_occ Game_eq_dec played g * count_occ string_dec keys (keyOf g))%nat.
Proof.
  induction keys as [|k keys IH]; cbn [flat_map count_occ]; [lia|].
  rewrite count_occ_app, IH. unfold archived at 1.
  rewrite count_occ_filter.
  destruct (string_dec k (keyOf g)) as [->|N].
  - rewrite String.eqb_refl. lia.
  - destruct (String.eqb (keyOf g) k) eqn:E; [|lia].
    apply String.eqb_eq in E. now elim N.
Qed.

Lemma filter_Permutation {A} (f : A -> bool) (l l' : list A) :
  Permutation l l' -> Permutation (filter f l) (filter f l').
Proof.
  induction 1 as [|x l l' _ IH|x y l|l l' l'' _ IH1 _ IH2]; cbn.
  - constructor.
  - destruct (f x); [now constructor|exact IH].
  - destruct (f x), (f y); try apply Permutation_refl. constructor.
  - now transitivity (filter f l').
Qed.

Lemma complete_games (periodType : PeriodType) (now now' : Z)
  (played : list Game) :
  0 <= now ->
  (forall g, In g played -> end_time g * 1000 <= now') ->
  Permutation
    (filter (inPeriod (Handler.periodStart periodType now)
               (Handler.periodEnd periodType now))
       (flat_map (archived played)
          (monthsToFetch now' (Handler.periodStart periodType now)
             (Handler.periodEnd periodType now) periodType)))
    (filter (inPeriod (Handler.periodStart periodType now)
               (Handler.periodEnd periodType now)) played).
Proof.
  intros H P. apply (Permutation_count_occ Game_eq_dec). intros g.
  rewrite !count_occ_filter, count_archived.
  destruct (inPeriod _ _ g) eqn:I; [|reflexivity].
  destruct (in_dec Game_eq_dec g played) as [J|J].
  - assert (C : In (keyOf g)
                  (monthsToFetch now' (Handler.periodStart periodType now)
                     (Handler.periodEnd periodType now) periodType)).
    { apply cover_period; [exact H| |exact (P g J)].
      unfold inPeriod in I. apply andb_true_iff in I as [I1 I2].
      apply Z.leb_le in I1, I2. now split. }
    pose proof (monthsToFetch_NoDup now' (Handler.periodStart periodType now)
                  (Handler.periodEnd periodType now) periodType) as N.
    rewrite (proj1 (NoDup_count_occ' string_dec _) N _ C). lia.
  - apply (count_occ_not_In Game_eq_dec) in J. rewrite J. reflexivity.
Qed.

End CompleteFacts.

Import JSDate JSString Stats Notions MoreNotions.
Import FetchFacts AggregateFacts CompleteFacts.

(** X9. When the archive of every month fetched holds the games that the
    player ended in that month, and no game ends after the clock read by
    [getStats], the games of the period that [getStats] returns are the
    games played in the period, each once, and the count of each mode is
    the number of games of the mode played in the period. *)
Theorem counts_match_played_games (net : Network) (periodType : PeriodType)
  (now now' : Z) (username : string) (played : list Game) (tr : list string) :
  0 <= now ->
  (forall g, In g played -> end_time g * 1000 <= now') ->
  let periodStart := Handler.periodStart periodType now in
  let periodEnd := Handler.periodEnd periodType now in
  Forall (fun key => contribution net username key = archived played key)
    (monthsToFetch now' periodStart periodEnd periodType) ->
  exists r tr',
    getStats net now' username periodStart periodEnd periodType tr = (Ret r, tr')
    /\ Permutation (gamesInPeriod r)
         (filter (inPeriod periodStart periodEnd) played)
    /\ forall mode,
         get mode (stats r)
         = List.length
             (filter (isMode mode)
                (filter (inPeriod periodStart periodEnd) played)).
Proof.
  intros H P periodStart periodEnd F. rewrite getStats_result.
  eexists _, _. split; [reflexivity|].
  assert (Q : Permutation
                (filter (inPeriod periodStart periodEnd)
                   (fetchedGames net now' username periodStart periodEnd
                      periodType))
                (filter (inPeriod periodStart periodEnd) played)).
  { unfold fetchedGames. rewrite (flat_map_agree _ _ _ F).
    exact (complete_games periodType now now' played H P). }
  split.
  - rewrite aggregate_games. exact Q.
  - intros mode. rewrite aggregate_count.
    apply Permutation_length, filter_Permutation, Q.
Qed.

Lemma counts_match_played_games_witness :
  exists r tr',
    getStats Scenario.net Scenario.now "alice"
      (Handler.periodStart weekly Scenario.now)
      (Handler.periodEnd weekly Scenario.now) weekly [] = (Ret r, tr')
    /\ Permutation (gamesInPeriod r)
         (filter (inPeriod (Handler.periodStart weekly Scenario.now)
                    (Handler.periodEnd weekly Scenario.now))
            [Scenario.gSep; Scenario.gOct])
    /\ forall mode,
         get mode (stats r)
         = List.length
             (filter (isMode mode)
                (filter (inPeriod (Handler.periodStart weekly Scenario.now)
                           (Handler.periodEnd weekly Scenario.now))
                   [Scenario.gSep; Scenario.gOct])).
Proof.
  apply (counts_match_played_games Scenario.net weekly Scenario.now Scenario.now
           "alice" [Scenario.gSep; Scenario.gOct] []).
  - unfold Scenario.now. lia.
  - intros g [<-|[<-|[]]]; vm_compute; discriminate.
  - vm_compute. repeat constructor.
Defined.

(** ** The chat layer *)

Module ChatFacts.
Import JSString Stats Chat ChatNotions.
Local Open Scope string_scope.

Lemma sameLists_refl (st : BotState) : sameLists st st.
Proof. now repeat split. Qed.

Lemma say_lists (channel text : string) (st : BotState) :
  sameLists st (snd (say channel text st)).
Proof. now repeat split. Qed.

Lemma handleStats_lists (env : Env) (channel : string) (args : list string)
  (periodType : PeriodType) (st : BotState) :
  sameLists st (snd (handleStats env channel args periodType st)).
Proof.
  unfold handleStats.
  destruct (truthy (firstLower args)) as [username|]; [|apply say_lists].
  unfold catch, andThen, request.
  destruct (Raw.getStatsRaw _ _ _ _ _ _ _) as [[r|e] tr]; now repeat split.
Qed.

Lemma handleRecent_lists (env : Env) (channel : string) (args : list string)
  (st : BotState) :
  sameLists st (snd (handleRecent env channel args st)).
Proof.
  unfold handleRecent.
  destruct (truthy (firstLower args)) as [username|]; [|apply say_lists].
  unfold catch, andThen, request.
  destruct (Recent.getLastGame _ _ _) as [[[g|]|e] tr]; now repeat split.
Qed.

Lemma truthy_nonempty (s : option string) (x : string) :
  truthy s = Some x -> x <> EmptyString /\ s = Some x.
Proof.
  destruct s as [[|c r]|]; cbn; intros E; try discriminate.
  injection E as <-. now split.
Qed.

Lemma ban_change (env : Env) (ch sender : string) (args : list string)
  (st : BotState) :
  includes (toLowerCase sender) (bannedUsers st) = false ->
  Change env sender st (snd (ban env ch sender args st)).
Proof.
  intros B. unfold ban.
  destruct (isOwner env sender) eqn:O; cbn [negb];
    [|apply unchanged, sameLists_refl].
  destruct (truthy (firstLower args)) as [x|] eqn:T;
    [|apply unchanged, sameLists_refl].
  apply truthy_nonempty in T as [N _].
  unfold andThen, getBannedUsers.
  destruct (includes x (bannedUsers st)) eqn:I;
    [apply unchanged, sameLists_refl|].
  now apply (banned env sender st _ x).
Qed.

Lemma unban_change (env : Env) (ch sender : string) (args : list string)
  (st : BotState) :
  includes (toLowerCase sender) (bannedUsers st) = false ->
  Change env sender st (snd (unban env ch sender args st)).
Proof.
  intros B. unfold unban.
  destruct (isOwner env sender) eqn:O; cbn [negb];
    [|apply unchanged, sameLists_refl].
  destruct (firstLower args) as [x|];
    [|apply unchanged, sameLists_refl].
  unfold andThen, getBannedUsers.
  destruct (includes x (bannedUsers st)) eqn:I;
    [|apply unchanged, sameLists_refl].
  now apply (unbanned env sender st _ x).
Qed.

Lemma join_change (env : Env) (ch sender : string) (args : list string)
  (st : BotState) :
  Change env sender st (snd (join ch sender args st)).
Proof.
  unfold join.
  set (target := match truthy (firstLower args) with
                 | Some a => a
                 | None => toLowerCase sender
                 end).
  destruct (String.eqb (toLowerCase sender) target) eqn:E; cbn [negb];
    [|apply unchanged, say_lists].
  apply String.eqb_eq in E. rewrite <- E. clear E target.
  unfold andThen, getJoinedChannels.
  destruct (existsb _ (joinedChannels st)) eqn:X; cbn [negb];
    [apply unchanged, say_lists|].
  now apply joined.
Qed.

Lemma removeburger_change (env : Env) (ch sender : string) (st : BotState) :
  Change env sender st (snd (removeburger ch sender st)).
Proof.
  unfold removeburger.
  destruct (String.eqb (toLowerCase sender) (toLowerCase (dropFirstHash ch)))
    eqn:E; cbn [negb]; [|apply unchanged, sameLists_refl].
  apply String.eqb_eq in E. rewrite <- E. clear E.
  unfold andThen, getJoinedChannels.
  destruct (includes _ (joinedChannels st)) eqn:I;
    [|apply unchanged, say_lists].
  now apply removed.
Qed.

(** No command throws. *)
Lemma runCommand_returns (env : Env) (c : Command) (ch sender : string)
  (args : list string) (st : BotState) :
  fst (runCommand env c ch sender args st) = Ret tt.
Proof.
  destruct c; cbn [runCommand]; try reflexivity.
  1-4: unfold handleStats; destruct (truthy _); [|reflexivity];
       unfold catch, andThen, request;
       destruct (Raw.getStatsRaw _ _ _ _ _ _ _) as [[r|e] tr]; reflexivity.
  - unfold handleRecent; destruct (truthy _); [|reflexivity].
    unfold catch, andThen, request.
    destruct (Recent.getLastGame _ _ _) as [[[g|]|e] tr]; reflexivity.
  - unfold ban. destruct (isOwner _ _); cbn [negb]; [|reflexivity].
    destruct (truthy _); [|reflexivity].
    unfold andThen, getBannedUsers. now destruct (includes _ _).
  - unfold unban. destruct (isOwner _ _); cbn [negb]; [|reflexivity].
    destruct (firstLower _); [|reflexivity].
    unfold andThen, getBannedUsers. now destruct (includes _ _).
  - unfold join. destruct (String.eqb _ _); cbn [negb]; [|reflexivity].
    unfold andThen, getJoinedChannels. now destruct (existsb _ _).
  - unfold removeburger. destruct (String.eqb _ _); cbn [negb]; [|reflexivity].
    unfold andThen, getJoinedChannels. now destruct (includes _ _).
Qed.

Lemma runCommand_change (env : Env) (c : Command) (ch sender : string)
  (args : list string) (st : BotState) :
  includes (toLowerCase sender) (bannedUsers st) = false ->
  Change env sender st (snd (runCommand env c ch sender args st)).
Proof.
  intros B. destruct c; cbn [runCommand].
  1-4: apply unchanged, handleStats_lists.
  - apply unchanged, handleRecent_lists.
  - now apply ban_change.
  - apply unchanged, say_lists.
  - now apply unban_change.
  - apply join_change.
  - apply removeburger_change.
Qed.

Lemma catch_returns {A} (m : Bot A) (h : exn -> Bot A) (a : A) (st : BotState) :
  fst (m st) = Ret a -> catch m h st = m st.
Proof. unfold catch. destruct (m st) as [[x|e] st']; now cbn. Qed.

(** The listener, case by case. *)
Lemma onMessage_cases (env : Env) (ch sender message : string) (self : bool)
  (st : BotState) :
  onMessage env ch sender message self st
  = if self || includes (toLowerCase sender) (bannedUsers st) then (Ret tt, st)
    else match lookup (commandNameOf message) with
         | Own c => runCommand env c ch sender (argsOf message) st
         | PrototypeObject =>
             say ch ("Error executing !" ++ commandNameOf message) st
         | _ => (Ret tt, st)
         end.
Proof.
  unfold onMessage. destruct self; [reflexivity|].
  cbn [orb]. destruct (includes _ _); [reflexivity|].
  destruct (lookup _); try reflexivity.
  apply (catch_returns _ _ tt), runCommand_returns.
Qed.

Lemma onMessage_returns (env : Env) (ch sender message : string) (self : bool)
  (st : BotState) :
  fst (onMessage env ch sender message self st) = Ret tt.
Proof.
  rewrite onMessage_cases. destruct (_ || _); [reflexivity|].
  destruct (lookup _); try reflexivity. apply runCommand_returns.
Qed.

Lemma onMessage_change (env : Env) (ch sender message : string) (self : bool)
  (st : BotState) :
  Change env sender st (snd (onMessage env ch sender message self st)).
Proof.
  rewrite onMessage_cases.
  destruct (self || _) eqn:I; [apply unchanged, sameLists_refl|].
  apply orb_false_iff in I as [_ I].
  destruct (lookup _); try apply unchanged, sameLists_refl.
  - now apply runCommand_change.
  - apply unchanged, say_lists.
Qed.

(** *** Lists *)

Lemma includes_In (x : string) (l : list string) :
  includes x l = true <-> In x l.
Proof.
  unfold includes. rewrite existsb_exists. split.
  - intros [y [I E]]. apply String.eqb_eq in E. now subst.
  - intros I. exists x. split; [exact I|apply String.eqb_refl].
Qed.

Lemma includes_not_In (x : string) (l : list string) :
  includes x l = false <-> ~ In x l.
Proof.
  rewrite <- includes_In. destruct (includes x l); split; intros H;
    congruence || (now elim H).
Qed.

Lemma removeFirst_In (x y : string) (l : list string) :
  In y (removeFirst x l) -> In y l.
Proof.
  induction l as [|h t IH]; cbn; [easy|].
  destruct (String.eqb h x); cbn; tauto.
Qed.

Lemma removeFirst_other (x y : string) (l : list string) :
  y <> x -> In y l -> In y (removeFirst x l).
Proof.
  intros N. induction l as [|h t IH]; cbn; [easy|].
  destruct (String.eqb h x) eqn:E.
  - apply String.eqb_eq in E. intros [->|I]; [now elim N|exact I].
  - cbn. tauto.
Qed.

Lemma removeFirst_last (x : string) (l : list string) :
  ~ In x l -> removeFirst x (l ++ [x]) = l.
Proof.
  induction l as [|h t IH]; cbn; intros N.
  - now rewrite String.eqb_refl.
  - destruct (String.eqb h x) eqn:E.
    + apply String.eqb_eq in E. elim N. now left.
    + f_equal. apply IH. tauto.
Qed.

Lemma removeFirst_NoDup_map (f : string -> string) (x : string)
  (l : list string) :
  NoDup (map f l) -> NoDup (map f (removeFirst x l)).
Proof.
  induction l as [|h t IH]; cbn; [easy|].
  intros N. inversion N as [|? ? N1 N2]; subst.
  destruct (String.eqb h x); [exact N2|].
  cbn. constructor; [|now apply IH].
  intros I. apply N1. apply in_map_iff in I as [y [E I]].
  apply in_map_iff. exists y. split; [exact E|].
  now apply removeFirst_In in I.
Qed.

Lemma NoDup_snoc {A} (x : A) (l : list A) :
  NoDup l -> ~ In x l -> NoDup (l ++ [x]).
Proof.
  induction l as [|h t IH]; cbn; intros N I.
  - constructor; [easy|constructor].
  - inversion N as [|? ? N1 N2]; subst. constructor.
    + rewrite in_app_iff. cbn. intros [J|[J|[]]]; [easy|].
      apply I. now left.
    + apply IH; tauto.
Qed.

(** *** Letters *)

Lemma lowerChar_idempotent (c : ascii) : lowerChar (lowerChar c) = lowerChar c.
Proof. destruct c as [[] [] [] [] [] [] [] []]; reflexivity. Qed.

Lemma toLowerCase_idempotent (s : string) :
  toLowerCase (toLowerCase s) = toLowerCase s.
Proof.
  induction s as [|c r IH]; cbn; [reflexivity|].
  now rewrite lowerChar_idempotent, IH.
Qed.

Lemma toLowerCase_nonempty (s : string) :
  s <> EmptyString -> toLowerCase s <> EmptyString.
Proof. now destruct s. Qed.

Lemma not_listed (x : string) (l : list string) :
  existsb (fun c => String.eqb (toLowerCase c) (toLowerCase x)) l = false ->
  ~ In (toLowerCase x) (map toLowerCase l) /\ ~ In (toLowerCase x) l.
Proof.
  intros E.
  assert (N : forall c, In c l -> toLowerCase c <> toLowerCase x).
  { intros c I Q.
    assert (T : existsb (fun c => String.eqb (toLowerCase c) (toLowerCase x)) l
                = true).
    { apply existsb_exists. exists c. split; [exact I|].
      now apply String.eqb_eq. }
    congruence. }
  split.
  - intros I. apply in_map_iff in I as [c [Q I]]. now apply (N c).
  - intros I. apply (N _ I). apply toLowerCase_idempotent.
Qed.

(** *** Words of a message *)

Lemma splitSpaces_nonempty (b : bool) (s : string) : splitSpaces b s <> [].
Proof.
  revert b. induction s as [|c r IH]; intros b; cbn; [easy|].
  destruct (Pgn.isSpace c); [destruct b; [apply IH|easy]|].
  now destruct (splitSpaces false r).
Qed.

Lemma splitSpaces_cons (b : bool) (c : ascii) (r : string) :
  Pgn.isSpace c = false ->
  splitSpaces b (String c r)
  = String c (hd EmptyString (splitSpaces false r)) :: tl (splitSpaces false r).
Proof.
  intros E. cbn. rewrite E.
  destruct (splitSpaces false r) eqn:S; [|reflexivity].
  now apply splitSpaces_nonempty in S.
Qed.

Lemma splitSpaces_word (b : bool) (x : string) :
  isWord x -> splitSpaces b x = [x].
Proof.
  intros [N S]. revert b N S. induction x as [|c r IH]; intros b N S;
    [now elim N|].
  cbn in S. apply andb_true_iff in S as [S1 S2].
  apply negb_true_iff in S1.
  rewrite (splitSpaces_cons _ _ _ S1).
  destruct r as [|d r']; [reflexivity|].
  now rewrite (IH false).
Qed.

Lemma splitSpaces_two (w x : string) :
  noSpace w = true -> isWord x ->
  splitSpaces false (w ++ " " ++ x) = [w; x].
Proof.
  intros W X. induction w as [|c r IH].
  - cbn. now rewrite (splitSpaces_word true x X).
  - cbn in W. apply andb_true_iff in W as [W1 W2].
    apply negb_true_iff in W1.
    change (String c r ++ " " ++ x) with (String c (r ++ " " ++ x)).
    rewrite (splitSpaces_cons _ _ _ W1), (IH W2). reflexivity.
Qed.

Lemma trimEnd_cons (c : ascii) (r : string) :
  Pgn.isSpace c = false ->
  Pgn.trimEnd (String c r) = String c (Pgn.trimEnd r).
Proof. intros E. cbn. rewrite E. now destruct (Pgn.trimEnd r). Qed.

Lemma trimEnd_noSpace (w s : string) :
  noSpace w = true -> Pgn.trimEnd (w ++ s) = w ++ Pgn.trimEnd s.
Proof.
  induction w as [|c r IH]; cbn [noSpace]; intros W; [reflexivity|].
  apply andb_true_iff in W as [W1 W2]. apply negb_true_iff in W1.
  change (String c r ++ s) with (String c (r ++ s)).
  rewrite (trimEnd_cons _ _ W1), (IH W2). reflexivity.
Qed.

Lemma trimEnd_word (x : string) : noSpace x = true -> Pgn.trimEnd x = x.
Proof.
  induction x as [|c r IH]; cbn [noSpace]; intros X; [reflexivity|].
  apply andb_true_iff in X as [X1 X2]. apply negb_true_iff in X1.
  now rewrite (trimEnd_cons _ _ X1), (IH X2).
Qed.

Lemma trimEnd_space_word (x : string) :
  isWord x -> Pgn.trimEnd (" " ++ x) = " " ++ x.
Proof.
  intros [N X]. cbn. rewrite (trimEnd_word x X).
  destruct x; [now elim N|reflexivity].
Qed.

(** A command word and one argument, separated by one space. *)
Lemma parse_two (c : ascii) (w x : string) :
  Pgn.isSpace c = false -> noSpace w = true -> isWord x ->
  commandNameOf (String c w ++ " " ++ x) = toLowerCase (dropBang (String c w))
  /\ argsOf (String c w ++ " " ++ x) = [x].
Proof.
  intros C W X.
  assert (T : Pgn.trim (String c w ++ " " ++ x) = String c w ++ " " ++ x).
  { unfold Pgn.trim. cbn [append Pgn.trimStart]. rewrite C.
    change (String c (w ++ String " " x)) with (String c w ++ (" " ++ x)).
    rewrite trimEnd_noSpace, (trimEnd_space_word x X); [reflexivity|].
    cbn. now rewrite C. }
  assert (S : splitSpaces false (String c w ++ " " ++ x) = [String c w; x]).
  { apply splitSpaces_two; [|exact X]. cbn. now rewrite C. }
  unfold commandNameOf, argsOf. rewrite T, S. now split.
Qed.

(** A message that is one word. *)
Lemma parse_one (x : string) :
  isWord x ->
  commandNameOf x = toLowerCase (dropBang x) /\ argsOf x = [].
Proof.
  intros X. unfold commandNameOf, argsOf.
  assert (T : Pgn.trim x = x).
  { unfold Pgn.trim. destruct X as [N S]. destruct x as [|c r]; [now elim N|].
    cbn in S. apply andb_true_iff in S as [S1 S2].
    apply negb_true_iff in S1. cbn [Pgn.trimStart]. rewrite S1.
    apply trimEnd_word. cbn. now rewrite S1. }
  rewrite T, (splitSpaces_word false x X). now split.
Qed.

(** The leading [!] of a message is optional. *)
Lemma parse_bang (c : ascii) (r : string) :
  Pgn.isSpace c = false -> c <> "!"%char ->
  commandNameOf ("!" ++ String c r) = commandNameOf (String c r)
  /\ argsOf ("!" ++ String c r) = argsOf (String c r).
Proof.
  intros C B. unfold commandNameOf, argsOf, Pgn.trim.
  change ("!" ++ String c r) with (String "!" (String c r)).
  cbn [Pgn.trimStart]. rewrite C.
  change (Pgn.isSpace "!") with false. cbv iota.
  rewrite (trimEnd_cons "!" _ eq_refl), (trimEnd_cons c _ C).
  rewrite (splitSpaces_cons false "!" _ eq_refl).
  rewrite (splitSpaces_cons false c _ C).
  cbn [hd tl dropBang].
  change (Ascii.eqb "!" "!") with true. cbv iota.
  destruct (Ascii.eqb c "!") eqn:E; [|now split].
  apply Ascii.eqb_eq in E. now elim B.
Qed.

(** *** What the bot does on the chat client *)

Lemma handleStats_says (env : Env) (channel : string) (args : list string)
  (periodType : PeriodType) (st : BotState) :
  exists text,
    chat (snd (handleStats env channel args periodType st))
    = (chat st ++ [Say channel text])%list.
Proof.
  unfold handleStats.
  destruct (truthy (firstLower args)) as [username|]; [|now eexists].
  unfold catch, andThen, request.
  destruct (Raw.getStatsRaw _ _ _ _ _ _ _) as [[r|e] tr]; now eexists.
Qed.

Lemma handleRecent_says (env : Env) (channel : string) (args : list string)
  (st : BotState) :
  exists text,
    chat (snd (handleRecent env channel args st))
    = (chat st ++ [Say channel text])%list.
Proof.
  unfold handleRecent.
  destruct (truthy (firstLower args)) as [username|]; [|now eexists].
  unfold catch, andThen, request.
  destruct (Recent.getLastGame _ _ _) as [[[g|]|e] tr]; now eexists.
Qed.

Lemma spoken_nothing (channel sender : string) (st : BotState) :
  Spoken channel sender st st.
Proof.
  exists []. rewrite app_nil_r. repeat split; [constructor|cbn; lia].
Qed.

Lemma spoken_once (channel sender text : string) (st st' : BotState) :
  chat st' = (chat st ++ [Say channel text])%list ->
  Spoken channel sender st st'.
Proof.
  intros E. exists [Say channel text]. repeat split; [exact E| |cbn; lia].
  now repeat constructor.
Qed.

Lemma runCommand_spoken (env : Env) (c : Command) (ch sender : string)
  (args : list string) (st : BotState) :
  Spoken ch sender st (snd (runCommand env c ch sender args st)).
Proof.
  destruct c; cbn [runCommand].
  1-4: match goal with
       | |- context [handleStats _ _ _ ?p _] =>
           destruct (handleStats_says env ch args p st) as [t E]
       end; eapply spoken_once; exact E.
  - destruct (handleRecent_says env ch args st) as [t E].
    eapply spoken_once; exact E.
  - unfold ban. destruct (isOwner _ _); cbn [negb]; [|apply spoken_nothing].
    destruct (truthy _); [|apply spoken_nothing].
    unfold andThen, getBannedUsers.
    destruct (includes _ _); [apply spoken_nothing|].
    now eapply spoken_once.
  - now eapply spoken_once.
  - unfold unban. destruct (isOwner _ _); cbn [negb]; [|apply spoken_nothing].
    destruct (firstLower _); [|apply spoken_nothing].
    unfold andThen, getBannedUsers.
    destruct (includes _ _); [|apply spoken_nothing].
    now eapply spoken_once.
  - unfold join.
    set (target := match truthy (firstLower args) with
                   | Some a => a
                   | None => toLowerCase sender
                   end).
    destruct (String.eqb (toLowerCase sender) target) eqn:E; cbn [negb];
      [|now eapply spoken_once].
    apply String.eqb_eq in E. rewrite <- E. clear E target.
    unfold andThen, getJoinedChannels.
    destruct (existsb _ _); cbn [negb]; [now eapply spoken_once|].
    eexists [_; _]. split; [cbn; rewrite <- app_assoc; reflexivity|].
    split; [now repeat constructor|cbn; lia].
  - unfold removeburger.
    destruct (String.eqb (toLowerCase sender) (toLowerCase (dropFirstHash ch)))
      eqn:E; cbn [negb]; [|apply spoken_nothing].
    apply String.eqb_eq in E. rewrite <- E. clear E.
    unfold andThen, getJoinedChannels.
    destruct (includes _ _); [|now eapply spoken_once].
    eexists [_; _]. split; [cbn; rewrite <- app_assoc; reflexivity|].
    split; [now repeat constructor|cbn; lia].
Qed.

(** *** Invariants *)

Lemma saved_deliver (st : BotState) (m : Incoming) :
  saved st -> saved (deliver st m).
Proof.
  intros [S1 S2]. unfold deliver.
  destruct (onMessage_change (env m) (channel m) (sender m) (message m)
              (self m) st) as [[A [B [C D]]]|x _ _ _ _ A B C D|x _ _ _ A B C D
                              |_ A B C D|_ A B C D];
    split; congruence.
Qed.

Lemma saved_deliverAll (ms : list Incoming) (st : BotState) :
  saved st -> saved (deliverAll st ms).
Proof.
  revert st. induction ms as [|m ms IH]; intros st S; [exact S|].
  apply IH, saved_deliver, S.
Qed.

Lemma distinct_deliver (st : BotState) (m : Incoming) :
  distinct st -> distinct (deliver st m).
Proof.
  intros [D1 D2]. unfold deliver, distinct.
  destruct (onMessage_change (env m) (channel m) (sender m) (message m)
              (self m) st) as [[A [B [C D]]]|x _ _ _ I A B C D|x _ _ _ A B C D
                              |I A B C D|_ A B C D].
  - now rewrite A, B.
  - rewrite C, A. split; [exact D1|].
    apply NoDup_snoc; [exact D2|]. now apply includes_not_In.
  - rewrite C, A. split; [exact D1|].
    rewrite <- (map_id (removeFirst x (bannedUsers st))).
    apply removeFirst_NoDup_map. now rewrite map_id.
  - rewrite C, A. split; [|exact D2].
    rewrite map_app. cbn. rewrite toLowerCase_idempotent.
    apply NoDup_snoc; [exact D1|]. exact (proj1 (not_listed _ _ I)).
  - rewrite C, A. split; [|exact D2].
    now apply removeFirst_NoDup_map.
Qed.

Lemma onMessage_ignored (env : Env) (ch sender message : string) (self : bool)
  (st : BotState) :
  includes (toLowerCase sender) (bannedUsers st) = true ->
  onMessage env ch sender message self st = (Ret tt, st).
Proof. intros I. rewrite onMessage_cases, I, orb_true_r. reflexivity. Qed.

Lemma owner_banned (env : Env) (sender : string) (st : BotState) :
  isOwner env sender = true ->
  includes (toLowerCase (botUsername env)) (bannedUsers st)
  = includes (toLowerCase sender) (bannedUsers st).
Proof. intros O. apply String.eqb_eq in O. now rewrite O. Qed.

Lemma locked_deliver (st : BotState) (m : Incoming) :
  includes (toLowerCase (botUsername (env m))) (bannedUsers st) = true ->
  bannedUsers (deliver st m) = bannedUsers st
  /\ bannedFile (deliver st m) = bannedFile st.
Proof.
  intros L. unfold deliver.
  destruct (onMessage_change (env m) (channel m) (sender m) (message m)
              (self m) st) as [[A [B [C D]]]|x O I _ _ _ _ _ _|x O I _ _ _ _ _
                              |_ A B C D|_ A B C D]; try (now split).
  all: rewrite (owner_banned _ _ _ O) in L; congruence.
Qed.

(** *** The owner's commands on one user *)

Lemma ban_word (env : Env) (ch owner x : string) (st : BotState) :
  isOwner env owner = true ->
  includes (toLowerCase owner) (bannedUsers st) = false ->
  isWord x ->
  let st1 := snd (onMessage env ch owner ("!ban " ++ x) false st) in
  includes (toLowerCase x) (bannedUsers st1) = true
  /\ (includes (toLowerCase x) (bannedUsers st) = false ->
      bannedUsers st1 = (bannedUsers st ++ [toLowerCase x])%list
      /\ bannedFile st1 = bannedUsers st1).
Proof.
  intros O B X st1. subst st1.
  rewrite onMessage_cases, B. cbn [orb].
  destruct (parse_two "!" "ban" x eq_refl eq_refl X) as [N A].
  change (String "!" "ban" ++ " " ++ x) with ("!ban " ++ x) in N, A.
  rewrite N, A. change (lookup _) with (Own c_ban). cbn [runCommand].
  unfold ban. rewrite O. cbn [negb firstLower].
  assert (T : truthy (Some (toLowerCase x)) = Some (toLowerCase x)).
  { destruct X as [X _]. now destruct x. }
  rewrite T. unfold andThen, getBannedUsers.
  destruct (includes (toLowerCase x) (bannedUsers st)) eqn:I.
  - cbn. split; [exact I|discriminate].
  - cbn. split; [|now split].
    apply includes_In, in_app_iff. right. now left.
Qed.

Lemma unban_word (env : Env) (ch owner x : string) (st : BotState) :
  isOwner env owner = true ->
  includes (toLowerCase owner) (bannedUsers st) = false ->
  isWord x ->
  includes (toLowerCase x) (bannedUsers st) = true ->
  let st1 := snd (onMessage env ch owner ("!unban " ++ x) false st) in
  bannedUsers st1 = removeFirst (toLowerCase x) (bannedUsers st)
  /\ bannedFile st1 = bannedUsers st1.
Proof.
  intros O B X I st1. subst st1.
  rewrite onMessage_cases, B. cbn [orb].
  destruct (parse_two "!" "unban" x eq_refl eq_refl X) as [N A].
  change (String "!" "unban" ++ " " ++ x) with ("!unban " ++ x) in N, A.
  rewrite N, A. change (lookup _) with (Own c_unban). cbn [runCommand].
  unfold unban. rewrite O. cbn [negb firstLower].
  unfold andThen, getBannedUsers. rewrite I. now split.
Qed.

End ChatFacts.

Import JSString Chat ChatNotions ChatFacts.
Local Open Scope string_scope.

(** X10. From the start of the program on, whatever was on disk and
    whatever messages arrive, [channels.json] and [banned.json] hold the
    lists that are in memory after every message. *)
Theorem files_follow_memory (channelsOnDisk bannedOnDisk : option (list string))
  (ms : list Incoming) :
  saved (deliverAll (startState channelsOnDisk bannedOnDisk) ms).
Proof. apply saved_deliverAll. now split. Qed.

(** X11. A message of anyone but the account of the bot leaves the list of
    banned users and its file as they are, whatever the message is. *)
Theorem only_owner_changes_bans (env : Env) (channel sender message : string)
  (self : bool) (st : BotState) :
  isOwner env sender = false ->
  bannedUsers (snd (onMessage env channel sender message self st))
  = bannedUsers st
  /\ bannedFile (snd (onMessage env channel sender message self st))
     = bannedFile st.
Proof.
  intros O.
  destruct (onMessage_change env channel sender message self st)
    as [[A [B [C D]]]|x O' _ _ _ _ _ _ _|x O' _ _ _ _ _ _
       |_ A B C D|_ A B C D]; try (now split); congruence.
Qed.

Lemma only_owner_changes_bans_witness :
  isOwner ChatScenario.bot "troll" = false
  /\ bannedUsers (snd (onMessage ChatScenario.bot "#chessburgerbot" "troll"
                         "!ban alice" false ChatScenario.start))
     = bannedUsers ChatScenario.start.
Proof.
  split; [reflexivity|].
  now apply (only_owner_changes_bans ChatScenario.bot "#chessburgerbot" "troll"
               "!ban alice" false ChatScenario.start).
Defined.

(** X12. A message changes the list of joined channels at most in the
    entry of its sender: every other name is listed after the message
    exactly when it was listed before. *)
Theorem other_channels_untouched (env : Env)
  (channel sender message c : string) (self : bool) (st : BotState) :
  c <> toLowerCase sender ->
  In c (joinedChannels (snd (onMessage env channel sender message self st)))
  <-> In c (joinedChannels st).
Proof.
  intros N.
  destruct (onMessage_change env channel sender message self st)
    as [[A _]|x _ _ _ _ _ _ A _|x _ _ _ _ _ A _|_ A _ _ _|_ A _ _ _];
    rewrite A; try reflexivity.
  - rewrite in_app_iff. cbn. split; [|tauto].
    intros [I|[E|[]]]; [exact I|]. now elim N.
  - split; [apply removeFirst_In|now apply removeFirst_other].
Qed.

Lemma other_channels_untouched_witness :
  "alice" <> toLowerCase "Bob"
  /\ (In "alice" (joinedChannels
                    (snd (onMessage ChatScenario.bot "#chessburgerbot" "Bob"
                            "!join alice" false ChatScenario.start)))
      <-> In "alice" (joinedChannels ChatScenario.start)).
Proof.
  split; [discriminate|].
  apply (other_channels_untouched ChatScenario.bot "#chessburgerbot" "Bob"
           "!join alice" "alice" false ChatScenario.start).
  discriminate.
Defined.

(** X13. After the owner's [!ban x], every message of a sender whose name
    is [x] up to the case of its letters is ignored: it returns at once
    and leaves the state as it is. *)
Theorem banned_user_is_ignored (env env' : Env)
  (channel channel' owner x sender message : string) (self : bool)
  (st : BotState) :
  isOwner env owner = true ->
  includes (toLowerCase owner) (bannedUsers st) = false ->
  isWord x ->
  toLowerCase sender = toLowerCase x ->
  let st1 := snd (onMessage env channel owner ("!ban " ++ x) false st) in
  onMessage env' channel' sender message self st1 = (Ret tt, st1).
Proof.
  intros O B X E st1. apply onMessage_ignored. rewrite E.
  apply (ban_word env channel owner x st O B X).
Qed.

Lemma banned_user_is_ignored_witness :
  isOwner ChatScenario.bot "ChessburgerBot" = true
  /\ includes (toLowerCase "ChessburgerBot") (bannedUsers ChatScenario.start)
     = false
  /\ isWord "Troll"
  /\ toLowerCase "TROLL" = toLowerCase "Troll"
  /\ let st1 := snd (onMessage ChatScenario.bot "#chessburgerbot"
                       "ChessburgerBot" ("!ban " ++ "Troll") false
                       ChatScenario.start) in
     onMessage ChatScenario.bot "#alice" "TROLL" "!weekly alice" false st1
     = (Ret tt, st1).
Proof.
  assert (W : isWord "Troll") by (split; [discriminate|reflexivity]).
  split; [reflexivity|]. split; [reflexivity|]. split; [exact W|].
  split; [reflexivity|].
  exact (banned_user_is_ignored ChatScenario.bot ChatScenario.bot
           "#chessburgerbot" "#alice" "ChessburgerBot" "Troll" "TROLL"
           "!weekly alice" false ChatScenario.start eq_refl eq_refl W eq_refl).
Defined.

(** X14. [!ban x] followed by [!unban x], both from the owner, restores
    the list of banned users, in memory and on disk, when [x] was not
    banned before and is not the owner's own name. *)
Theorem ban_then_unban (env : Env) (channel owner x : string) (st : BotState) :
  isOwner env owner = true ->
  includes (toLowerCase owner) (bannedUsers st) = false ->
  isWord x ->
  includes (toLowerCase x) (bannedUsers st) = false ->
  toLowerCase x <> toLowerCase owner ->
  let st1 := snd (onMessage env channel owner ("!ban " ++ x) false st) in
  let st2 := snd (onMessage env channel owner ("!unban " ++ x) false st1) in
  bannedUsers st1 = (bannedUsers st ++ [toLowerCase x])%list
  /\ bannedUsers st2 = bannedUsers st
  /\ bannedFile st2 = bannedUsers st.
Proof.
  intros O B X I N st1 st2.
  destruct (ban_word env channel owner x st O B X) as [I1 H].
  destruct (H I) as [E1 F1]. fold st1 in I1, E1, F1.
  assert (B1 : includes (toLowerCase owner) (bannedUsers st1) = false).
  { apply includes_not_In. rewrite E1, in_app_iff. cbn.
    apply includes_not_In in B. intros [J|[J|[]]]; [now apply B|].
    now apply N. }
  destruct (unban_word env channel owner x st1 O B1 X I1) as [E2 F2].
  fold st2 in E2, F2.
  assert (R : bannedUsers st2 = bannedUsers st).
  { rewrite E2, E1. apply removeFirst_last. now apply includes_not_In. }
  split; [exact E1|]. split; [exact R|]. now rewrite F2.
Qed.

Lemma ban_then_unban_witness :
  let st1 := snd (onMessage ChatScenario.bot "#chessburgerbot" "ChessburgerBot"
                    ("!ban " ++ "Troll") false ChatScenario.start) in
  let st2 := snd (onMessage ChatScenario.bot "#chessburgerbot" "ChessburgerBot"
                    ("!unban " ++ "Troll") false st1) in
  bannedUsers st1 = (bannedUsers ChatScenario.start ++ [toLowerCase "Troll"])%list
  /\ bannedUsers st2 = bannedUsers ChatScenario.start
  /\ bannedFile st2 = bannedUsers ChatScenario.start.
Proof.
  apply (ban_then_unban ChatScenario.bot "#chessburgerbot" "ChessburgerBot"
           "Troll" ChatScenario.start); try reflexivity; try discriminate.
  split; [discriminate|reflexivity].
Defined.

(** X15. Once the name of the bot account is on the list of banned users,
    no message changes that list or its file any more: the owner is
    ignored, and nobody else may ban or unban. *)
Theorem banned_owner_is_locked_out (b : string) (ms : list Incoming)
  (st : BotState) :
  includes (toLowerCase b) (bannedUsers st) = true ->
  Forall (fun m => botUsername (env m) = b) ms ->
  bannedUsers (deliverAll st ms) = bannedUsers st
  /\ bannedFile (deliverAll st ms) = bannedFile st.
Proof.
  intros L F. revert st L.
  induction F as [|m ms E F IH]; intros st L; [now split|].
  cbn. rewrite <- E in L. destruct (locked_deliver st m L) as [A B].
  rewrite <- A, <- B. apply IH. rewrite A. now rewrite <- E.
Qed.

Lemma banned_owner_is_locked_out_witness :
  let ms := [mkIncoming ChatScenario.bot "#chessburgerbot" "ChessburgerBot"
               "!unban chessburgerbot" false] in
  bannedUsers ChatScenario.lockedOut = ["chessburgerbot"]
  /\ bannedUsers (deliverAll ChatScenario.lockedOut ms)
     = bannedUsers ChatScenario.lockedOut.
Proof.
  split; [reflexivity|].
  apply (banned_owner_is_locked_out "ChessburgerBot").
  - reflexivity.
  - now repeat constructor.
Defined.

(** X16. No message makes the bot list a channel twice, whatever the case
    of its letters, or a banned user twice: when the lists are free of
    such repetitions, they stay so. *)
Theorem lists_stay_without_repetition (ms : list Incoming) (st : BotState) :
  distinct st -> distinct (deliverAll st ms).
Proof.
  revert st. induction ms as [|m ms IH]; intros st D; [exact D|].
  apply IH, distinct_deliver, D.
Qed.

Lemma lists_stay_without_repetition_witness :
  distinct (deliverAll ChatScenario.start
              [mkIncoming ChatScenario.bot "#chessburgerbot" "Bob" "!join" false;
               mkIncoming ChatScenario.bot "#chessburgerbot" "BOB" "!join" false]).
Proof.
  apply lists_stay_without_repetition. split; constructor.
Defined.

(** X17. [!join] followed by [!removeburger] in the sender's own channel
    restores the list of joined channels, in memory and on disk, when the
    sender is not banned and the channel was not listed; the bot joins
    and then leaves that channel. *)
Theorem join_then_removeburger (env env' : Env) (channel sender : string)
  (st : BotState) :
  includes (toLowerCase sender) (bannedUsers st) = false ->
  existsb (fun c => String.eqb (toLowerCase c) (toLowerCase sender))
    (joinedChannels st) = false ->
  let own := "#" ++ toLowerCase sender in
  let st1 := snd (onMessage env channel sender "!join" false st) in
  let st2 := snd (onMessage env' own sender "!removeburger" false st1) in
  joinedChannels st1 = (joinedChannels st ++ [toLowerCase sender])%list
  /\ joinedChannels st2 = joinedChannels st
  /\ channelsFile st2 = joinedChannels st
  /\ chat st2
     = (chat st
        ++ [Join own;
            Say channel ("Bot has joined " ++ toLowerCase sender ++ "'s channel.");
            Say own "Bot is leaving the channel. Goodbye!";
            Part own])%list.
Proof.
  intros B L own st1 st2.
  assert (E1 : st1 = mkBotState (joinedChannels st ++ [toLowerCase sender])
                       (bannedUsers st)
                       (joinedChannels st ++ [toLowerCase sender])
                       (bannedFile st)
                       ((chat st ++ [Join own])
                        ++ [Say channel ("Bot has joined " ++ toLowerCase sender
                                         ++ "'s channel.")])
                       (requests st)).
  { subst st1. rewrite onMessage_cases, B. cbn [orb].
    change (commandNameOf "!join") with "join".
    change (argsOf "!join") with (@nil string).
    change (lookup "join") with (Own c_join). cbn [runCommand].
    unfold join. cbn [firstLower truthy]. rewrite String.eqb_refl.
    cbn [negb]. unfold andThen, getJoinedChannels. rewrite L. reflexivity. }
  assert (E2 : st2 = mkBotState (joinedChannels st) (bannedUsers st)
                       (joinedChannels st) (bannedFile st)
                       ((chat st1
                         ++ [Say own "Bot is leaving the channel. Goodbye!"])
                        ++ [Part own])
                       (requests st)).
  { subst st2. rewrite onMessage_cases.
    replace (bannedUsers st1) with (bannedUsers st) by now rewrite E1.
    rewrite B. cbn [orb].
    change (commandNameOf "!removeburger") with "removeburger".
    change (lookup "removeburger") with (Own c_removeburger).
    cbn [runCommand]. unfold removeburger.
    change (dropFirstHash own) with (toLowerCase sender).
    rewrite toLowerCase_idempotent, String.eqb_refl. cbn [negb].
    unfold andThen, getJoinedChannels.
    assert (I : includes (toLowerCase sender) (joinedChannels st1) = true).
    { rewrite E1. cbn. apply includes_In, in_app_iff. right. now left. }
    rewrite I. cbn.
    assert (R : removeFirst (toLowerCase sender) (joinedChannels st1)
                = joinedChannels st).
    { rewrite E1. cbn. apply removeFirst_last, (not_listed _ _ L). }
    rewrite R. f_equal; now rewrite E1. }
  rewrite E2. cbn. rewrite E1. cbn.
  repeat split. now rewrite <- !app_assoc.
Qed.

Lemma join_then_removeburger_witness :
  let st1 := snd (onMessage ChatScenario.bot "#chessburgerbot" "Bob" "!join"
                    false ChatScenario.start) in
  let st2 := snd (onMessage ChatScenario.bot "#bob" "Bob" "!removeburger"
                    false st1) in
  joinedChannels st1 = ["bob"] /\ joinedChannels st2 = [] /\ channelsFile st2 = [].
Proof.
  destruct (join_then_removeburger ChatScenario.bot ChatScenario.bot
              "#chessburgerbot" "Bob" ChatScenario.start eq_refl eq_refl)
    as [A [B [C _]]].
  exact (conj A (conj B C)).
Defined.

(** X18. The [!] before a command is optional: a message that starts with
    a character other than [!] and white space is handled as the same
    message with a [!] put before it. *)
Theorem leading_bang_is_optional (env : Env) (channel sender : string)
  (c : ascii) (r : string) (self : bool) (st : BotState) :
  Pgn.isSpace c = false ->
  c <> "!"%char ->
  onMessage env channel sender ("!" ++ String c r) self st
  = onMessage env channel sender (String c r) self st.
Proof.
  intros C B. destruct (parse_bang c r C B) as [N A].
  rewrite !onMessage_cases, N, A. reflexivity.
Qed.

Lemma leading_bang_is_optional_witness :
  onMessage ChatScenario.bot "#chessburgerbot" "bob" ("!" ++ "weekly alice")
    false ChatScenario.start
  = onMessage ChatScenario.bot "#chessburgerbot" "bob" "weekly alice"
      false ChatScenario.start.
Proof.
  apply (leading_bang_is_optional ChatScenario.bot "#chessburgerbot" "bob"
           "w" "eekly alice" false ChatScenario.start);
    [reflexivity|discriminate].
Defined.

(** X19. For one message the bot does at most two things on the chat
    client, after what it did before: it speaks only in the channel the
    message came from, and joins or leaves only the channel named after
    the sender; and the listener never throws. *)
Theorem bot_answers_where_asked (env : Env) (channel sender message : string)
  (self : bool) (st : BotState) :
  fst (onMessage env channel sender message self st) = Ret tt
  /\ Spoken channel sender st
       (snd (onMessage env channel sender message self st)).
Proof.
  split; [apply onMessage_returns|].
  rewrite onMessage_cases.
  destruct (_ || _); [apply spoken_nothing|].
  destruct (lookup _); try apply spoken_nothing.
  - apply runCommand_spoken.
  - now eapply spoken_once.
Qed.

(** ** Upper and lower case in a message *)

Module CaseFacts.
Import JSString Stats Chat ChatNotions ChatFacts.
Local Open Scope string_scope.

Lemma isSpace_lowerChar (c : ascii) : Pgn.isSpace (lowerChar c) = Pgn.isSpace c.
Proof. destruct c as [[] [] [] [] [] [] [] []]; reflexivity. Qed.

Lemma bang_lowerChar (c : ascii) :
  Ascii.eqb (lowerChar c) "!" = Ascii.eqb c "!".
Proof. destruct c as [[] [] [] [] [] [] [] []]; reflexivity. Qed.

Lemma trimStart_lower (s : string) :
  Pgn.trimStart (toLowerCase s) = toLowerCase (Pgn.trimStart s).
Proof.
  induction s as [|c r IH]; [reflexivity|].
  cbn [toLowerCase Pgn.trimStart]. rewrite isSpace_lowerChar.
  now destruct (Pgn.isSpace c).
Qed.

Lemma trimEnd_lower (s : string) :
  Pgn.trimEnd (toLowerCase s) = toLowerCase (Pgn.trimEnd s).
Proof.
  induction s as [|c r IH]; [reflexivity|].
  cbn [toLowerCase Pgn.trimEnd]. rewrite isSpace_lowerChar, IH.
  destruct (Pgn.trimEnd r); cbn [toLowerCase]; [|reflexivity].
  now destruct (Pgn.isSpace c).
Qed.

Lemma splitSpaces_lower (s : string) (b : bool) :
  splitSpaces b (toLowerCase s) = map toLowerCase (splitSpaces b s).
Proof.
  revert b. induction s as [|c r IH]; intros b; [reflexivity|].
  cbn [toLowerCase splitSpaces]. rewrite isSpace_lowerChar, !IH.
  destruct (Pgn.isSpace c); [now destruct b|].
  now destruct (splitSpaces false r).
Qed.

Lemma dropBang_lower (s : string) :
  dropBang (toLowerCase s) = toLowerCase (dropBang s).
Proof.
  destruct s as [|c r]; [reflexivity|].
  cbn [toLowerCase dropBang]. rewrite bang_lowerChar.
  now destruct (Ascii.eqb c "!").
Qed.

Lemma commandNameOf_lower (message : string) :
  commandNameOf (toLowerCase message) = commandNameOf message.
Proof.
  unfold commandNameOf, Pgn.trim.
  rewrite trimStart_lower, trimEnd_lower, splitSpaces_lower.
  destruct (splitSpaces false _) as [|h t]; [reflexivity|].
  cbn [map hd]. now rewrite dropBang_lower, toLowerCase_idempotent.
Qed.

Lemma argsOf_lower (message : string) :
  argsOf (toLowerCase message) = map toLowerCase (argsOf message).
Proof.
  unfold argsOf, Pgn.trim.
  rewrite trimStart_lower, trimEnd_lower, splitSpaces_lower.
  now destruct (splitSpaces false _).
Qed.

Lemma firstLower_lower (args : list string) :
  firstLower (map toLowerCase args) = firstLower args.
Proof.
  destruct args as [|a l]; [reflexivity|].
  cbn. now rewrite toLowerCase_idempotent.
Qed.

Lemma runCommand_lower (env : Env) (c : Command) (ch sender : string)
  (args : list string) :
  runCommand env c ch sender (map toLowerCase args)
  = runCommand env c ch sender args.
Proof.
  destruct c; cbn [runCommand]; try reflexivity;
    unfold handleStats, handleRecent, ban, unban, join;
    now rewrite firstLower_lower.
Qed.

End CaseFacts.

Import JSString Chat ChatFacts CaseFacts.

(** X20. Upper and lower case make no difference anywhere in a message:
    a message is handled as the same message in lower case, in what the
    bot says, requests and stores. *)
Theorem messages_are_case_insensitive (env : Env)
  (channel sender message : string) (self : bool) (st : BotState) :
  onMessage env channel sender (toLowerCase message) self st
  = onMessage env channel sender message self st.
Proof.
  rewrite !onMessage_cases, commandNameOf_lower, argsOf_lower.
  destruct (_ || _); [reflexivity|].
  destruct (lookup _); try reflexivity. now rewrite runCommand_lower.
Qed.

(** ** The statistics line *)

Module FormatFacts.
Import JSString Stats Notions Chat RawNotions.
Import ResolverFacts FetchFacts AggregateFacts StringFacts RawFacts.
Local Open Scope string_scope.

Lemma handleStats_returned (env : Env) (channel : string) (args : list string)
  (periodType : PeriodType) (username : string) (st : BotState)
  (r : Raw.RawStats) (tr' : list string) :
  truthy (firstLower args) = Some username ->
  Raw.getStatsRaw (net env) (statsNow env) username
    (Handler.periodStart periodType (handlerNow env))
    (Handler.periodEnd periodType (handlerNow env)) periodType (requests st)
  = (Ret r, tr') ->
  handleStats env channel args periodType st
  = (Ret tt,
     mkBotState (joinedChannels st) (bannedUsers st) (channelsFile st)
       (bannedFile st)
       (chat st ++ [Say channel (statsMessage username r periodType)])%list
       tr').
Proof.
  intros T E. unfold handleStats. rewrite T.
  unfold catch, andThen, request. rewrite E. reflexivity.
Qed.




Lemma ratingStr_shown (count : nat) (s e : Z) :
  (0 < count)%nat -> ratingStr count (Some s) (Some e) <> EmptyString.
Proof.
  intros C. unfold ratingStr.
  destruct (0 <? count)%nat eqn:E; [discriminate|].
  apply Nat.ltb_ge in E. lia.
Qed.

Lemma ratingStr_hidden (s e : option Z) : ratingStr 0 s e = EmptyString.
Proof. now destruct s, e. Qed.

End FormatFacts.

Import JSString Stats Notions Chat RawNotions FetchFacts AggregateFacts.
Import RawFacts FormatFacts.
Local Open Scope string_scope.



(** X22. When every request to the archive API fails, the bot does not
    report an error: it says that the player has played 0 games, with 0
    games and no rating for each of the three modes. *)
Theorem api_down_reports_zero_games (env : Env) (channel : string)
  (args : list string) (periodType : PeriodType) (username : string)
  (st : BotState) :
  truthy (firstLower args) = Some username ->
  (forall url, failedRaw (net env url) = true) ->
  chat (snd (handleStats env channel args periodType st))
  = (chat st
     ++ [Say channel
           (username ++ " has played 0 games " ++ periodName periodType
            ++ ". 0 Rapid games, 0 Blitz games, 0 Bullet games")])%list.
Proof.
  intros T F.
  assert (A : Forall (fun k => failedRaw (net env (requestOf username k)) = true)
                (monthsToFetch (statsNow env)
                   (Handler.periodStart periodType (handlerNow env))
                   (Handler.periodEnd periodType (handlerNow env)) periodType)).
  { apply Forall_forall. intros k _. apply F. }
  destruct (contributionRaw_failed _ _ _ A) as [I E].
  pose proof (getStatsRaw_result (net env) (statsNow env) username _ _
                periodType (requests st) I) as G.
  rewrite E in G. change (Raw.aggregateRaw _ _ _ []) with (Ret noDataRaw) in G.
  rewrite (handleStats_returned _ _ _ _ _ _ _ _ T G).
  cbn [snd chat]. now destruct periodType.
Qed.

Lemma api_down_reports_zero_games_witness :
  chat (snd (handleStats
               (mkEnv "ChessburgerBot" (Lift.lift Scenario.netDown)
                  (fun _ => None) Scenario.now Scenario.now)
               "#chessburgerbot" ["Alice"] daily ChatScenario.start))
  = [Say "#chessburgerbot"
       "alice has played 0 games today. 0 Rapid games, 0 Blitz games, 0 Bullet games"].
Proof.
  apply (api_down_reports_zero_games
           (mkEnv "ChessburgerBot" (Lift.lift Scenario.netDown) (fun _ => None)
              Scenario.now Scenario.now)
           "#chessburgerbot" ["Alice"] daily "alice" ChatScenario.start);
    [reflexivity|intros url; reflexivity].
Defined.

(** X23. In the statistics line of a result of [getStats], the rating
    part of a mode is there exactly when the mode has games in the
    period. *)
Theorem rating_shown_iff_played (net : Network) (now : Z) (username : string)
  (periodStart periodEnd : Z) (periodType : PeriodType) (tr : list string)
  (mode : Mode) :
  exists r tr',
    getStats net now username periodStart periodEnd periodType tr = (Ret r, tr')
    /\ (ratingStr (get mode (stats r)) (get mode (startRatings r))
          (get mode (endRatings r)) <> EmptyString
        <-> (0 < get mode (stats r))%nat).
Proof.
  rewrite getStats_result. eexists _, _. split; [reflexivity|].
  rewrite aggregate_end, aggregate_start, aggregate_count.
  unfold endGame, startGame.
  set (modeGames := filter (isMode mode)
                      (filter (inPeriod periodStart periodEnd) _)).
  split.
  - intros H. destruct modeGames as [|g l]; [|cbn; lia].
    elim H. apply ratingStr_hidden.
  - intros H.
    assert (E : exists e, pop modeGames = Some e).
    { destruct (pop modeGames) eqn:P; [now eexists|].
      apply pop_nil in P. rewrite P in H. cbn in H. lia. }
    destruct E as [e E]. rewrite E.
    assert (S : exists s,
               match pop (filter (beforePeriod periodStart mode)
                            (sortGames (fetchedGames net now username periodStart
                                          periodEnd periodType))) with
               | Some lastBefore => Some lastBefore
               | None => hd_error modeGames
               end = Some s).
    { destruct (pop (filter _ (sortGames _))); [now eexists|].
      destruct modeGames; [cbn in H; lia|now eexists]. }
    destruct S as [s S]. rewrite S. cbn [option_map].
    now apply ratingStr_shown.
Qed.

(** ** The most recent game *)

Module RecentFacts.
Import JSString Stats Pgn Recent RecentNotions.
Local Open Scope string_scope.

Lemma getLastGame_result (net : Web) (username : string)
  (tr : list string) :
  getLastGame net username tr
  = (Ret (option_map (describe username) (latestGame net username)),
     (tr ++ archivesUrl username
         :: match latestArchive net username with
            | Some url => [url]
            | None => []
            end)%list).
Proof.
  unfold getLastGame, latestGame, latestArchive, lastOf, try_catch, bind,
    fetchFrom, jsonOf.
  destruct (net (archivesUrl username)) as [res|]; [|reflexivity].
  destruct (ok res); cbn [negb]; [|reflexivity].
  destruct (body res) as [data|]; [|reflexivity].
  unfold ret at 1.
  destruct (archives data) as [archs|]; [|reflexivity].
  destruct (pop archs) as [url|]; [|reflexivity].
  rewrite <- app_assoc. cbn [app].
  destruct (net url) as [res2|]; [|reflexivity].
  destruct (ok res2); cbn [negb]; [|reflexivity].
  destruct (body res2) as [data2|]; [|reflexivity].
  unfold ret at 1.
  destruct (games data2) as [gs|]; [|reflexivity].
  now destruct (pop gs).
Qed.

Lemma describe_outcome (username : string) (g : Played) :
  outcome (describe username g)
  = if String.eqb (result (sideOf username g)) "lose" then "lost"
    else if String.eqb (result (sideOf username g)) "win" then "won"
    else "draw".
Proof.
  unfold describe, sideOf, playsWhite. cbn [outcome].
  destruct (String.eqb (toLowerCase _) _); cbn [andb orb negb];
    rewrite ?orb_false_r;
    destruct (String.eqb _ "lose"); [reflexivity| |reflexivity|];
    now destruct (String.eqb _ "win").
Qed.

(** *** Skipping a match *)

Lemma removeMatches_skip (matchAt : string -> option nat) (p s : string) :
  removeMatches matchAt (String.length p) (p ++ s) = removeMatches matchAt 0 s.
Proof. induction p as [|c r IH]; [reflexivity|exact IH]. Qed.

Lemma headerRest_line (h rest : string) :
  noLineTerminator h = true ->
  headerRest (h ++ "]" ++ String "010" rest)
  = Some (String.length (h ++ "]" ++ String "010" EmptyString)).
Proof.
  induction h as [|c r IH]; cbn [noLineTerminator]; intros N; [reflexivity|].
  apply andb_true_iff in N as [N1 N2]. apply negb_true_iff in N1.
  specialize (IH N2).
  change (String c r ++ "]" ++ String "010" rest)
    with (String c (r ++ "]" ++ String "010" rest)).
  cbn [headerRest].
  destruct (r ++ "]" ++ String "010" rest) as [|n t] eqn:E;
    [now destruct r|].
  assert (F : Ascii.eqb c "]" && Ascii.eqb n "010" = false).
  { destruct r as [|d r'].
    - cbn in E. injection E as <- _. apply andb_false_r.
    - cbn in E. injection E as <- _. cbn in N2.
      apply andb_true_iff in N2 as [N2 _]. apply negb_true_iff in N2.
      unfold isLineTerminator in N2. apply orb_false_iff in N2 as [N2 _].
      rewrite N2. apply andb_false_r. }
  rewrite F, N1, IH. reflexivity.
Qed.

(** *** White space *)

Lemma collapseSpaces_spaced (s : string) (b : bool) :
  spaced b (collapseSpaces b s) = true.
Proof.
  revert b. induction s as [|c r IH]; intros b; [reflexivity|].
  cbn [collapseSpaces]. destruct (isSpace c) eqn:E.
  - destruct b; [apply IH|]. cbn. apply IH.
  - cbn [spaced]. rewrite E. apply IH.
Qed.

Lemma trimStart_spaced (s : string) (b : bool) :
  spaced b s = true -> spaced true (trimStart s) = true.
Proof.
  revert b. induction s as [|c r IH]; intros b; [reflexivity|].
  cbn [spaced trimStart]. destruct (isSpace c) eqn:E.
  - intros H. apply andb_true_iff in H as [_ H]. now apply (IH true).
  - intros H. cbn [spaced]. now rewrite E.
Qed.

Lemma trimEnd_singleSpaced (s : string) (b : bool) :
  spaced b s = true -> singleSpaced b (trimEnd s) = true.
Proof.
  revert b. induction s as [|c r IH]; intros b; [reflexivity|].
  cbn [spaced trimEnd]. destruct (isSpace c) eqn:E.
  - intros H. apply andb_true_iff in H as [H1 H2].
    specialize (IH true H2).
    destruct (trimEnd r) as [|d t]; [reflexivity|].
    cbn [singleSpaced]. rewrite E, H1. exact IH.
  - intros H. specialize (IH false H).
    destruct (trimEnd r) as [|d t]; cbn [singleSpaced]; now rewrite E.
Qed.

End RecentFacts.

Import JSString Stats Pgn Recent RecentNotions RecentFacts.
Local Open Scope string_scope.

(** X24. [getLastGame] never throws, and requests at most two URLs: the
    list of archives of the player and then the last archive of that
    list. It returns the description of the last game of that archive,
    and [null] whenever a request fails or a list is missing or empty. *)
Theorem last_game_or_nothing (net : Web) (username : string)
  (tr : list string) :
  getLastGame net username tr
  = (Ret (option_map (describe username) (latestGame net username)),
     (tr ++ archivesUrl username
         :: match latestArchive net username with
            | Some url => [url]
            | None => []
            end)%list).
Proof. apply getLastGame_result. Qed.

(** X25. The line of [!recent] for a player whose latest game is found:
    the colour is white exactly when the white player has the name asked
    for, up to the case of its letters; the outcome is read from the
    result code of that side only, and is a draw for every code other
    than [win] and [lose]. *)
Theorem recent_line (env : Chat.Env) (channel : string) (args : list string)
  (username : string) (g : Played) (st : Chat.BotState) :
  Chat.truthy (Chat.firstLower args) = Some username ->
  latestGame (Chat.recentNet env) username = Some g ->
  let code := result (sideOf username g) in
  Chat.chat (snd (Chat.handleRecent env channel args st))
  = (Chat.chat st
     ++ [Chat.Say channel
           (username ++ " has played as "
            ++ (if playsWhite username g then "white" else "black")
            ++ " and "
            ++ (if String.eqb code "lose" then "lost"
                else if String.eqb code "win" then "won" else "draw")
            ++ " most recent game:"
            ++ String "010"
                 (cleanPgn (match pgn g with
                            | Some p => p
                            | None => EmptyString
                            end)))])%list.
Proof.
  intros T L code. unfold Chat.handleRecent. rewrite T.
  unfold Chat.catch, Chat.andThen, Chat.request.
  rewrite getLastGame_result, L. cbn [option_map snd Chat.say Chat.act Chat.chat].
  rewrite describe_outcome. reflexivity.
Qed.

Lemma recent_line_witness :
  Chat.chat (snd (Chat.handleRecent
                    (Chat.mkEnv "ChessburgerBot" (Lift.lift Scenario.net) bobsArchives
                       Scenario.now Scenario.now)
                    "#chessburgerbot" ["Bob"] ChatScenario.start))
  = [Chat.Say "#chessburgerbot"
       ("bob has played as black and draw most recent game:"
        ++ String "010" "1. e4 e5 2. Nf3 1-0")].
Proof.
  exact (recent_line
           (Chat.mkEnv "ChessburgerBot" (Lift.lift Scenario.net) bobsArchives Scenario.now
              Scenario.now)
           "#chessburgerbot" ["Bob"] "bob" lastPlayed ChatScenario.start
           eq_refl eq_refl).
Defined.

(** X26. In a cleaned PGN white space occurs only as single spaces
    between other characters: no line break or tab, no two spaces in a
    row, none at the start or at the end. *)
Theorem cleaned_pgn_is_single_spaced (pgn : string) :
  singleSpaced true (cleanPgn pgn) = true.
Proof.
  unfold cleanPgn, trim.
  apply trimEnd_singleSpaced, (trimStart_spaced _ false), collapseSpaces_spaced.
Qed.

(** X27. A tag line at the start of a PGN, from its opening bracket to
    the closing bracket at the end of the line, is removed by the
    cleaning. *)
Theorem leading_tag_line_is_dropped (h rest : string) :
  noLineTerminator h = true ->
  cleanPgn ("[" ++ h ++ "]" ++ String "010" rest) = cleanPgn rest.
Proof.
  intros N. unfold cleanPgn. cbv zeta. do 4 f_equal.
  change ("[" ++ h ++ "]" ++ String "010" rest)
    with (String "[" (h ++ "]" ++ String "010" rest)).
  cbn [removeMatches headerAt]. change (Ascii.eqb "[" "[") with true.
  cbv iota. rewrite (headerRest_line h rest N). cbn [option_map].
  replace (h ++ "]" ++ String "010" rest)
    with ((h ++ "]" ++ String "010" EmptyString) ++ rest).
  - apply removeMatches_skip.
  - induction h as [|c r IH]; [reflexivity|].
    cbn. f_equal. apply IH. cbn in N. now apply andb_true_iff in N as [_ N].
Qed.

Lemma leading_tag_line_is_dropped_witness :
  cleanPgn ("[" ++ "Result 1-0" ++ "]" ++ String "010" "1. e4 e5 1-0")
  = cleanPgn "1. e4 e5 1-0".
Proof.
  apply (leading_tag_line_is_dropped "Result 1-0" "1. e4 e5 1-0"). reflexivity.
Defined.
